(** * ck-dronecalc: the physics engine of [src/utils/physics.js]

    A shallow embedding of the multirotor performance calculator and the
    proofs of its specified properties.

    Number model.  A JavaScript Number is modelled as an exact real number
    extended with the three special values [NaN], [+Infinity] and
    [-Infinity]; the operators follow the IEEE-754 rules for those special
    values (Infinity - Infinity, 0 * Infinity, 0 / 0, comparisons with NaN,
    ...).  Rounding, overflow to Infinity and the sign of zero are not
    modelled: every zero is +0 and finite arithmetic is exact.  The one
    exception is the sum of identifiers in [addComponent], which is rounded
    to a double.

    Objects.  A table that the code writes as an object literal is a list
    of its own properties; a read with a computed key also finds the
    properties inherited from [Object.prototype]. *)

From Stdlib Require Import Reals Lra Bool List String ZArith.
Import ListNotations.
Open Scope R_scope.

(* ================================================================== *)
(** ** JavaScript numbers and values *)

Module JS.

Inductive number : Type :=
| NaN
| PInf
| NInf
| Fin (r : R).

(** Property values: a property may be absent ([undefined]), [null], or
    hold a value of the expected type. *)
Inductive value (A : Type) : Type :=
| Undefined
| Null
| Val (a : A).
Arguments Undefined {A}.
Arguments Null {A}.
Arguments Val {A} a.

Definition Rlt_b (a b : R) : bool := if Rlt_dec a b then true else false.
Definition Rle_b (a b : R) : bool := if Rle_dec a b then true else false.
Definition Req_b (a b : R) : bool := if Req_dec_T a b then true else false.

(** Sign of a real, for the products and quotients that involve Infinity. *)
Definition Rsgn (r : R) : comparison :=
  if Rlt_b r 0 then Lt else if Rlt_b 0 r then Gt else Eq.

Definition signed_inf (s : comparison) : number :=
  match s with
  | Gt => PInf
  | Lt => NInf
  | Eq => NaN
  end.

Definition neg (x : number) : number :=
  match x with
  | NaN => NaN
  | PInf => NInf
  | NInf => PInf
  | Fin r => Fin (- r)
  end.

(** [x + y] *)
Definition add (x y : number) : number :=
  match x, y with
  | NaN, _ | _, NaN => NaN
  | PInf, NInf | NInf, PInf => NaN
  | PInf, _ | _, PInf => PInf
  | NInf, _ | _, NInf => NInf
  | Fin a, Fin b => Fin (a + b)
  end.

(** [x - y] *)
Definition sub (x y : number) : number := add x (neg y).

(** [x * y] *)
Definition mul (x y : number) : number :=
  match x, y with
  | NaN, _ | _, NaN => NaN
  | Fin a, Fin b => Fin (a * b)
  | Fin a, PInf | PInf, Fin a => signed_inf (Rsgn a)
  | Fin a, NInf | NInf, Fin a => signed_inf (CompOpp (Rsgn a))
  | PInf, PInf | NInf, NInf => PInf
  | PInf, NInf | NInf, PInf => NInf
  end.

(** [x / y]; a zero divisor is +0. *)
Definition div (x y : number) : number :=
  match x, y with
  | NaN, _ | _, NaN => NaN
  | Fin a, Fin b => if Req_b b 0 then signed_inf (Rsgn a) else Fin (a / b)
  | Fin _, PInf | Fin _, NInf => Fin 0
  | PInf, Fin b => if Rlt_b b 0 then NInf else PInf
  | NInf, Fin b => if Rlt_b b 0 then PInf else NInf
  | PInf, PInf | PInf, NInf | NInf, PInf | NInf, NInf => NaN
  end.

(** [x < y] *)
Definition lt (x y : number) : bool :=
  match x, y with
  | NaN, _ | _, NaN => false
  | Fin a, Fin b => Rlt_b a b
  | NInf, NInf => false
  | NInf, _ => true
  | PInf, _ => false
  | Fin _, PInf => true
  | Fin _, NInf => false
  end.

(** [x <= y] *)
Definition le (x y : number) : bool :=
  match x, y with
  | NaN, _ | _, NaN => false
  | Fin a, Fin b => Rle_b a b
  | NInf, _ => true
  | PInf, PInf => true
  | PInf, _ => false
  | Fin _, PInf => true
  | Fin _, NInf => false
  end.

(** [x >= y] *)
Definition ge (x y : number) : bool := le y x.

(** [x === y] on numbers *)
Definition strict_eq (x y : number) : bool :=
  match x, y with
  | Fin a, Fin b => Req_b a b
  | PInf, PInf | NInf, NInf => true
  | _, _ => false
  end.

(** ToBoolean on numbers: 0 and NaN are falsy. *)
Definition truthy (x : number) : bool :=
  match x with
  | NaN => false
  | Fin r => negb (Req_b r 0)
  | PInf | NInf => true
  end.

(** ToBoolean on a property that holds a number, if anything. *)
Definition truthy_val (v : value number) : bool :=
  match v with
  | Val x => truthy x
  | Undefined | Null => false
  end.

(** ToNumber on such a property. *)
Definition ToNumber (v : value number) : number :=
  match v with
  | Undefined => NaN
  | Null => Fin 0
  | Val x => x
  end.

(** [v || w] on values. *)
Definition or_val (v w : value number) : value number :=
  if truthy_val v then v else w.

(** [v || d] with a numeric default [d], read as a number. *)
Definition or_default (v : value number) (d : number) : number :=
  ToNumber (or_val v (Val d)).

(** [v ?? d] with a numeric default [d], read as a number. *)
Definition nullish_default (v : value number) (d : number) : number :=
  match v with
  | Val x => x
  | Undefined | Null => d
  end.

(** [v || d] for a string-valued property; the empty string is falsy. *)
Definition or_default_str (v : value string) (d : string) : string :=
  match v with
  | Val s => if String.eqb s EmptyString then d else s
  | Undefined | Null => d
  end.

(** [v === s] for a string-valued property and a string literal. *)
Definition strict_eq_str (v : value string) (s : string) : bool :=
  match v with
  | Val t => String.eqb t s
  | Undefined | Null => false
  end.

Definition Math_max (x y : number) : number :=
  match x, y with
  | NaN, _ | _, NaN => NaN
  | _, _ => if lt x y then y else x
  end.

Definition Math_min (x y : number) : number :=
  match x, y with
  | NaN, _ | _, NaN => NaN
  | _, _ => if lt y x then y else x
  end.

Definition Math_sqrt (x : number) : number :=
  match x with
  | NaN | NInf => NaN
  | PInf => PInf
  | Fin r => if Rlt_b r 0 then NaN else Fin (sqrt r)
  end.

Definition Math_exp (x : number) : number :=
  match x with
  | NaN => NaN
  | PInf => PInf
  | NInf => Fin 0
  | Fin r => Fin (exp r)
  end.

Definition is_integer (r : R) : bool := Req_b (IZR (Int_part r)) r.
Definition is_odd_integer (r : R) : bool := is_integer r && Z.odd (Int_part r).

(** [Math.pow(base, exponent)], after Number::exponentiate. *)
Definition Math_pow (base exponent : number) : number :=
  match exponent with
  | NaN => NaN
  | Fin e =>
      if Req_b e 0 then Fin 1 else
      match base with
      | NaN => NaN
      | PInf => if Rlt_b 0 e then PInf else Fin 0
      | NInf =>
          if Rlt_b 0 e then (if is_odd_integer e then NInf else PInf)
          else Fin 0
      | Fin b =>
          if Req_b b 0 then (if Rlt_b 0 e then Fin 0 else PInf)
          else if Rlt_b 0 b then Fin (Rpower b e)
          else if is_odd_integer e then Fin (- Rpower (- b) e)
          else if is_integer e then Fin (Rpower (- b) e)
          else NaN
      end
  | PInf =>
      match base with
      | NaN => NaN
      | PInf | NInf => PInf
      | Fin b =>
          if Rlt_b 1 (Rabs b) then PInf
          else if Req_b (Rabs b) 1 then NaN
          else Fin 0
      end
  | NInf =>
      match base with
      | NaN => NaN
      | PInf | NInf => Fin 0
      | Fin b =>
          if Rlt_b 1 (Rabs b) then Fin 0
          else if Req_b (Rabs b) 1 then NaN
          else PInf
      end
  end.

End JS.

Import JS.

Coercion Fin : R >-> number.

Declare Scope js_scope.
Delimit Scope js_scope with js.
Bind Scope js_scope with number.
Infix "+" := add : js_scope.
Infix "-" := sub : js_scope.
Infix "*" := mul : js_scope.
Infix "/" := div : js_scope.
Infix "<" := lt : js_scope.
Infix "<=" := le : js_scope.
Infix ">=" := ge : js_scope.
Infix "===" := strict_eq (at level 70, no associativity) : js_scope.

(* ================================================================== *)
(** ** The engine: constants and tables *)

Local Open Scope js_scope.
Local Open Scope string_scope.

Definition SEA_LEVEL_PRESSURE : number := 101325.
Definition SEA_LEVEL_TEMP : number := 288.15.
Definition LAPSE_RATE : number := 0.0065.
Definition AIR_GAS_CONSTANT : number := 287.058.
Definition GRAVITY : number := 9.80665.
Definition MOLAR_MASS_AIR : number := 0.0289644.
Definition UNIVERSAL_GAS_CONSTANT : number := 8.31447.

(** A table indexed by a numeric property key: [table[k]] is looked up with
    the key's canonical string, which for the literal keys below is
    equality of numbers. *)
Fixpoint lookup_num (table : list (R * number)) (k : number) : value number :=
  match table with
  | [] => Undefined
  | (key, v) :: rest =>
      if k === Fin key then Val v else lookup_num rest k
  end.

Definition AWG_RESISTANCE : list (R * number) :=
  [ (10, Fin 0.003277);
    (12, Fin 0.005211);
    (14, Fin 0.008286);
    (16, Fin 0.01317);
    (18, Fin 0.02095);
    (20, Fin 0.03331);
    (22, Fin 0.05296);
    (26, Fin 0.0668) ]%R.

Record ChemData : Type := { nominal : number; max : number; min : number }.

Definition CHEMISTRY_LiPo : ChemData :=
  {| nominal := 3.7; max := 4.2; min := 3.3 |}.

Definition CHEMISTRY : list (string * ChemData) :=
  [ ("LiPo", CHEMISTRY_LiPo);
    ("Li-ion", {| nominal := 3.6; max := 4.2; min := 2.8 |});
    ("LiHV", {| nominal := 3.85; max := 4.35; min := 3.3 |}) ].

(** The own property [key] of an object; [None] when it has none. *)
Fixpoint lookup_str {A : Type} (table : list (string * A)) (key : string)
  : option A :=
  match table with
  | [] => None
  | (k, v) :: rest => if String.eqb key k then Some v else lookup_str rest key
  end.

(** The property names of [Object.prototype].  An object literal inherits
    them: a read [table[key]] with such a key, when the table has no own
    property of that name, gives the member of [Object.prototype] - a
    function, and [Object.prototype] itself for [__proto__] - which is
    truthy. *)
Definition Object_prototype : list string :=
  [ "constructor"; "hasOwnProperty"; "isPrototypeOf"; "propertyIsEnumerable";
    "toLocaleString"; "toString"; "valueOf"; "__proto__";
    "__defineGetter__"; "__defineSetter__"; "__lookupGetter__";
    "__lookupSetter__" ].

Definition inherited (key : string) : bool :=
  existsb (String.eqb key) Object_prototype.

(** The text of a member of [Object.prototype], which is what the member
    is as a property key or a storage key: "[object Object]" for
    [Object.prototype] itself, and for a function the text that V8 and
    JavaScriptCore give (the standard leaves its white space to the
    implementation; no property proved below depends on it). *)
Definition member_text (name : string) : string :=
  if String.eqb name "__proto__" then "[object Object]"
  else if String.eqb name "constructor"
       then "function Object() { [native code] }"
       else "function " ++ name ++ "() { [native code] }".

(** A member of [Object.prototype] taken for a table entry.  It has none of
    the properties [nominal], [max] and [min]: each read gives [undefined],
    and each read is an operand of [*], where [undefined] counts as NaN. *)
Definition CHEMISTRY_inherited : ChemData :=
  {| nominal := NaN; max := NaN; min := NaN |}.

(** [CHEMISTRY[key] || CHEMISTRY.LiPo]: the fallback is taken only when the
    read gives [undefined], not for a name inherited from
    [Object.prototype]. *)
Definition chemistry_or_LiPo (key : string) : ChemData :=
  match lookup_str CHEMISTRY key with
  | Some c => c
  | None => if inherited key then CHEMISTRY_inherited else CHEMISTRY_LiPo
  end.

(* ================================================================== *)
(** ** The engine: the physics functions *)

Definition calcAirDensity (altitudeM tempC : number) : number :=
  let alt := Math_max 0 (Math_min altitudeM 11000) in
  let T := (tempC + 273.15) - LAPSE_RATE * alt + LAPSE_RATE * alt in
  let exponent :=
    (GRAVITY * MOLAR_MASS_AIR) / (UNIVERSAL_GAS_CONSTANT * LAPSE_RATE) in
  let P :=
    SEA_LEVEL_PRESSURE
    * Math_pow (1 - (LAPSE_RATE * alt) / SEA_LEVEL_TEMP) exponent in
  let T_kelvin := tempC + 273.15 in
  P / (AIR_GAS_CONSTANT * T_kelvin).

Definition calcMotorRPM (kv voltage current resistance : number) : number :=
  let backEMF := voltage - current * resistance in
  kv * Math_max 0 backEMF.

Definition calcThrust (ct rho rps diameterM : number) : number :=
  ct * rho * rps * rps * Math_pow diameterM 4.

Definition calcPropPower (cp rho rps diameterM : number) : number :=
  cp * rho * Math_pow rps 3 * Math_pow diameterM 5.

Definition calcMotorElecPower (voltage current : number) : number :=
  voltage * current.

Definition calcMotorEfficiency (mechPower elecPower : number) : number :=
  if elecPower <= 0 then Fin 0
  else Math_min 1 (Math_max 0 (mechPower / elecPower)).

Record Coefficients : Type := { coeff_ct : number; coeff_cp : number }.

Definition estimatePropCoefficients (diameterIn pitchIn blades : number)
  : Coefficients :=
  let pitchRatio := pitchIn / diameterIn in
  let ct := 0.075 + 0.045 * pitchRatio in
  let cp := 0.025 + 0.035 * pitchRatio in
  let '(ct, cp) :=
    if blades === 3 then (ct * 1.15, cp * 1.25) else (ct, cp) in
  let ct := Math_max 0.04 (Math_min 0.22 ct) in
  let cp := Math_max 0.015 (Math_min 0.12 cp) in
  {| coeff_ct := ct; coeff_cp := cp |}.

Record BatteryUnderLoad : Type := { voltage : number; sagVolts : number }.

Definition calcBatteryVoltageUnderLoad
  (cells : number) (chemistry : string)
  (currentA capacityMah cRating internalResistanceMohm : number)
  : BatteryUnderLoad :=
  let chem := chemistry_or_LiPo chemistry in
  let nominalVoltage := nominal chem * cells in
  let minVoltage := min chem * cells in
  let totalResistance := (internalResistanceMohm / 1000) * cells in
  let sagVolts := currentA * totalResistance in
  let voltage := Math_max minVoltage (nominalVoltage - sagVolts) in
  {| voltage := voltage; sagVolts := sagVolts |}.

Definition calcHoverThrottle
  (totalWeightKg numMotors maxThrustPerMotorN coaxialFactor : number)
  : number :=
  let requiredThrust := totalWeightKg * GRAVITY in
  let effectiveMotors := numMotors * coaxialFactor in
  let thrustPerMotor := requiredThrust / effectiveMotors in
  if maxThrustPerMotorN <= 0 then Fin 100
  else
    let throttleRatio := Math_sqrt (thrustPerMotor / maxThrustPerMotorN) in
    Math_min 100 (Math_max 0 (throttleRatio * 100)).

Definition calcFlightTime (capacityMah dischargePercent totalCurrentA : number)
  : number :=
  if totalCurrentA <= 0 then PInf
  else
    let usableCapacity := capacityMah * dischargePercent in
    (usableCapacity / (totalCurrentA * 1000)) * 60.

Definition calcMotorTemp
  (ambientC copperLossW thermalResistanceCW durationS : number) : number :=
  let tau : number := 120 in
  let steadyState := copperLossW * thermalResistanceCW in
  ambientC + steadyState * (1 - Math_exp (neg durationS / tau)).

Definition calcThrustToWeightRatio (totalThrustN totalWeightKg : number)
  : number :=
  if totalWeightKg <= 0 then Fin 0
  else totalThrustN / (totalWeightKg * GRAVITY).

Definition calcSystemEfficiency (thrustN powerW : number) : number :=
  if powerW <= 0 then Fin 0
  else (thrustN * 1000 / GRAVITY) / powerW.

Record WireLoss : Type := { resistance : number; powerLoss : number }.

Definition calcWireLoss (awg lengthCm currentA : number) : WireLoss :=
  let resistancePerM :=
    ToNumber (or_val (lookup_num AWG_RESISTANCE awg)
                     (lookup_num AWG_RESISTANCE 14)) in
  let resistance := resistancePerM * (lengthCm / 100) in
  let powerLoss := currentA * currentA * resistance in
  {| resistance := resistance; powerLoss := powerLoss |}.

Definition calcCoaxialFactor (isCoaxial : bool) : number :=
  if isCoaxial then Fin 0.85 else Fin 1.0.

(* ================================================================== *)
(** ** The configuration object

    Each section lists the properties that [runFullSimulation] reads; a
    numeric property is absent, [null] or a number, and the two textual
    properties are absent, [null] or a string. *)

Module Environment.
Record t : Type := {
    altitude : value number;
    temperature : value number }.
Definition empty : t :=
    {| altitude := Undefined; temperature := Undefined |}.
End Environment.

Module Frame.
Record t : Type := {
    motorCount : value number;
    layout : value string;
    frameWeight : value number;
    payloadWeight : value number;
    payloadCurrent : value number;
    wheelbaseMm : value number }.
Definition empty : t :=
    {| motorCount := Undefined; layout := Undefined;
       frameWeight := Undefined; payloadWeight := Undefined;
       payloadCurrent := Undefined; wheelbaseMm := Undefined |}.
End Frame.

Module Battery.
Record t : Type := {
    chemistry : value string;
    cellsS : value number;
    cellsP : value number;
    capacityMah : value number;
    cRating : value number;
    burstC : value number;
    internalResistanceMohm : value number;
    weightG : value number;
    dischargeDepth : value number }.
Definition empty : t :=
    {| chemistry := Undefined; cellsS := Undefined; cellsP := Undefined;
       capacityMah := Undefined; cRating := Undefined; burstC := Undefined;
       internalResistanceMohm := Undefined; weightG := Undefined;
       dischargeDepth := Undefined |}.
End Battery.

Module Esc.
Record t : Type := {
    continuousA : value number;
    resistanceMohm : value number;
    weightG : value number;
    wireAwg : value number;
    wireLengthCm : value number;
    minCells : value number;
    maxCells : value number }.
Definition empty : t :=
    {| continuousA := Undefined; resistanceMohm := Undefined;
       weightG := Undefined; wireAwg := Undefined;
       wireLengthCm := Undefined; minCells := Undefined;
       maxCells := Undefined |}.
End Esc.

Module Motor.
Record t : Type := {
    kv : value number;
    resistance : value number;
    noLoadCurrent : value number;
    maxCurrent : value number;
    maxPower : value number;
    weightG : value number;
    thermalResistance : value number;
    minCells : value number;
    maxCells : value number }.
Definition empty : t :=
    {| kv := Undefined; resistance := Undefined; noLoadCurrent := Undefined;
       maxCurrent := Undefined; maxPower := Undefined; weightG := Undefined;
       thermalResistance := Undefined; minCells := Undefined;
       maxCells := Undefined |}.
End Motor.

Module Propeller.
Record t : Type := {
    diameterIn : value number;
    pitchIn : value number;
    blades : value number;
    weightG : value number;
    ct : value number;
    cp : value number }.
Definition empty : t :=
    {| diameterIn := Undefined; pitchIn := Undefined; blades := Undefined;
       weightG := Undefined; ct := Undefined; cp := Undefined |}.
End Propeller.

(** The object passed to [runFullSimulation]: each section is absent,
    [null] or an object. *)
Module Config.
Record t : Type := {
    environment : value Environment.t;
    frame : value Frame.t;
    battery : value Battery.t;
    esc : value Esc.t;
    motor : value Motor.t;
    propeller : value Propeller.t }.
Definition empty : t :=
    {| environment := Undefined; frame := Undefined; battery := Undefined;
       esc := Undefined; motor := Undefined; propeller := Undefined |}.
End Config.

(** The six section objects after the destructuring of line 272. *)
Record Sections : Type := {
  the_environment : Environment.t;
  the_frame : Frame.t;
  the_battery : Battery.t;
  the_esc : Esc.t;
  the_motor : Motor.t;
  the_propeller : Propeller.t }.

(** ** The result object *)

Module Validations.
Record t : Type := {
    motorCurrentOk : bool;
    escCurrentOk : bool;
    batteryDischargeOk : bool;
    batteryBurstOk : bool;
    propSizeOk : bool;
    twrOk : bool;
    motorTempOk : bool;
    hoverThrottleOk : bool;
    escVoltageOk : bool;
    motorVoltageOk : bool }.

  (** [Object.values(validations)], in insertion order. *)
Definition values (v : t) : list bool :=
    [ motorCurrentOk v; escCurrentOk v; batteryDischargeOk v;
      batteryBurstOk v; propSizeOk v; twrOk v; motorTempOk v;
      hoverThrottleOk v; escVoltageOk v; motorVoltageOk v ].
End Validations.

Module SimulationResult.
Record t : Type := {
    airDensity : number;
    totalWeightKg : number;
    totalWeightG : number;
    hoverThrottle : number;
    hoverRPM : number;
    hoverCurrentPerMotor : number;
    hoverTotalCurrent : number;
    hoverTotalPower : number;
    hoverEfficiency : number;
    hoverThrustPerMotor : number;
    hoverBatteryVoltage : number;
    hoverBatterySag : number;
    flightTimeMin : number;
    maxThrustPerMotorG : number;
    maxTotalThrustG : number;
    maxRPM : number;
    maxCurrentPerMotor : number;
    maxTotalCurrentDraw : number;
    maxBatteryVoltage : number;
    maxBatterySag : number;
    twr : number;
    wireLossPerMotor : number;
    totalWireLoss : number;
    escPowerLoss : number;
    copperLossPerMotor : number;
    motorTemp5min : number;
    motorEfficiency : number;
    nominalVoltage : number;
    maxVoltage : number;
    maxContinuousCurrent : number;
    totalCapacityMah : number;
    motorMinCells : number;
    motorMaxCells : number;
    escMinCells : number;
    escMaxCells : number;
    batteryCells : number;
    ct : number;
    cp : number;
    validations : Validations.t;
    allValid : bool;
    maxBurstCurrent : number;
    maxPropDiameterMm : number;
    propDiameterMm : number }.
End SimulationResult.

(* ================================================================== *)
(** ** [runFullSimulation]: the body, one definition per [const]

    [s] holds the six section objects bound by the destructuring; every
    definition below is the [const] (or [let]) of the same name. *)

Module Body.
Section Body.

Variable s : Sections.
Local Abbreviation environment := (the_environment s).
Local Abbreviation frame := (the_frame s).
Local Abbreviation battery := (the_battery s).
Local Abbreviation esc := (the_esc s).
Local Abbreviation motor := (the_motor s).
Local Abbreviation propeller := (the_propeller s).

  (* Environment *)
Definition altitude := or_default (Environment.altitude environment) 0.
Definition tempC := nullish_default (Environment.temperature environment) 25.
Definition rho := calcAirDensity altitude tempC.

  (* Frame *)
Definition numMotors := or_default (Frame.motorCount frame) 4.
Definition isCoaxial := strict_eq_str (Frame.layout frame) "coaxial".
Definition coaxFactor := calcCoaxialFactor isCoaxial.
Definition frameWeight := or_default (Frame.frameWeight frame) 0 / 1000.
Definition payloadWeight := or_default (Frame.payloadWeight frame) 0 / 1000.
Definition payloadCurrent := or_default (Frame.payloadCurrent frame) 0.

  (* Battery *)
Definition chem := or_default_str (Battery.chemistry battery) "LiPo".
Definition cells := or_default (Battery.cellsS battery) 4.
Definition parallel := or_default (Battery.cellsP battery) 1.
Definition capacityMah :=
    or_default (Battery.capacityMah battery) 5000 * parallel.
Definition cRating := or_default (Battery.cRating battery) 20.
Definition burstC := or_default (Battery.burstC battery) 40.
Definition internalR :=
    or_default (Battery.internalResistanceMohm battery) 5.
Definition batteryWeight := or_default (Battery.weightG battery) 0 / 1000.
Definition dischargeDepth :=
    or_default (Battery.dischargeDepth battery) 80 / 100.
Definition chemData := chemistry_or_LiPo chem.
Definition nominalVoltage := nominal chemData * cells.
Definition maxVoltage := max chemData * cells.
Definition maxContinuousCurrent := (capacityMah / 1000) * cRating.

  (* Motor *)
Definition kv := or_default (Motor.kv motor) 920.
Definition motorResistance := or_default (Motor.resistance motor) 0.1.
Definition noLoadCurrent := or_default (Motor.noLoadCurrent motor) 0.5.
Definition maxMotorCurrent := or_default (Motor.maxCurrent motor) 30.
Definition motorWeightG := or_default (Motor.weightG motor) 60.
Definition thermalResistance :=
    or_default (Motor.thermalResistance motor) 10.
Definition motorMinCells := or_default (Motor.minCells motor) 2.
Definition motorMaxCells := or_default (Motor.maxCells motor) 6.

  (* ESC *)
Definition escMaxCurrent := or_default (Esc.continuousA esc) 30.
Definition escResistance := or_default (Esc.resistanceMohm esc) 1 / 1000.
Definition escWeightG := or_default (Esc.weightG esc) 10.
Definition wireAWG := or_default (Esc.wireAwg esc) 14.
Definition wireLengthCm := or_default (Esc.wireLengthCm esc) 20.
Definition escMinCells := or_default (Esc.minCells esc) 2.
Definition escMaxCells := or_default (Esc.maxCells esc) 6.

  (* Propeller *)
Definition propDiameterIn := or_default (Propeller.diameterIn propeller) 10.
Definition propPitchIn := or_default (Propeller.pitchIn propeller) 4.5.
Definition propBlades := or_default (Propeller.blades propeller) 2.
Definition propWeightG := or_default (Propeller.weightG propeller) 15.

  (** [let ct = propeller.ct; let cp = propeller.cp;] and the conditional
      assignment of lines 337-341; afterwards both are numbers. *)
Definition ct_given := Propeller.ct propeller.
Definition cp_given := Propeller.cp propeller.
Definition coeffs :=
    estimatePropCoefficients propDiameterIn propPitchIn propBlades.
Definition ct : number :=
    ToNumber
      (if negb (truthy_val ct_given) || negb (truthy_val cp_given)
       then or_val ct_given (Val (coeff_ct coeffs))
       else ct_given).
Definition cp : number :=
    ToNumber
      (if negb (truthy_val ct_given) || negb (truthy_val cp_given)
       then or_val cp_given (Val (coeff_cp coeffs))
       else cp_given).

Definition propDiameterM := propDiameterIn * 0.0254.

  (* Total weight *)
Definition totalWeightKg :=
    frameWeight + payloadWeight + batteryWeight +
    (motorWeightG * numMotors + escWeightG * numMotors
     + propWeightG * numMotors) / 1000.
Definition totalWeightG := totalWeightKg * 1000.

  (* Max throttle *)
Definition maxRPM := calcMotorRPM kv maxVoltage noLoadCurrent motorResistance.
Definition maxRPS := maxRPM / 60.
Definition maxThrustPerMotor := calcThrust ct rho maxRPS propDiameterM.
Definition maxTotalThrust := maxThrustPerMotor * numMotors * coaxFactor.
Definition maxTotalThrustG := (maxTotalThrust / GRAVITY) * 1000.

  (* Hover *)
Definition hoverThrottle :=
    calcHoverThrottle totalWeightKg numMotors maxThrustPerMotor coaxFactor.
Definition hoverRPS := maxRPS * (hoverThrottle / 100).
Definition hoverRPM := hoverRPS * 60.
Definition hoverThrustPerMotor := calcThrust ct rho hoverRPS propDiameterM.
Definition hoverMechPower := calcPropPower cp rho hoverRPS propDiameterM.
Definition motorEff : number := 0.85.
Definition hoverCurrentPerMotor :=
    hoverMechPower / (nominalVoltage * motorEff) + noLoadCurrent.
Definition hoverTotalCurrent :=
    hoverCurrentPerMotor * numMotors + payloadCurrent.
Definition hoverBattery :=
    calcBatteryVoltageUnderLoad
      cells chem hoverTotalCurrent capacityMah cRating internalR.
Definition hoverElecPowerPerMotor :=
    calcMotorElecPower (voltage hoverBattery / cells * cells)
                       hoverCurrentPerMotor.
Definition hoverTotalPower :=
    hoverElecPowerPerMotor * numMotors + payloadCurrent * voltage hoverBattery.
Definition hoverEfficiency :=
    calcSystemEfficiency (hoverThrustPerMotor * numMotors * coaxFactor)
                         hoverTotalPower.

  (* Flight time *)
Definition flightTime :=
    calcFlightTime capacityMah dischargeDepth hoverTotalCurrent.

  (* Max current per motor *)
Definition maxMechPower := calcPropPower cp rho maxRPS propDiameterM.
Definition maxCurrentPerMotor :=
    maxMechPower / (nominalVoltage * motorEff) + noLoadCurrent.
Definition maxTotalCurrentDraw :=
    maxCurrentPerMotor * numMotors + payloadCurrent.
Definition maxBattery :=
    calcBatteryVoltageUnderLoad
      cells chem maxTotalCurrentDraw capacityMah cRating internalR.

  (* Wire, ESC and copper losses; motor temperature *)
Definition wireLoss := calcWireLoss wireAWG wireLengthCm hoverCurrentPerMotor.
Definition totalWireLoss := powerLoss wireLoss * numMotors.
Definition escPowerLoss :=
    hoverCurrentPerMotor * hoverCurrentPerMotor * escResistance * numMotors.
Definition copperLoss :=
    hoverCurrentPerMotor * hoverCurrentPerMotor * motorResistance.
Definition motorTemp5min :=
    calcMotorTemp tempC copperLoss thermalResistance 300.

Definition twr := calcThrustToWeightRatio maxTotalThrust totalWeightKg.
Definition motorEffCalc :=
    calcMotorEfficiency hoverMechPower hoverElecPowerPerMotor.

  (* Validations *)
Definition maxBurstCurrent := (capacityMah / 1000) * burstC.
Definition wheelbaseMm := or_default (Frame.wheelbaseMm frame) 350.
Definition wbFactors : list (R * number) :=
    [ (3, Fin 0.866); (4, Fin 0.707); (6, Fin 0.5); (8, Fin 0.38) ]%R.
Definition wbFactor := or_default (lookup_num wbFactors numMotors) 0.5.
Definition maxPropDiameterMm := wheelbaseMm * wbFactor.
Definition propDiameterMm := propDiameterIn * 25.4.

Definition validations : Validations.t :=
    {| Validations.motorCurrentOk := hoverCurrentPerMotor < maxMotorCurrent;
       Validations.escCurrentOk := hoverCurrentPerMotor < escMaxCurrent;
       Validations.batteryDischargeOk :=
         hoverTotalCurrent < maxContinuousCurrent;
       Validations.batteryBurstOk := maxTotalCurrentDraw < maxBurstCurrent;
       Validations.propSizeOk := propDiameterMm <= maxPropDiameterMm;
       Validations.twrOk := twr >= 2.0;
       Validations.motorTempOk := motorTemp5min < 80;
       Validations.hoverThrottleOk := hoverThrottle < 60;
       Validations.escVoltageOk :=
         (cells >= escMinCells) && (cells <= escMaxCells);
       Validations.motorVoltageOk :=
         (cells >= motorMinCells) && (cells <= motorMaxCells) |}.

  (** [Object.values(validations).every(Boolean)] *)
Definition allValid : bool :=
    forallb (fun b : bool => b) (Validations.values validations).

  (** The returned object literal. *)
Definition result : SimulationResult.t :=
    {| SimulationResult.airDensity := rho;
       SimulationResult.totalWeightKg := totalWeightKg;
       SimulationResult.totalWeightG := totalWeightG;
       SimulationResult.hoverThrottle := hoverThrottle;
       SimulationResult.hoverRPM := hoverRPM;
       SimulationResult.hoverCurrentPerMotor := hoverCurrentPerMotor;
       SimulationResult.hoverTotalCurrent := hoverTotalCurrent;
       SimulationResult.hoverTotalPower := hoverTotalPower;
       SimulationResult.hoverEfficiency := hoverEfficiency;
       SimulationResult.hoverThrustPerMotor :=
         (hoverThrustPerMotor / GRAVITY) * 1000;
       SimulationResult.hoverBatteryVoltage := voltage hoverBattery;
       SimulationResult.hoverBatterySag := sagVolts hoverBattery;
       SimulationResult.flightTimeMin := flightTime;
       SimulationResult.maxThrustPerMotorG :=
         (maxThrustPerMotor / GRAVITY) * 1000;
       SimulationResult.maxTotalThrustG := maxTotalThrustG;
       SimulationResult.maxRPM := maxRPM;
       SimulationResult.maxCurrentPerMotor := maxCurrentPerMotor;
       SimulationResult.maxTotalCurrentDraw := maxTotalCurrentDraw;
       SimulationResult.maxBatteryVoltage := voltage maxBattery;
       SimulationResult.maxBatterySag := sagVolts maxBattery;
       SimulationResult.twr := twr;
       SimulationResult.wireLossPerMotor := powerLoss wireLoss;
       SimulationResult.totalWireLoss := totalWireLoss;
       SimulationResult.escPowerLoss := escPowerLoss;
       SimulationResult.copperLossPerMotor := copperLoss;
       SimulationResult.motorTemp5min := motorTemp5min;
       SimulationResult.motorEfficiency := motorEffCalc;
       SimulationResult.nominalVoltage := nominalVoltage;
       SimulationResult.maxVoltage := maxVoltage;
       SimulationResult.maxContinuousCurrent := maxContinuousCurrent;
       SimulationResult.totalCapacityMah := capacityMah;
       SimulationResult.motorMinCells := motorMinCells;
       SimulationResult.motorMaxCells := motorMaxCells;
       SimulationResult.escMinCells := escMinCells;
       SimulationResult.escMaxCells := escMaxCells;
       SimulationResult.batteryCells := cells;
       SimulationResult.ct := ct;
       SimulationResult.cp := cp;
       SimulationResult.validations := validations;
       SimulationResult.allValid := allValid;
       SimulationResult.maxBurstCurrent := maxBurstCurrent;
       SimulationResult.maxPropDiameterMm := maxPropDiameterMm;
       SimulationResult.propDiameterMm := propDiameterMm |}.

End Body.
End Body.

(* ================================================================== *)
(** ** [runFullSimulation]: the call

    The caller passes a reference to a configuration object that lives in
    the heap.  The engine is written in a state-and-exception monad over
    that heap: a property read of [undefined] or [null] throws a
    [TypeError], every other step is a read. *)

Inductive error : Type := TypeError.

Inductive completion (A : Type) : Type :=
| Normal (a : A)
| Throw (e : error).
Arguments Normal {A} a.
Arguments Throw {A} e.

Definition loc : Type := nat.

(** The configuration objects held by the callers. *)
Definition Heap : Type := loc -> Config.t.

Definition Eng (A : Type) : Type := Heap -> completion A * Heap.

Definition ret {A : Type} (a : A) : Eng A := fun h => (Normal a, h).

Definition throw {A : Type} (e : error) : Eng A := fun h => (Throw e, h).

Definition bind {A B : Type} (m : Eng A) (k : A -> Eng B) : Eng B :=
  fun h =>
    match m h with
    | (Normal a, h') => k a h'
    | (Throw e, h') => (Throw e, h')
    end.

Notation "x <- m ;; k" := (bind m (fun x => k))
  (at level 61, m at next level, right associativity).

(** Dereference of an object reference. *)
Definition load (l : loc) : Eng Config.t := fun h => (Normal (h l), h).

(** The base of a property access must be an object. *)
Definition object_of {A : Type} (v : value A) : Eng A :=
  match v with
  | Val a => ret a
  | Undefined | Null => throw TypeError
  end.

(** A destructuring default [p = d] replaces [undefined] only. *)
Definition with_default {A : Type} (v : value A) (d : A) : value A :=
  match v with
  | Undefined => Val d
  | Null => Null
  | Val a => Val a
  end.

(** [const { environment = {}, ... } = config] followed by the first
    property read of each section.  No statement between the destructuring
    and the [return] writes to the heap or can throw, except those first
    reads (lines 282, 287, 295, 310, 321 and 330, in this order); the six
    reads are therefore placed right after the destructuring. *)
Definition destructure (c : Config.t) : Eng Sections :=
  let environment := with_default (Config.environment c) Environment.empty in
  let frame := with_default (Config.frame c) Frame.empty in
  let battery := with_default (Config.battery c) Battery.empty in
  let esc := with_default (Config.esc c) Esc.empty in
  let motor := with_default (Config.motor c) Motor.empty in
  let propeller := with_default (Config.propeller c) Propeller.empty in
  environment <- object_of environment ;;
  frame <- object_of frame ;;
  battery <- object_of battery ;;
  motor <- object_of motor ;;
  esc <- object_of esc ;;
  propeller <- object_of propeller ;;
  ret {| the_environment := environment; the_frame := frame;
         the_battery := battery; the_esc := esc; the_motor := motor;
         the_propeller := propeller |}.

Definition runFullSimulation (config : value loc) : Eng SimulationResult.t :=
  l <- object_of config ;;
  c <- load l ;;
  s <- destructure c ;;
  ret (Body.result s).

(* ================================================================== *)
(** ** [src/utils/helpers.js] *)

(** [x > y] *)
Definition gt (x y : number) : bool := lt y x.
Infix ">" := gt : js_scope.

(** The global [isFinite] on a number. *)
Definition isFinite (x : number) : bool :=
  match x with
  | Fin _ => true
  | NaN | PInf | NInf => false
  end.

Definition getStatus
  (value cautionThreshold dangerThreshold : number) (invertDirection : bool)
  : string :=
  if invertDirection then
    if value < dangerThreshold then "danger"
    else if value < cautionThreshold then "caution"
    else "safe"
  else
    if value > dangerThreshold then "danger"
    else if value > cautionThreshold then "caution"
    else "safe".

Definition clamp (value min max : number) : number :=
  Math_max min (Math_min max value).

(* ================================================================== *)
(** ** [src/hooks/useUnits.jsx] *)

Record Conversion : Type :=
  { label : string; abbr : string; factor : number }.

(** Internal units: meters for distance, grams for weight. *)
Definition CONVERSIONS : list (string * list (string * Conversion)) :=
  [ ("distance",
     [ ("m", {| label := "Meters"; abbr := "m"; factor := 1 |});
       ("ft", {| label := "Feet"; abbr := "ft"; factor := 3.28084 |}) ]);
    ("weight",
     [ ("g", {| label := "Grams"; abbr := "g"; factor := 1 |});
       ("kg", {| label := "Kilograms"; abbr := "kg"; factor := 0.001 |});
       ("lbs", {| label := "Pounds"; abbr := "lbs";
                  factor := 0.00220462 |}) ]) ].

(** The [units] state: an object whose properties are unit names. *)
Definition Units : Type := list (string * string).

(** What the read [CONVERSIONS[type]?.[units[type]]] gives: an entry of
    the table, a truthy value of the built-in library, or a falsy value
    ([undefined], mostly). *)
Inductive conversion : Type :=
| Entry (conv : Conversion)
| Builtin
| NoConversion.

(** [CONVERSIONS[type]?.[units[type]]].

    For a type of the table, a unit that is no key of the type's table but a
    name inherited from [Object.prototype] gives the inherited member.  For
    a type that is itself such a name, [CONVERSIONS[type]] is a member of
    [Object.prototype] and the second read looks into that built-in object,
    with the key [units[type]] - the unit selected for that name, or the
    member that [units] inherits under it.  The built-in objects are not
    part of the repository: [builtin m k] tells whether the member [m] of
    [Object.prototype] has a truthy property [k]. *)
Definition conversion_of
  (builtin : string -> string -> bool) (units : Units) (type : string)
  : conversion :=
  match lookup_str CONVERSIONS type with
  | Some table =>
      match lookup_str units type with
      | Some unit =>
          match lookup_str table unit with
          | Some conv => Entry conv
          | None => if inherited unit then Builtin else NoConversion
          end
      | None =>
          (* [units[type]] is [undefined], or a member when [type] is an
             inherited name: neither is a key of the table *)
          NoConversion
      end
  | None =>
      if inherited type then
        let key :=
          match lookup_str units type with
          | Some unit => unit
          | None => member_text type
          end in
        if builtin type key then Builtin else NoConversion
      else NoConversion
  end.

(** [toDisplay]: internal value to display value.  A value of the built-in
    library has no property [factor]: [conv.factor] is [undefined]. *)
Definition toDisplay
  (builtin : string -> string -> bool) (units : Units)
  (value : JS.value number) (type : string) : JS.value number :=
  match value with
  | Undefined => Undefined
  | Null => Null
  | Val x =>
      if negb (isFinite x) then Val x
      else
        match conversion_of builtin units type with
        | Entry conv => Val (x * factor conv)
        | Builtin => Val (x * ToNumber Undefined)
        | NoConversion => Val x
        end
  end.

(** [toInternal]: display value to internal value. *)
Definition toInternal
  (builtin : string -> string -> bool) (units : Units)
  (value : JS.value number) (type : string) : JS.value number :=
  match value with
  | Undefined => Undefined
  | Null => Null
  | Val x =>
      if negb (isFinite x) then Val x
      else
        match conversion_of builtin units type with
        | Entry conv => Val (x / factor conv)
        | Builtin => Val (x / ToNumber Undefined)
        | NoConversion => Val x
        end
  end.

(** [getAbbr]: the abbreviation of the current unit, or the empty string;
    a value of the built-in library has no property [abbr]. *)
Definition getAbbr
  (builtin : string -> string -> bool) (units : Units) (type : string)
  : string :=
  match conversion_of builtin units type with
  | Entry conv => if String.eqb (abbr conv) "" then "" else abbr conv
  | Builtin | NoConversion => ""
  end.

(** [setUnit(type, value)]: [{ ...prev, [type]: value }]. *)
Fixpoint set_property {A : Type} (obj : list (string * A)) (key : string)
  (v : A) : list (string * A) :=
  match obj with
  | [] => [(key, v)]
  | (k, w) :: rest =>
      if String.eqb key k then (k, v) :: rest
      else (k, w) :: set_property rest key v
  end.

Definition setUnit (prev : Units) (type value : string) : Units :=
  set_property prev type value.

(* ================================================================== *)
(** ** [useDroneConfig]: the computed results

    [try { return runFullSimulation(config) } catch (e) { ...; return null }];
    the message written to the console is not modelled. *)

Definition results (config : value loc) : Eng (value SimulationResult.t) :=
  fun h =>
    match runFullSimulation config h with
    | (Normal r, h') => (Normal (Val r), h')
    | (Throw _, h') => (Normal Null, h')
    end.

(* ================================================================== *)
(** ** [src/services/storage.js]

    The component library kept in [localStorage].  A stored text is
    represented by what [JSON.parse] makes of it; the components are flat
    objects whose [id], when present, is [null] or a number.  Arrays whose
    elements are not such objects, and the version check run when the module
    is loaded, are outside the model. *)

(** The value of a property other than [id]. *)
Inductive jsval : Type :=
| JUndefined
| JNull
| JNum (x : number)
| JStr (s : string)
| JBool (b : bool).

Module Component.
Record t : Type := {
  id : value number;
  fields : list (string * jsval) }.
End Component.

(** What [JSON.parse(JSON.stringify(x))] makes of a component: properties
    that are [undefined] disappear, numbers that are not finite become
    [null]. *)
Definition json_id (v : value number) : value number :=
  match v with
  | Val x => if isFinite x then Val x else Null
  | Undefined => Undefined
  | Null => Null
  end.

Fixpoint json_fields (fs : list (string * jsval)) : list (string * jsval) :=
  match fs with
  | [] => []
  | (k, JUndefined) :: rest => json_fields rest
  | (k, JNum x) :: rest =>
      (k, if isFinite x then JNum x else JNull) :: json_fields rest
  | (k, v) :: rest => (k, v) :: json_fields rest
  end.

Definition json_component (c : Component.t) : Component.t :=
  {| Component.id := json_id (Component.id c);
     Component.fields := json_fields (Component.fields c) |}.

(** A text held by [localStorage]: the text of an array of components, a
    text that parses to a value that is not an array (as "{}"), a text
    that does not parse (as "undefined"), or the empty text. *)
Inductive text : Type :=
| ItemsText (items : list Component.t)
| OtherText
| Unparsable
| EmptyText.

Definition JSON_stringify (data : list Component.t) : text :=
  ItemsText (map json_component data).

(** The state of the module: the browser's [localStorage] and the arrays of
    the module-level [DEFAULTS] object, which the code hands out and so can
    change. *)
Record Store : Type := {
  localStorage : list (string * text);
  DEFAULTS : list (string * list Component.t) }.

(** A value that is not an array, where the code expects one: a member of
    [Object.prototype], or what [JSON.parse] made of a text that is not the
    text of an array. *)
Inductive non_array : Type :=
| Member (name : string)
| Parsed.

(** How a call ends: it returns a value of the expected type, it returns a
    value that is not an array where an array is expected, or it throws an
    [Error] with a message or a [TypeError]. *)
Inductive outcome (A : Type) : Type :=
| Returns (a : A)
| ReturnsOther (v : non_array)
| ThrowsError (message : string)
| ThrowsTypeError.
Arguments Returns {A} a.
Arguments ReturnsOther {A} v.
Arguments ThrowsError {A} message.
Arguments ThrowsTypeError {A}.

Definition Sto (A : Type) : Type := Store -> outcome A * Store.

Definition sto_ret {A : Type} (a : A) : Sto A := fun st => (Returns a, st).

Definition sto_other {A : Type} (v : non_array) : Sto A :=
  fun st => (ReturnsOther v, st).

Definition sto_throw {A : Type} (message : string) : Sto A :=
  fun st => (ThrowsError message, st).

(** [m] followed by [k]; a value that is not an array is handed on as it
    is, as by [return]. *)
Definition sto_bind {A B : Type} (m : Sto A) (k : A -> Sto B) : Sto B :=
  fun st =>
    match m st with
    | (Returns a, st') => k a st'
    | (ReturnsOther v, st') => (ReturnsOther v, st')
    | (ThrowsError e, st') => (ThrowsError e, st')
    | (ThrowsTypeError, st') => (ThrowsTypeError, st')
    end.

(** The result of [m] used as an array: the first thing that each caller
    does with it is to call a method of arrays ([find], [reduce],
    [findIndex], [filter]), which a value that is not an array does not
    have, so that the call throws a [TypeError]. *)
Definition array_of {A : Type} (m : Sto A) : Sto A :=
  fun st =>
    match m st with
    | (ReturnsOther _, st') => (ThrowsTypeError, st')
    | result => result
    end.

Notation "x <-- m ;; k" := (sto_bind m (fun x => k))
  (at level 61, m at next level, right associativity).

Fixpoint remove_property {A : Type} (obj : list (string * A)) (key : string)
  : list (string * A) :=
  match obj with
  | [] => []
  | (k, w) :: rest =>
      if String.eqb key k then remove_property rest key
      else (k, w) :: remove_property rest key
  end.

Definition getItem (key : string) : Sto (option text) :=
  fun st => (Returns (lookup_str (localStorage st) key), st).

Definition setItem (key : string) (v : text) : Sto unit :=
  fun st =>
    (Returns tt,
     {| localStorage := set_property (localStorage st) key v;
        DEFAULTS := DEFAULTS st |}).

Definition removeItem (key : string) : Sto unit :=
  fun st =>
    (Returns tt,
     {| localStorage := remove_property (localStorage st) key;
        DEFAULTS := DEFAULTS st |}).

Definition KEYS : list (string * string) :=
  [ ("batteries", "dronecalc_batteries");
    ("motors", "dronecalc_motors");
    ("propellers", "dronecalc_propellers");
    ("escs", "dronecalc_escs");
    ("version", "dronecalc_storage_version") ].

(** [getKey]: [KEYS[collection]], and an [Error] when that is falsy.  For
    a name inherited from [Object.prototype] the read gives the inherited
    member, which is truthy and is returned; [localStorage], the only user
    of the key, takes it by its text. *)
Definition getKey (collection : string) : Sto string :=
  match lookup_str KEYS collection with
  | Some key => sto_ret key
  | None =>
      if inherited collection then sto_ret (member_text collection)
      else sto_throw ("Invalid collection: " ++ collection)
  end.

(** The array object an array value is: one of the arrays of [DEFAULTS],
    or an array created by the call. *)
Inductive array_ref : Type :=
| DefaultsArray (collection : string)
| FreshArray.

(** [DEFAULTS[collection] || []]: an array of [DEFAULTS], the member of
    [Object.prototype] for an inherited name, or a new empty array. *)
Definition defaults_or_empty (collection : string) (st : Store)
  : (array_ref * list Component.t) + string :=
  match lookup_str (DEFAULTS st) collection with
  | Some defaults => inl (DefaultsArray collection, defaults)
  | None =>
      if inherited collection then inr collection
      else inl (FreshArray, [])
  end.

(** The text that [setItem] stores for [JSON.stringify] of a member of
    [Object.prototype]: "{}" for [Object.prototype] itself; for a function
    [JSON.stringify] gives [undefined], stored as the text "undefined". *)
Definition member_json (name : string) : text :=
  if String.eqb name "__proto__" then OtherText else Unparsable.

(** A write to an array ([push], [items[index] = ...]): it reaches
    [DEFAULTS] when the array is one of its arrays. *)
Definition array_write (a : array_ref) (contents : list Component.t)
  : Sto unit :=
  fun st =>
    match a with
    | DefaultsArray collection =>
        (Returns tt,
         {| localStorage := localStorage st;
            DEFAULTS := set_property (DEFAULTS st) collection contents |})
    | FreshArray => (Returns tt, st)
    end.

Definition loadData (collection : string)
  : Sto (array_ref * list Component.t) :=
  key <-- getKey collection ;;
  json <-- getItem key ;;
  match json with
  | None | Some EmptyText =>
      fun st =>
        match defaults_or_empty collection st with
        | inl defaults =>
            (_ <-- setItem key (JSON_stringify (snd defaults)) ;;
             sto_ret defaults) st
        | inr name =>
            (_ <-- setItem key (member_json name) ;;
             sto_other (Member name)) st
        end
  | Some (ItemsText items) => sto_ret (FreshArray, items)
  | Some OtherText => sto_other Parsed
  | Some Unparsable => sto_ret (FreshArray, [])
  end.

Definition saveData (collection : string) (data : list Component.t)
  : Sto unit :=
  key <-- getKey collection ;;
  setItem key (JSON_stringify data).

(** [i.id === Number(id)] for a numeric [id]. *)
Definition has_id (n : number) (i : Component.t) : bool :=
  match Component.id i with
  | Val x => x === n
  | Undefined | Null => false
  end.

(** [getAll] returns what [loadData] returns, an array or not. *)
Definition getAll (collection : string) : Sto (list Component.t) :=
  loaded <-- loadData collection ;;
  sto_ret (snd loaded).

(** [None] is [null]. *)
Definition getById (collection : string) (n : number)
  : Sto (option Component.t) :=
  loaded <-- array_of (loadData collection) ;;
  sto_ret (find (has_id n) (snd loaded)).

(** Identifiers are integers, where the rounding of doubles shows: beyond
    2^53 not every integer is a double.  The sum [maxId + 1] is therefore
    rounded as IEEE-754 binary64 rounds it, to the nearest double, a tie
    going to the even significand.  The other operations of the model are
    exact. *)

(** The integer nearest to [q], a tie going to the even one. *)
Definition round_even (q : R) : Z :=
  let f := Int_part q in
  let d := (q - IZR f)%R in
  if Rlt_b d (/ 2) then f
  else if Rlt_b (/ 2) d then (f + 1)%Z
  else if Z.even f then f else (f + 1)%Z.

(** The double nearest to a real number: 53 significant bits, so that
    around [r] the doubles are the multiples of 2^(e - 52) with
    e = floor(log2 |r|); at least 2^-1074 apart; an infinity from 2^1024
    on. *)
Definition binary64 (r : R) : number :=
  if Req_b r 0 then Fin 0
  else
    let e := Z.max (Int_part (ln (Rabs r) / ln 2) - 52) (-1074) in
    let y := (IZR (round_even (r / powerRZ 2 e)) * powerRZ 2 e)%R in
    if Rle_b (powerRZ 2 1024) (Rabs y)
    then (if Rlt_b 0 r then PInf else NInf)
    else Fin y.

(** [x + y] as doubles add. *)
Definition add_double (x y : number) : number :=
  match x + y with
  | Fin r => binary64 r
  | sum => sum
  end.

Definition addComponent (collection : string) (item : Component.t)
  : Sto number :=
  loaded <-- array_of (loadData collection) ;;
  let items := snd loaded in
  let maxId :=
    fold_left
      (fun (max : number) (i : Component.t) =>
         Math_max max (or_default (Component.id i) 0))
      items (Fin 0) in
  let newItem :=
    {| Component.id := Val (add_double maxId 1);
       Component.fields := Component.fields item |} in
  let items := (items ++ [newItem])%list in
  _ <-- array_write (fst loaded) items ;;
  _ <-- saveData collection items ;;
  sto_ret (add_double maxId 1).

Fixpoint findIndex {A : Type} (p : A -> bool) (l : list A) : option nat :=
  match l with
  | [] => None
  | x :: rest =>
      if p x then Some O
      else match findIndex p rest with
           | Some i => Some (S i)
           | None => None
           end
  end.

Fixpoint set_index {A : Type} (l : list A) (index : nat) (x : A) : list A :=
  match l, index with
  | [], _ => []
  | _ :: rest, O => x :: rest
  | y :: rest, S i => y :: set_index rest i x
  end.

(** [{ ...a, ...b }] on the properties other than [id]. *)
Definition spread (a b : list (string * jsval)) : list (string * jsval) :=
  fold_left (fun acc kv => set_property acc (fst kv) (snd kv)) b a.

Definition updateComponent
  (collection : string) (n : number) (updates : Component.t) : Sto bool :=
  loaded <-- array_of (loadData collection) ;;
  let items := snd loaded in
  match findIndex (has_id n) items with
  | None => sto_ret false
  | Some index =>
      match nth_error items index with
      | None => sto_ret false
      | Some old =>
          let merged :=
            {| Component.id := Val n;
               Component.fields :=
                 spread (Component.fields old) (Component.fields updates) |} in
          let items := set_index items index merged in
          _ <-- array_write (fst loaded) items ;;
          _ <-- saveData collection items ;;
          sto_ret true
      end
  end.

Definition deleteComponent (collection : string) (n : number) : Sto bool :=
  loaded <-- array_of (loadData collection) ;;
  let initialLen := List.length (snd loaded) in
  let items := filter (fun i => negb (has_id n i)) (snd loaded) in
  if negb (Nat.eqb (List.length items) initialLen) then
    _ <-- saveData collection items ;;
    sto_ret true
  else sto_ret false.

(** [keys.forEach(k => localStorage.removeItem(k))] *)
Definition removeItems (keys : list string) : Sto unit :=
  fun st =>
    (Returns tt, fold_left (fun acc k => snd (removeItem k acc)) keys st).

(** [resetStorage(collection = null)]; an empty name is falsy. *)
Definition resetStorage (collection : value string) : Sto unit :=
  match collection with
  | Val c =>
      if String.eqb c "" then removeItems (map snd KEYS)
      else
        key <-- getKey c ;;
        removeItem key
  | Undefined | Null => removeItems (map snd KEYS)
  end.

(* ================================================================== *)
(** ** [src/components/charts/Charts.jsx]

    The three charts of the results page.  Of the element that a chart
    returns the model keeps what the chart computes: the data points and,
    for the first chart, the reference dot.  The markup around them is
    constant. *)

(** [Math.round(x)]: the integer nearest to [x], a tie going upwards. *)
Definition Math_round (x : number) : number :=
  match x with
  | Fin r => Fin (IZR (Int_part (r + / 2)))
  | _ => x
  end.

(** [for (let t = first; t <= last; t += step) { ... }], with the points
    that the body pushes.  [fuel] bounds the number of iterations; the loops
    of the charts end by their test before it runs out. *)
Fixpoint for_loop {A : Type} (fuel : nat) (t last step : number)
  (body : number -> list A) : list A :=
  match fuel with
  | O => []
  | S fuel =>
      if t <= last
      then (body t ++ for_loop fuel (t + step) last step body)%list
      else []
  end.

(** [array[i]] *)
Definition array_get {A : Type} (array : list A) (i : number) : value A :=
  match i with
  | Fin r =>
      if is_integer r && Rle_b 0 r
      then match nth_error array (Z.to_nat (Int_part r)) with
           | Some a => Val a
           | None => Undefined
           end
      else Undefined
  | _ => Undefined
  end.

(** [v?.p] *)
Definition optional_chain {A B : Type} (v : value A) (p : A -> B) : value B :=
  match v with
  | Val a => Val (p a)
  | Undefined | Null => Undefined
  end.

Module ThrustPoint.
Record t : Type := { throttle : number; thrust : number }.
End ThrustPoint.

Module ReferenceDot.
Record t : Type := { x : value number; y : value number }.
End ReferenceDot.

Module ThrustChart.
Record t : Type := {
    data : list ThrustPoint.t;
    hoverDot : option ReferenceDot.t }.
End ThrustChart.

Module PayloadPoint.
Record t : Type := { payload : number; time : number }.
End PayloadPoint.

Module EfficiencyPoint.
Record t : Type := { throttle : number; efficiency : number }.
End EfficiencyPoint.

(** The body of the loop of [ThrustVsThrottle]. *)
Definition thrust_point (ct rho maxRPM propDiameterM t : number)
  : ThrustPoint.t :=
  let rps := (maxRPM * (t / 100)) / 60 in
  let thrust := calcThrust ct rho rps propDiameterM in
  let thrustG := (thrust / GRAVITY) * 1000 in
  {| ThrustPoint.throttle := t; ThrustPoint.thrust := Math_round thrustG |}.

Definition ThrustVsThrottle
  (config : value loc) (results : value SimulationResult.t)
  : Eng (option ThrustChart.t) :=
  match results with
  | Undefined | Null => ret None
  | Val results =>
      let rho := SimulationResult.airDensity results in
      l <- object_of config ;;
      c <- load l ;;
      propeller <- object_of (Config.propeller c) ;;
      let propDiameterM :=
        or_default (Propeller.diameterIn propeller) 10 * 0.0254 in
      let ct := SimulationResult.ct results in
      let maxRPM := SimulationResult.maxRPM results in
      let data :=
        for_loop 22 0 100 5
          (fun t => [thrust_point ct rho maxRPM propDiameterM t]) in
      let hoverIdx :=
        Math_round (SimulationResult.hoverThrottle results / 5) in
      ret (Some
             {| ThrustChart.data := data;
                ThrustChart.hoverDot :=
                  if (hoverIdx >= 0)
                     && (hoverIdx < Fin (INR (List.length data)))
                  then
                    Some {| ReferenceDot.x :=
                              optional_chain (array_get data hoverIdx)
                                             ThrustPoint.throttle;
                            ReferenceDot.y :=
                              optional_chain (array_get data hoverIdx)
                                             ThrustPoint.thrust |}
                  else None |})
  end.

(** The hover time that the loop of [FlightTimeVsPayload] computes for an
    added payload. *)
Definition payload_flight_time
  (results : SimulationResult.t)
  (numMotors maxThrustPerMotorN coaxFactor dischargeDepth payload : number)
  : number :=
  let baseWeightKg := SimulationResult.totalWeightKg results in
  let capacityMah := SimulationResult.totalCapacityMah results in
  let totalKg := baseWeightKg + payload / 1000 in
  let throttle :=
    calcHoverThrottle totalKg numMotors maxThrustPerMotorN coaxFactor / 100 in
  let currentFactor :=
    Math_pow (throttle / (SimulationResult.hoverThrottle results / 100)) 1.5 in
  let totalCurrent :=
    SimulationResult.hoverTotalCurrent results * currentFactor in
  calcFlightTime capacityMah dischargeDepth totalCurrent.

(** The body of the loop of [FlightTimeVsPayload]. *)
Definition payload_points
  (results : SimulationResult.t)
  (numMotors maxThrustPerMotorN coaxFactor dischargeDepth payload : number)
  : list PayloadPoint.t :=
  let ft :=
    payload_flight_time results numMotors maxThrustPerMotorN coaxFactor
                        dischargeDepth payload in
  if (ft > 0) && (ft < 120)
  then [{| PayloadPoint.payload := payload;
           PayloadPoint.time := Math_round (ft * 10) / 10 |}]
  else [].

(** [currentPayload], computed after the loop, is not used. *)
Definition FlightTimeVsPayload
  (config : value loc) (results : value SimulationResult.t)
  : Eng (option (list PayloadPoint.t)) :=
  match results with
  | Undefined | Null => ret None
  | Val results =>
      l <- object_of config ;;
      c <- load l ;;
      frame <- object_of (Config.frame c) ;;
      let numMotors := or_default (Frame.motorCount frame) 4 in
      let maxThrustPerMotorN :=
        (SimulationResult.maxTotalThrustG results / 1000 * GRAVITY)
        / numMotors in
      let coaxFactor : number :=
        if strict_eq_str (Frame.layout frame) "coaxial"
        then Fin 0.85 else Fin 1.0 in
      battery <- object_of (Config.battery c) ;;
      let dischargeDepth :=
        or_default (Battery.dischargeDepth battery) 80 / 100 in
      let data :=
        for_loop 22 0 2000 100
          (payload_points results numMotors maxThrustPerMotorN coaxFactor
                          dischargeDepth) in
      ret (Some data)
  end.

(** The body of the loop of [EfficiencyCurve]. *)
Definition efficiency_point (ct cp rho maxRPM propDiameterM t : number)
  : EfficiencyPoint.t :=
  let rps := (maxRPM * (t / 100)) / 60 in
  let thrust := calcThrust ct rho rps propDiameterM in
  let power := calcPropPower cp rho rps propDiameterM in
  let thrustG := (thrust / GRAVITY) * 1000 in
  let efficiency := if power > 0 then thrustG / power else Fin 0 in
  {| EfficiencyPoint.throttle := t;
     EfficiencyPoint.efficiency := Math_round (efficiency * 100) / 100 |}.

Definition EfficiencyCurve
  (config : value loc) (results : value SimulationResult.t)
  : Eng (option (list EfficiencyPoint.t)) :=
  match results with
  | Undefined | Null => ret None
  | Val results =>
      let rho := SimulationResult.airDensity results in
      l <- object_of config ;;
      c <- load l ;;
      propeller <- object_of (Config.propeller c) ;;
      let propDiameterM :=
        or_default (Propeller.diameterIn propeller) 10 * 0.0254 in
      let ct := SimulationResult.ct results in
      let cp := SimulationResult.cp results in
      let maxRPM := SimulationResult.maxRPM results in
      let data :=
        for_loop 20 10 100 5
          (fun t => [efficiency_point ct cp rho maxRPM propDiameterM t]) in
      ret (Some data)
  end.

(* ================================================================== *)
(** ** [src/components/results/ResultsDashboard.jsx]

    The status that each card passes to its indicator. *)

(** [HoverCard] *)
Definition timeStatus (results : SimulationResult.t) : string :=
  getStatus (SimulationResult.hoverThrottle results) 50 70 false.

(** [ThrustCard] *)
Definition twrStatus (results : SimulationResult.t) : string :=
  getStatus (SimulationResult.twr results) 2.5 2.0 true.

(** [ElectricalCard] *)
Definition currentStatus (results : SimulationResult.t) : string :=
  getStatus (SimulationResult.hoverTotalCurrent results)
            (SimulationResult.maxContinuousCurrent results * 0.7)
            (SimulationResult.maxContinuousCurrent results * 0.9) false.

(** [ThermalCard] *)
Definition tempStatus (results : SimulationResult.t) : string :=
  getStatus (SimulationResult.motorTemp5min results) 80 120 false.

Close Scope js_scope.
Close Scope string_scope.

(* ================================================================== *)
(** ** Vocabulary of the statements *)

(** A section that is absent or an object, never [null]. *)
Definition is_object_or_absent {A : Type} (v : value A) : Prop := v <> Null.

Definition sections_are_objects (c : Config.t) : Prop :=
  is_object_or_absent (Config.environment c) /\
  is_object_or_absent (Config.frame c) /\
  is_object_or_absent (Config.battery c) /\
  is_object_or_absent (Config.esc c) /\
  is_object_or_absent (Config.motor c) /\
  is_object_or_absent (Config.propeller c).

Definition section_or {A : Type} (v : value A) (d : A) : A :=
  match v with
  | Val a => a
  | Undefined | Null => d
  end.

(** The section objects of a configuration none of whose sections is
    [null]. *)
Definition resolve (c : Config.t) : Sections :=
  {| the_environment := section_or (Config.environment c) Environment.empty;
     the_frame := section_or (Config.frame c) Frame.empty;
     the_battery := section_or (Config.battery c) Battery.empty;
     the_esc := section_or (Config.esc c) Esc.empty;
     the_motor := section_or (Config.motor c) Motor.empty;
     the_propeller := section_or (Config.propeller c) Propeller.empty |}.

(** A configuration one of whose sections is [null]. *)
Definition has_null_section (c : Config.t) : Prop :=
  Config.environment c = Null \/ Config.frame c = Null \/
  Config.battery c = Null \/ Config.esc c = Null \/
  Config.motor c = Null \/ Config.propeller c = Null.

(** The sections of the configuration [{ frame: { frameWeight: g } }]. *)
Definition with_frame_weight (g : R) : Sections :=
  {| the_environment := Environment.empty;
     the_frame :=
       {| Frame.motorCount := Undefined; Frame.layout := Undefined;
          Frame.frameWeight := Val (Fin g);
          Frame.payloadWeight := Undefined;
          Frame.payloadCurrent := Undefined;
          Frame.wheelbaseMm := Undefined |};
     the_battery := Battery.empty;
     the_esc := Esc.empty;
     the_motor := Motor.empty;
     the_propeller := Propeller.empty |}.

(** The store after [localStorage.setItem(key, JSON.stringify(data))]. *)
Definition saved (st : Store) (key : string) (data : list Component.t)
  : Store :=
  {| localStorage := set_property (localStorage st) key (JSON_stringify data);
     DEFAULTS := DEFAULTS st |}.

(** A component whose [id], when it is a number, is NaN or an integer
    below 2^53 in magnitude (a safe integer). *)
Definition safe_id (i : Component.t) : Prop :=
  forall x : number,
    Component.id i = Val x ->
    x = NaN \/ exists z : Z, x = Fin (IZR z) /\ (Z.abs z < 2 ^ 53)%Z.

(** The component that [addComponent] makes of [item]. *)
Definition with_id (n : number) (item : Component.t) : Component.t :=
  {| Component.id := Val n; Component.fields := Component.fields item |}.

(** A computation that leaves every heap as it found it. *)
Definition read_only {A : Type} (m : Eng A) : Prop :=
  forall h : Heap, snd (m h) = h.



(* ================================================================== *)
(** * Properties *)

(** ** Arithmetic on finite numbers *)

Lemma Rlt_b_true (a b : R) : a < b -> Rlt_b a b = true.
Proof. intros H. unfold Rlt_b. destruct (Rlt_dec a b); [reflexivity | contradiction]. Qed.

Lemma Rlt_b_false (a b : R) : b <= a -> Rlt_b a b = false.
Proof. intros H. unfold Rlt_b. destruct (Rlt_dec a b); [lra | reflexivity]. Qed.

Lemma Rle_b_true (a b : R) : a <= b -> Rle_b a b = true.
Proof. intros H. unfold Rle_b. destruct (Rle_dec a b); [reflexivity | contradiction]. Qed.

Lemma Rle_b_false (a b : R) : b < a -> Rle_b a b = false.
Proof. intros H. unfold Rle_b. destruct (Rle_dec a b); [lra | reflexivity]. Qed.

Lemma Req_b_true (a b : R) : a = b -> Req_b a b = true.
Proof. intros H. unfold Req_b. destruct (Req_dec_T a b); [reflexivity | contradiction]. Qed.

Lemma Req_b_false (a b : R) : a <> b -> Req_b a b = false.
Proof. intros H. unfold Req_b. destruct (Req_dec_T a b); [contradiction | reflexivity]. Qed.

Lemma Rlt_b_iff (a b : R) : Rlt_b a b = true <-> a < b.
Proof. unfold Rlt_b. destruct (Rlt_dec a b); split; intros; try easy. Qed.

Lemma Rle_b_iff (a b : R) : Rle_b a b = true <-> a <= b.
Proof. unfold Rle_b. destruct (Rle_dec a b); split; intros; try easy. Qed.

Lemma Req_b_iff (a b : R) : Req_b a b = true <-> a = b.
Proof. unfold Req_b. destruct (Req_dec_T a b); split; intros; try easy. Qed.

(** Decide every comparison of reals that occurs in the goal, closing the
    impossible branches by linear arithmetic. *)
Ltac rdec :=
  unfold Rsgn, Rlt_b, Rle_b, Req_b in *;
  repeat match goal with
    | |- context [Rlt_dec ?a ?b] => destruct (Rlt_dec a b); try lra
    | |- context [Rle_dec ?a ?b] => destruct (Rle_dec a b); try lra
    | |- context [Req_dec_T ?a ?b] => destruct (Req_dec_T a b); try lra
    end.

Lemma add_Fin (a b : R) : (Fin a + Fin b)%js = Fin (a + b).
Proof. reflexivity. Qed.

Lemma sub_Fin (a b : R) : (Fin a - Fin b)%js = Fin (a - b).
Proof. reflexivity. Qed.

Lemma mul_Fin (a b : R) : (Fin a * Fin b)%js = Fin (a * b).
Proof. reflexivity. Qed.

Lemma div_Fin (a b : R) : b <> 0 -> (Fin a / Fin b)%js = Fin (a / b).
Proof. intros H. unfold div. rewrite (Req_b_false _ _ H). reflexivity. Qed.

Lemma lt_Fin (a b : R) : (Fin a < Fin b)%js = Rlt_b a b.
Proof. reflexivity. Qed.

Lemma le_Fin (a b : R) : (Fin a <= Fin b)%js = Rle_b a b.
Proof. reflexivity. Qed.

Lemma Math_max_Fin (a b : R) : Math_max (Fin a) (Fin b) = Fin (Rmax a b).
Proof.
  unfold Math_max, lt, Rmax. rdec; reflexivity || (f_equal; lra).
Qed.

Lemma Math_min_Fin (a b : R) : Math_min (Fin a) (Fin b) = Fin (Rmin a b).
Proof.
  unfold Math_min, lt, Rmin. rdec; reflexivity || (f_equal; lra).
Qed.

Lemma Math_sqrt_Fin (a : R) : 0 <= a -> Math_sqrt (Fin a) = Fin (sqrt a).
Proof. intros H. unfold Math_sqrt. rewrite Rlt_b_false by lra. reflexivity. Qed.

Lemma le_zero_cases (x : number) :
  (x <= Fin 0)%js = true -> x = NInf \/ exists r, x = Fin r /\ r <= 0.
Proof.
  destruct x as [| | |r]; simpl; try discriminate; auto.
  intros H. right. exists r. split; [reflexivity | now apply Rle_b_iff].
Qed.


Lemma lt_zero_not_le (x : number) :
  (Fin 0 < x)%js = true -> (x <= Fin 0)%js = false.
Proof.
  destruct x as [| | |r]; simpl; try discriminate; try reflexivity.
  intros H. apply Rlt_b_iff in H. now apply Rle_b_false.
Qed.

(* ================================================================== *)
(** ** Flight time *)

(** C6. [calcFlightTime] returns Infinity for every current that is at most
    0; for every positive current it returns
    (capacityMah * dischargePercent) / (totalCurrentA * 1000) * 60, which
    on finite arguments is that real number; and
    [calcFlightTime(5000, 0.8, 20)] is within 1 of 12. *)
Theorem calcFlightTime_spec :
  (forall cap dod cur : number,
      (cur <= Fin 0)%js = true -> calcFlightTime cap dod cur = PInf) /\
  (forall cap dod cur : number,
      (Fin 0 < cur)%js = true ->
      calcFlightTime cap dod cur
      = (cap * dod / (cur * Fin 1000) * Fin 60)%js) /\
  (forall cap dod cur : R,
      0 < cur ->
      calcFlightTime (Fin cap) (Fin dod) (Fin cur)
      = Fin (cap * dod / (cur * 1000) * 60)) /\
  (exists t : R,
      calcFlightTime (Fin 5000) (Fin 0.8) (Fin 20) = Fin t /\
      Rabs (t - 12) <= 1).
Proof.
  assert (Hpos : forall cap dod cur : R,
             0 < cur ->
             calcFlightTime (Fin cap) (Fin dod) (Fin cur)
             = Fin (cap * dod / (cur * 1000) * 60)).
  { intros cap dod cur Hcur. unfold calcFlightTime.
    rewrite le_Fin, Rle_b_false by lra.
    rewrite !mul_Fin, div_Fin by lra. reflexivity. }
  repeat split.
  - intros cap dod cur H. unfold calcFlightTime. now rewrite H.
  - intros cap dod cur H. unfold calcFlightTime.
    now rewrite (lt_zero_not_le _ H).
  - exact Hpos.
  - eexists. split; [apply Hpos; lra |].
    replace (5000 * 0.8 / (20 * 1000) * 60 - 12) with 0 by lra.
    rewrite Rabs_R0. lra.
Qed.

Lemma calcFlightTime_spec_witness :
  calcFlightTime (Fin 5000) (Fin 0.8) (Fin 0) = PInf /\
  calcFlightTime (Fin 5000) (Fin 0.8) PInf
  = (Fin 5000 * Fin 0.8 / (PInf * Fin 1000) * Fin 60)%js /\
  calcFlightTime (Fin 5000) (Fin 0.8) (Fin 20)
  = Fin (5000 * 0.8 / (20 * 1000) * 60).
Proof.
  destruct calcFlightTime_spec as (Hinf & Hgen & Hfin & _).
  split; [| split].
  - apply Hinf. simpl. apply Rle_b_true. lra.
  - apply Hgen. reflexivity.
  - apply Hfin. lra.
Defined.

(* ================================================================== *)
(** ** Battery voltage under load *)

Lemma chemistry_min_lt_nominal (chemistry : string) :
  inherited chemistry = false ->
  exists cmin cnom : R,
    min (chemistry_or_LiPo chemistry) = Fin cmin /\
    nominal (chemistry_or_LiPo chemistry) = Fin cnom /\
    0 < cmin < cnom.
Proof.
  intros Hown. unfold chemistry_or_LiPo, CHEMISTRY, lookup_str.
  rewrite Hown.
  destruct (String.eqb chemistry "LiPo");
    [| destruct (String.eqb chemistry "Li-ion");
       [| destruct (String.eqb chemistry "LiHV")]];
    simpl; eexists; eexists; (split; [reflexivity | split; [reflexivity | lra]]).
Qed.

(** The battery model off the names inherited from [Object.prototype].
    With [chem] the table entry of the chemistry (LiPo when the chemistry is
    neither a key of the table nor such a name),
    [calcBatteryVoltageUnderLoad] returns
    sagVolts = currentA * (internalResistanceMohm / 1000 * cells) and
    voltage = max(chem.min * cells, chem.nominal * cells - sagVolts); on
    finite arguments sagVolts is the real product
    currentA * (internalResistanceMohm / 1000) * cells, the voltage is never
    below chem.min * cells, and at currentA = 0 sagVolts is 0 and, for a
    cell count that is not negative, voltage is chem.nominal * cells. *)
Lemma calcBatteryVoltageUnderLoad_spec (chemistry : string) :
  inherited chemistry = false ->
  (forall cells currentA capacityMah cRating ir : number,
      calcBatteryVoltageUnderLoad cells chemistry currentA capacityMah cRating ir
      = {| voltage :=
             Math_max (min (chemistry_or_LiPo chemistry) * cells)%js
                      (nominal (chemistry_or_LiPo chemistry) * cells
                       - currentA * (ir / Fin 1000 * cells))%js;
           sagVolts := (currentA * (ir / Fin 1000 * cells))%js |}) /\
  (exists cmin cnom : R,
      min (chemistry_or_LiPo chemistry) = Fin cmin /\
      nominal (chemistry_or_LiPo chemistry) = Fin cnom /\
      forall (cells currentA ir : R) (capacityMah cRating : number),
        let b := calcBatteryVoltageUnderLoad
                   (Fin cells) chemistry (Fin currentA) capacityMah cRating
                   (Fin ir) in
        sagVolts b = Fin (currentA * (ir / 1000) * cells) /\
        voltage b
        = Fin (Rmax (cmin * cells)
                    (cnom * cells - currentA * (ir / 1000) * cells)) /\
        (Fin (cmin * cells) <= voltage b)%js = true /\
        (currentA = 0 -> sagVolts b = Fin 0) /\
        (currentA = 0 -> 0 <= cells -> voltage b = Fin (cnom * cells))).
Proof.
  intros Hown. split; [reflexivity |].
  destruct (chemistry_min_lt_nominal chemistry Hown)
    as (cmin & cnom & Hmin & Hnom & Hlt).
  exists cmin, cnom. split; [exact Hmin | split; [exact Hnom |]].
  intros cells currentA ir capacityMah cRating b.
  assert (Hsag : sagVolts b = Fin (currentA * (ir / 1000) * cells)).
  { subst b. unfold calcBatteryVoltageUnderLoad. cbn [sagVolts].
    rewrite div_Fin by lra. rewrite !mul_Fin. f_equal. lra. }
  assert (Hvol : voltage b
                 = Fin (Rmax (cmin * cells)
                             (cnom * cells - currentA * (ir / 1000) * cells))).
  { subst b. unfold calcBatteryVoltageUnderLoad. cbn [voltage].
    rewrite Hmin, Hnom. rewrite div_Fin by lra.
    rewrite !mul_Fin, sub_Fin, Math_max_Fin. do 2 f_equal. lra. }
  repeat split.
  - exact Hsag.
  - exact Hvol.
  - rewrite Hvol. simpl. apply Rle_b_true. apply Rmax_l.
  - intros ->. rewrite Hsag. f_equal. lra.
  - intros -> Hcells. rewrite Hvol. f_equal.
    rewrite Rmax_right; [lra | nra].
Qed.

Lemma calcBatteryVoltageUnderLoad_spec_witness :
  let b := calcBatteryVoltageUnderLoad
             (Fin 4) "LiPo" (Fin 0) (Fin 5000) (Fin 20) (Fin 5) in
  sagVolts b = Fin 0 /\ voltage b = Fin (3.7 * 4).
Proof.
  destruct (calcBatteryVoltageUnderLoad_spec "LiPo" eq_refl)
    as (_ & cmin & cnom & Hmin & Hnom & H).
  specialize (H 4 0 5 (Fin 5000) (Fin 20)).
  destruct H as (_ & _ & _ & Hsag & Hvol).
  injection Hnom as <-.
  split.
  - apply Hsag. reflexivity.
  - apply Hvol; [reflexivity | lra].
Defined.

(* ================================================================== *)
(** ** Hover throttle *)

Lemma calcHoverThrottle_Fin (W n maxT c : R) :
  0 < maxT -> n * c <> 0 -> 0 <= W * 9.80665 / (n * c) ->
  calcHoverThrottle (Fin W) (Fin n) (Fin maxT) (Fin c)
  = Fin (Rmin 100 (Rmax 0 (100 * sqrt (W * 9.80665 / (n * c) / maxT)))).
Proof.
  intros HmaxT Hnc Hreq. unfold calcHoverThrottle, GRAVITY.
  rewrite le_Fin, Rle_b_false by lra.
  rewrite !mul_Fin, !div_Fin by lra.
  rewrite Math_sqrt_Fin.
  - rewrite mul_Fin, Math_max_Fin, Math_min_Fin. do 3 f_equal. lra.
  - apply Rmult_le_pos; [assumption |].
    left. now apply Rinv_0_lt_compat.
Qed.

(** C4. [calcHoverThrottle] returns 100 whenever maxThrustPerMotorN is at
    most 0; otherwise it returns
    100 * sqrt((totalWeightKg * 9.80665 / (numMotors * coaxialFactor))
               / maxThrustPerMotorN)
    clamped by [Math.min(100, Math.max(0, _))].  On finite arguments with a
    positive maximal thrust and a non-negative required thrust per motor this
    is the real number min(100, max(0, 100 * sqrt(..))), which lies in
    [0, 100]. *)
Theorem calcHoverThrottle_spec :
  (forall W n maxT c : number,
      (maxT <= Fin 0)%js = true -> calcHoverThrottle W n maxT c = Fin 100) /\
  (forall W n maxT c : number,
      (maxT <= Fin 0)%js = false ->
      calcHoverThrottle W n maxT c
      = Math_min (Fin 100)
          (Math_max (Fin 0)
             (Math_sqrt ((W * Fin 9.80665 / (n * c)) / maxT) * Fin 100)%js)) /\
  (forall W n maxT c : R,
      0 < maxT -> n * c <> 0 -> 0 <= W * 9.80665 / (n * c) ->
      let t := Rmin 100 (Rmax 0 (100 * sqrt (W * 9.80665 / (n * c) / maxT))) in
      calcHoverThrottle (Fin W) (Fin n) (Fin maxT) (Fin c) = Fin t /\
      0 <= t <= 100).
Proof.
  repeat split.
  - intros W n maxT c H. unfold calcHoverThrottle. now rewrite H.
  - intros W n maxT c H. unfold calcHoverThrottle. now rewrite H.
  - now apply calcHoverThrottle_Fin.
  - apply Rmin_glb; [lra | apply Rmax_l].
  - apply Rmin_l.
Qed.

Lemma calcHoverThrottle_spec_witness :
  calcHoverThrottle (Fin 1.5) (Fin 4) (Fin 0) (Fin 1) = Fin 100 /\
  calcHoverThrottle (Fin 1.5) (Fin 4) NaN (Fin 1)
  = Math_min (Fin 100)
      (Math_max (Fin 0)
         (Math_sqrt ((Fin 1.5 * Fin 9.80665 / (Fin 4 * Fin 1)) / NaN)
          * Fin 100)%js) /\
  calcHoverThrottle (Fin 1.5) (Fin 4) (Fin 10) (Fin 1)
  = Fin (Rmin 100 (Rmax 0 (100 * sqrt (1.5 * 9.80665 / (4 * 1) / 10)))).
Proof.
  destruct calcHoverThrottle_spec as (Hzero & Hgen & Hfin).
  split; [| split].
  - apply Hzero. simpl. apply Rle_b_true. lra.
  - apply Hgen. reflexivity.
  - apply (Hfin 1.5 4 10 1); lra.
Defined.

(* ================================================================== *)
(** ** Propeller coefficients *)

Lemma estimatePropCoefficients_Fin (d p : R) (three : bool) :
  d <> 0 ->
  estimatePropCoefficients (Fin d) (Fin p) (Fin (if three then 3 else 2))
  = {| coeff_ct :=
         Fin (Rmax 0.04
                (Rmin 0.22 (if three then (0.075 + 0.045 * (p / d)) * 1.15
                            else 0.075 + 0.045 * (p / d))));
       coeff_cp :=
         Fin (Rmax 0.015
                (Rmin 0.12 (if three then (0.025 + 0.035 * (p / d)) * 1.25
                            else 0.025 + 0.035 * (p / d)))) |}.
Proof.
  intros Hd. unfold estimatePropCoefficients.
  rewrite div_Fin by assumption.
  destruct three; cbn [strict_eq].
  - rewrite Req_b_true by reflexivity.
    now rewrite !mul_Fin, !add_Fin, !mul_Fin, !Math_min_Fin, !Math_max_Fin.
  - rewrite Req_b_false by lra.
    now rewrite !mul_Fin, !add_Fin, !Math_min_Fin, !Math_max_Fin.
Qed.

(** C5, as stated, fails: for a 1 x 4 propeller both blade counts give
    ct = 0.22 and cp = 0.12, the upper clamps, so neither three-blade
    coefficient is strictly greater. *)
Lemma estimatePropCoefficients_blades_counterexample :
  let two := estimatePropCoefficients (Fin 1) (Fin 4) (Fin 2) in
  let three := estimatePropCoefficients (Fin 1) (Fin 4) (Fin 3) in
  coeff_ct two = Fin 0.22 /\ coeff_ct three = Fin 0.22 /\
  coeff_cp two = Fin 0.12 /\ coeff_cp three = Fin 0.12 /\
  (coeff_ct two < coeff_ct three)%js = false /\
  (coeff_cp two < coeff_cp three)%js = false.
Proof.
  cbv zeta.
  rewrite (estimatePropCoefficients_Fin 1 4 false) by lra.
  rewrite (estimatePropCoefficients_Fin 1 4 true) by lra.
  cbn [coeff_ct coeff_cp].
  assert (E1 : Rmax 0.04 (Rmin 0.22 (0.075 + 0.045 * (4 / 1))) = 0.22).
  { rewrite Rmin_left by lra. apply Rmax_right. lra. }
  assert (E2 : Rmax 0.04 (Rmin 0.22 ((0.075 + 0.045 * (4 / 1)) * 1.15)) = 0.22).
  { rewrite Rmin_left by lra. apply Rmax_right. lra. }
  assert (E3 : Rmax 0.015 (Rmin 0.12 (0.025 + 0.035 * (4 / 1))) = 0.12).
  { rewrite Rmin_left by lra. apply Rmax_right. lra. }
  assert (E4 : Rmax 0.015 (Rmin 0.12 ((0.025 + 0.035 * (4 / 1)) * 1.25)) = 0.12).
  { rewrite Rmin_left by lra. apply Rmax_right. lra. }
  rewrite E1, E2, E3, E4.
  repeat split; cbn [lt]; apply Rlt_b_false; lra.
Qed.

(** C5, amended.  For every diameterIn > 0 and pitchIn the three-blade ct
    and cp are at least the two-blade ones, and both are strictly greater
    exactly when -13/35 < pitchIn / diameterIn < 19/7, the pitch ratios at
    which neither clamp absorbs the multiplier. *)
Theorem estimatePropCoefficients_blades (d p : R) :
  0 < d ->
  exists ct2 cp2 ct3 cp3 : R,
    estimatePropCoefficients (Fin d) (Fin p) (Fin 2)
    = {| coeff_ct := Fin ct2; coeff_cp := Fin cp2 |} /\
    estimatePropCoefficients (Fin d) (Fin p) (Fin 3)
    = {| coeff_ct := Fin ct3; coeff_cp := Fin cp3 |} /\
    ct2 <= ct3 /\ cp2 <= cp3 /\
    ((ct2 < ct3 /\ cp2 < cp3) <-> - (13 / 35) < p / d < 19 / 7).
Proof.
  intros Hd.
  rewrite (estimatePropCoefficients_Fin d p false) by lra.
  rewrite (estimatePropCoefficients_Fin d p true) by lra.
  do 4 eexists. split; [reflexivity | split; [reflexivity |]].
  generalize (p / d). intros r.
  unfold Rmin.
  repeat match goal with
    | |- context [Rle_dec ?a ?b] => destruct (Rle_dec a b)
    end;
    unfold Rmax;
    repeat match goal with
      | |- context [Rle_dec ?a ?b] => destruct (Rle_dec a b)
      end;
    (split; [lra | split; [lra | split; intros; lra]]).
Qed.

Lemma estimatePropCoefficients_blades_witness :
  exists ct2 cp2 ct3 cp3 : R,
    estimatePropCoefficients (Fin 5) (Fin 4) (Fin 2)
    = {| coeff_ct := Fin ct2; coeff_cp := Fin cp2 |} /\
    estimatePropCoefficients (Fin 5) (Fin 4) (Fin 3)
    = {| coeff_ct := Fin ct3; coeff_cp := Fin cp3 |} /\
    ct2 < ct3 /\ cp2 < cp3.
Proof.
  destruct (estimatePropCoefficients_blades 5 4) as
    (ct2 & cp2 & ct3 & cp3 & H2 & H3 & _ & _ & Hiff); [lra |].
  exists ct2, cp2, ct3, cp3.
  split; [exact H2 | split; [exact H3 |]].
  apply Hiff. lra.
Defined.

(* ================================================================== *)
(** ** Air density *)

Lemma Rpower_one (e : R) : Rpower 1 e = 1.
Proof. unfold Rpower. rewrite ln_1, Rmult_0_r. apply exp_0. Qed.

Lemma Rpower_unit_interval (b e : R) :
  0 < b <= 1 -> 0 <= e -> 0 < Rpower b e <= 1.
Proof.
  intros Hb He. split.
  - unfold Rpower. apply exp_pos.
  - rewrite <- (Rpower_one e). apply Rle_Rpower_l; [assumption | lra].
Qed.

Lemma clamp_altitude_range (a : R) : 0 <= Rmax 0 (Rmin a 11000) <= 11000.
Proof.
  split; [apply Rmax_l |].
  apply Rmax_lub; [lra | apply Rmin_r].
Qed.

Lemma Math_pow_Fin_pos (b e : R) :
  0 < b -> e <> 0 -> Math_pow (Fin b) (Fin e) = Fin (Rpower b e).
Proof.
  intros Hb He. unfold Math_pow.
  rewrite (Req_b_false e 0) by assumption.
  rewrite (Req_b_false b 0) by lra.
  now rewrite Rlt_b_true by assumption.
Qed.

(** The density on finite arguments, away from absolute zero: the
    barometric pressure at the clamped altitude over 287.058 * (tempC +
    273.15), the temperature being the one supplied. *)
Lemma calcAirDensity_Fin (a t : R) :
  t + 273.15 <> 0 ->
  calcAirDensity (Fin a) (Fin t)
  = Fin (101325
         * Rpower (1 - 0.0065 * Rmax 0 (Rmin a 11000) / 288.15)
                  (9.80665 * 0.0289644 / (8.31447 * 0.0065))
         / (287.058 * (t + 273.15))).
Proof.
  intros Ht. unfold calcAirDensity.
  unfold SEA_LEVEL_PRESSURE, SEA_LEVEL_TEMP, LAPSE_RATE, AIR_GAS_CONSTANT,
    GRAVITY, MOLAR_MASS_AIR, UNIVERSAL_GAS_CONSTANT.
  rewrite Math_min_Fin, Math_max_Fin.
  pose proof (clamp_altitude_range a) as Hh.
  set (h := Rmax 0 (Rmin a 11000)) in *.
  rewrite !mul_Fin, !add_Fin.
  rewrite (div_Fin (0.0065 * h)) by lra.
  rewrite (div_Fin (9.80665 * 0.0289644)) by lra.
  rewrite sub_Fin.
  rewrite Math_pow_Fin_pos by lra.
  rewrite !mul_Fin. rewrite div_Fin; [reflexivity |].
  intros H. apply Ht. lra.
Qed.

(** C2. For every altitude in [0, 11000] and every tempC in [-20, 50],
    [calcAirDensity] returns a finite number strictly between 0 and 1.5,
    namely the barometric pressure at the (clamped) altitude divided by
    287.058 * (tempC + 273.15), with the temperature as supplied; and
    [calcAirDensity(0, 15)] is within 0.01 of 1.225. *)
Theorem calcAirDensity_spec :
  (forall a t : R,
      0 <= a <= 11000 -> -20 <= t <= 50 ->
      exists rho : R,
        calcAirDensity (Fin a) (Fin t) = Fin rho /\
        0 < rho < 1.5 /\
        Rmax 0 (Rmin a 11000) = a /\
        rho = 101325
              * Rpower (1 - 0.0065 * a / 288.15)
                       (9.80665 * 0.0289644 / (8.31447 * 0.0065))
              / (287.058 * (t + 273.15))) /\
  (exists rho0 : R,
      calcAirDensity (Fin 0) (Fin 15) = Fin rho0 /\
      Rabs (rho0 - 1.225) <= 0.01).
Proof.
  assert (Hclamp : forall a, 0 <= a <= 11000 -> Rmax 0 (Rmin a 11000) = a).
  { intros a Ha. rewrite Rmin_left by lra. apply Rmax_right. lra. }
  split.
  - intros a t Ha Ht. eexists. split; [apply calcAirDensity_Fin; lra |].
    rewrite (Hclamp a Ha).
    split; [| split; reflexivity].
    set (e := 9.80665 * 0.0289644 / (8.31447 * 0.0065)).
    assert (He : 0 <= e) by (unfold e; lra).
    destruct (Rpower_unit_interval (1 - 0.0065 * a / 288.15) e) as [Hw0 Hw1];
      [lra | assumption |].
    set (w := Rpower (1 - 0.0065 * a / 288.15) e) in *.
    assert (HD : 0 < 287.058 * (t + 273.15)) by lra.
    split.
    + apply Rdiv_lt_0_compat; [lra | assumption].
    + apply Rmult_lt_reg_r with (287.058 * (t + 273.15)); [assumption |].
      unfold Rdiv. rewrite Rmult_assoc, Rinv_l by lra. lra.
  - eexists. split; [apply calcAirDensity_Fin; lra |].
    rewrite (Hclamp 0) by lra.
    replace (1 - 0.0065 * 0 / 288.15) with 1 by lra.
    rewrite Rpower_one.
    apply Rabs_le. lra.
Qed.

Lemma calcAirDensity_spec_witness :
  exists rho : R,
    calcAirDensity (Fin 1600) (Fin 15) = Fin rho /\ 0 < rho < 1.5.
Proof.
  destruct calcAirDensity_spec as [H _].
  destruct (H 1600 15) as (rho & Hrho & Hbound & _); [lra | lra |].
  exists rho. split; assumption.
Defined.

(* ================================================================== *)
(** ** The call of [runFullSimulation] *)

Lemma destructure_ok (c : Config.t) (h : Heap) :
  sections_are_objects c -> destructure c h = (Normal (resolve c), h).
Proof.
  destruct c as [e f b c m p].
  unfold sections_are_objects, is_object_or_absent. cbn.
  intros (He & Hf & Hb & Hc & Hm & Hp).
  destruct e, f, b, c, m, p; try contradiction; reflexivity.
Qed.

Lemma destructure_inv (c : Config.t) (h h' : Heap) (s : Sections) :
  destructure c h = (Normal s, h') ->
  h' = h /\ sections_are_objects c /\ s = resolve c.
Proof.
  destruct c as [e f b c m p].
  unfold sections_are_objects, is_object_or_absent.
  destruct e, f, b, c, m, p; cbn; intros H; try discriminate H;
    injection H as <- <-; repeat split; discriminate.
Qed.

Lemma runFullSimulation_ok (l : loc) (h : Heap) :
  sections_are_objects (h l) ->
  runFullSimulation (Val l) h = (Normal (Body.result (resolve (h l))), h).
Proof.
  intros H. unfold runFullSimulation, bind, object_of, ret, load.
  now rewrite (destructure_ok _ _ H).
Qed.

Lemma runFullSimulation_inv
  (config : value loc) (h h' : Heap) (r : SimulationResult.t) :
  runFullSimulation config h = (Normal r, h') ->
  exists l : loc,
    config = Val l /\ h' = h /\ sections_are_objects (h l) /\
    r = Body.result (resolve (h l)).
Proof.
  unfold runFullSimulation, bind, ret, load.
  destruct config as [| |l]; cbn; try discriminate.
  destruct (destructure (h l) h) as [[s|e] h1] eqn:E; [| discriminate].
  intros H. injection H as <- <-.
  apply destructure_inv in E. destruct E as (-> & Hobj & ->).
  exists l. split; [reflexivity | split; [reflexivity | split; [assumption | reflexivity]]].
Qed.

(* ================================================================== *)
(** ** Validations *)


Lemma empty_sections_are_objects : sections_are_objects Config.empty.
Proof. repeat split; discriminate. Qed.


(* ================================================================== *)
(** ** Totality *)

(** C7, amended.  [runFullSimulation] returns a result, without throwing,
    on every configuration object none of whose sections is [null] - in
    particular on every configuration whose supplied fields are finite
    numbers, and on the empty configuration - and the four listed divisions
    are guarded by a sentinel: [calcMotorEfficiency] returns 0 when
    elecPower <= 0, [calcFlightTime] Infinity when the current is <= 0,
    [calcThrustToWeightRatio] and [calcSystemEfficiency] 0 when the
    denominator is <= 0.  Nothing is said of the other divisions. *)
Theorem runFullSimulation_total :
  (forall (h : Heap) (l : loc),
      sections_are_objects (h l) ->
      exists r : SimulationResult.t,
        runFullSimulation (Val l) h = (Normal r, h)) /\
  (forall (h : Heap) (l : loc),
      h l = Config.empty ->
      exists r : SimulationResult.t,
        runFullSimulation (Val l) h = (Normal r, h)) /\
  (forall mechPower elecPower : number,
      (elecPower <= Fin 0)%js = true ->
      calcMotorEfficiency mechPower elecPower = Fin 0) /\
  (forall capacityMah dischargePercent totalCurrentA : number,
      (totalCurrentA <= Fin 0)%js = true ->
      calcFlightTime capacityMah dischargePercent totalCurrentA = PInf) /\
  (forall totalThrustN totalWeightKg : number,
      (totalWeightKg <= Fin 0)%js = true ->
      calcThrustToWeightRatio totalThrustN totalWeightKg = Fin 0) /\
  (forall thrustN powerW : number,
      (powerW <= Fin 0)%js = true ->
      calcSystemEfficiency thrustN powerW = Fin 0).
Proof.
  split; [| split; [| repeat split]].
  - intros h l H. eexists. apply runFullSimulation_ok. exact H.
  - intros h l H. eexists. apply runFullSimulation_ok.
    rewrite H. apply empty_sections_are_objects.
  - intros m e H. unfold calcMotorEfficiency. now rewrite H.
  - intros c d i H. unfold calcFlightTime. now rewrite H.
  - intros t w H. unfold calcThrustToWeightRatio. now rewrite H.
  - intros t p H. unfold calcSystemEfficiency. now rewrite H.
Qed.

Lemma runFullSimulation_total_witness :
  (exists r : SimulationResult.t,
      runFullSimulation (Val 0%nat) (fun _ => Config.empty)
      = (Normal r, fun _ => Config.empty)) /\
  (exists r : SimulationResult.t,
      runFullSimulation (Val 1%nat) (fun _ => Config.empty)
      = (Normal r, fun _ => Config.empty)) /\
  calcMotorEfficiency (Fin 80) (Fin 0) = Fin 0 /\
  calcFlightTime (Fin 5000) (Fin 0.8) (Fin 0) = PInf /\
  calcThrustToWeightRatio (Fin 40) (Fin 0) = Fin 0 /\
  calcSystemEfficiency (Fin 40) (Fin 0) = Fin 0.
Proof.
  destruct runFullSimulation_total
    as (Hrun & Hempty & Heff & Htime & Htwr & Hsys).
  assert (Hzero : (Fin 0 <= Fin 0)%js = true) by (apply Rle_b_true; lra).
  split; [| split; [| split; [| split; [| split]]]].
  - apply (Hrun (fun _ => Config.empty) 0%nat).
    apply empty_sections_are_objects.
  - apply (Hempty (fun _ => Config.empty) 1%nat). reflexivity.
  - apply Heff. exact Hzero.
  - apply Htime. exact Hzero.
  - apply Htwr. exact Hzero.
  - apply Hsys. exact Hzero.
Defined.

(** C7, as stated, fails: not every division by zero is guarded.  For the
    configuration [{ environment: { temperature: -273.15 } }], whose one
    supplied field is a finite number, [calcAirDensity] divides the pressure,
    a positive number, by 287.058 * (-273.15 + 273.15) = 0: no sentinel is
    returned, the quotient is +Infinity, and the call returns it as the air
    density of the result. *)
Lemma runFullSimulation_total_counterexample :
  let environment :=
    {| Environment.altitude := Undefined;
       Environment.temperature := Val (Fin (-273.15)) |} in
  let c :=
    {| Config.environment := Val environment; Config.frame := Undefined;
       Config.battery := Undefined; Config.esc := Undefined;
       Config.motor := Undefined; Config.propeller := Undefined |} in
  let h : Heap := fun _ => c in
  (AIR_GAS_CONSTANT * (Fin (-273.15) + Fin 273.15))%js = Fin 0 /\
  (exists P : R,
      0 < P /\
      calcAirDensity (Fin 0) (Fin (-273.15))
      = (Fin P / (AIR_GAS_CONSTANT * (Fin (-273.15) + Fin 273.15)))%js) /\
  calcAirDensity (Fin 0) (Fin (-273.15)) = PInf /\
  exists r : SimulationResult.t,
    runFullSimulation (Val 0%nat) h = (Normal r, h) /\
    SimulationResult.airDensity r = PInf.
Proof.
  intros environment c h.
  assert (Hzero : (AIR_GAS_CONSTANT * (Fin (-273.15) + Fin 273.15))%js
                  = Fin 0).
  { unfold AIR_GAS_CONSTANT. rewrite add_Fin, mul_Fin. f_equal. lra. }
  assert (He : 0 <= 9.80665 * 0.0289644 / (8.31447 * 0.0065)) by lra.
  pose proof (clamp_altitude_range 0) as Hh.
  set (P := 101325
            * Rpower (1 - 0.0065 * Rmax 0 (Rmin 0 11000) / 288.15)
                     (9.80665 * 0.0289644 / (8.31447 * 0.0065))).
  assert (HP : 0 < P).
  { unfold P. apply Rmult_lt_0_compat; [lra |].
    apply Rpower_unit_interval; [lra | exact He]. }
  assert (Hquot : calcAirDensity (Fin 0) (Fin (-273.15))
                  = (Fin P
                     / (AIR_GAS_CONSTANT * (Fin (-273.15) + Fin 273.15)))%js).
  { unfold calcAirDensity.
    unfold SEA_LEVEL_PRESSURE, SEA_LEVEL_TEMP, LAPSE_RATE, AIR_GAS_CONSTANT,
      GRAVITY, MOLAR_MASS_AIR, UNIVERSAL_GAS_CONSTANT.
    rewrite Math_min_Fin, Math_max_Fin.
    rewrite (mul_Fin 0.0065), (div_Fin (0.0065 * _)) by lra.
    rewrite (mul_Fin 9.80665), (mul_Fin 8.31447), (div_Fin (9.80665 * _))
      by lra.
    rewrite sub_Fin, Math_pow_Fin_pos by lra.
    rewrite (mul_Fin 101325). reflexivity. }
  assert (Hinf : calcAirDensity (Fin 0) (Fin (-273.15)) = PInf).
  { rewrite Hquot, Hzero. unfold div.
    rewrite Req_b_true by reflexivity.
    unfold Rsgn. rewrite Rlt_b_false by lra. now rewrite Rlt_b_true by lra. }
  split; [exact Hzero |]. split; [exists P; split; [exact HP | exact Hquot] |].
  split; [exact Hinf |].
  eexists. split.
  - apply runFullSimulation_ok.
    unfold sections_are_objects, is_object_or_absent. cbn.
    repeat split; discriminate.
  - cbn [SimulationResult.airDensity Body.result]. exact Hinf.
Qed.

(* ================================================================== *)
(** ** A chemistry name inherited from the prototype *)

(** C3. The fallback [CHEMISTRY[chemistry] || CHEMISTRY.LiPo] misses the
    chemistry names that every object inherits from [Object.prototype].
    For the chemistry "constructor", 4 cells and no current the read gives
    the function [Object], whose [nominal] and [min] are [undefined]: the
    voltage is NaN, neither the 3.7 * 4 = 14.8 of the LiPo fallback nor a
    value that is at least 3.3 * 4, while sagVolts is 0.  An unknown
    chemistry that is no such name, as "NiMH", does fall back to LiPo.  The
    input reaches the function through the configuration
    [{ battery: { chemistry: "constructor" } }], on which
    [runFullSimulation] returns a result whose nominal voltage is NaN. *)
Theorem calcBatteryVoltageUnderLoad_inherited_chemistry :
  let b := calcBatteryVoltageUnderLoad
             (Fin 4) "constructor" (Fin 0) (Fin 5000) (Fin 20) (Fin 5) in
  let u := calcBatteryVoltageUnderLoad
             (Fin 4) "NiMH" (Fin 0) (Fin 5000) (Fin 20) (Fin 5) in
  let battery :=
    {| Battery.chemistry := Val "constructor"%string;
       Battery.cellsS := Undefined; Battery.cellsP := Undefined;
       Battery.capacityMah := Undefined; Battery.cRating := Undefined;
       Battery.burstC := Undefined;
       Battery.internalResistanceMohm := Undefined;
       Battery.weightG := Undefined; Battery.dischargeDepth := Undefined |} in
  let c :=
    {| Config.environment := Undefined; Config.frame := Undefined;
       Config.battery := Val battery; Config.esc := Undefined;
       Config.motor := Undefined; Config.propeller := Undefined |} in
  let h : Heap := fun _ => c in
  chemistry_or_LiPo "constructor" <> CHEMISTRY_LiPo /\
  voltage b = NaN /\
  (Fin (3.3 * 4) <= voltage b)%js = false /\
  sagVolts b = Fin 0 /\
  voltage u = Fin (3.7 * 4) /\
  exists r : SimulationResult.t,
    runFullSimulation (Val 0%nat) h = (Normal r, h) /\
    SimulationResult.nominalVoltage r = NaN.
Proof.
  cbv zeta. split; [discriminate |].
  split; [reflexivity |]. split; [reflexivity |]. split; [| split].
  - unfold calcBatteryVoltageUnderLoad. cbn [sagVolts].
    rewrite div_Fin by lra. rewrite !mul_Fin. f_equal. lra.
  - destruct (calcBatteryVoltageUnderLoad_spec "NiMH" eq_refl)
      as (_ & cmin & cnom & Hmin & Hnom & H).
    specialize (H 4 0 5 (Fin 5000) (Fin 20)).
    destruct H as (_ & _ & _ & _ & Hvol).
    injection Hnom as <-. apply Hvol; [reflexivity | lra].
  - eexists. split.
    + apply runFullSimulation_ok.
      unfold sections_are_objects, is_object_or_absent. cbn.
      repeat split; discriminate.
    + reflexivity.
Qed.

(* ================================================================== *)
(** ** Determinism and absence of side effects *)

Lemma read_only_ret {A : Type} (a : A) : read_only (ret a).
Proof. intros h. reflexivity. Qed.

Lemma read_only_throw {A : Type} (e : error) : read_only (@throw A e).
Proof. intros h. reflexivity. Qed.

Lemma read_only_load (l : loc) : read_only (load l).
Proof. intros h. reflexivity. Qed.

Lemma read_only_object_of {A : Type} (v : value A) : read_only (object_of v).
Proof. destruct v; [apply read_only_throw .. | apply read_only_ret]. Qed.

Lemma read_only_bind {A B : Type} (m : Eng A) (k : A -> Eng B) :
  read_only m -> (forall a, read_only (k a)) -> read_only (bind m k).
Proof.
  intros Hm Hk h. unfold bind. specialize (Hm h).
  destruct (m h) as [[a|e] h1]; cbn in Hm; subst h1; [apply Hk | reflexivity].
Qed.

Lemma read_only_destructure (c : Config.t) : read_only (destructure c).
Proof.
  unfold destructure.
  repeat (apply read_only_bind; [apply read_only_object_of | intros ?]).
  apply read_only_ret.
Qed.

Lemma read_only_runFullSimulation (config : value loc) :
  read_only (runFullSimulation config).
Proof.
  unfold runFullSimulation.
  apply read_only_bind; [apply read_only_object_of | intros l].
  apply read_only_bind; [apply read_only_load | intros c].
  apply read_only_bind; [apply read_only_destructure | intros s].
  apply read_only_ret.
Qed.

(** The outcome depends on the heap only through the object passed in. *)
Lemma runFullSimulation_outcome (h h' : Heap) (l l' : loc) :
  h l = h' l' ->
  fst (runFullSimulation (Val l) h) = fst (runFullSimulation (Val l') h').
Proof.
  intros E. unfold runFullSimulation, bind, object_of, ret, load.
  rewrite <- E.
  destruct (h l) as [e f b c m p].
  destruct e, f, b, c, m, p; reflexivity.
Qed.

(** C8. [runFullSimulation] is deterministic and stateless: no call changes
    the heap, so neither the configuration object passed in nor anything a
    later call can observe is mutated; two calls on configuration objects
    with equal contents, in any heaps, have equal outcomes; and so have two
    calls in sequence, the second starting in the heap the first one
    left. *)
Theorem runFullSimulation_deterministic_stateless :
  (forall (config : value loc) (h : Heap),
      snd (runFullSimulation config h) = h) /\
  (forall (h h' : Heap) (l l' : loc),
      h l = h' l' ->
      fst (runFullSimulation (Val l) h) = fst (runFullSimulation (Val l') h')) /\
  (forall (h : Heap) (l1 l2 : loc),
      h l1 = h l2 ->
      let first := runFullSimulation (Val l1) h in
      let second := runFullSimulation (Val l2) (snd first) in
      fst first = fst second /\ snd first = h /\ snd second = h).
Proof.
  split; [| split].
  - intros config h. apply read_only_runFullSimulation.
  - apply runFullSimulation_outcome.
  - intros h l1 l2 E first second. subst first second.
    rewrite !read_only_runFullSimulation.
    split; [| split; reflexivity].
    apply runFullSimulation_outcome. exact E.
Qed.

Lemma runFullSimulation_deterministic_stateless_witness :
  let h : Heap := fun _ => Config.empty in
  let first := runFullSimulation (Val 0%nat) h in
  let second := runFullSimulation (Val 1%nat) (snd first) in
  (fst first = fst second /\ snd first = h /\ snd second = h) /\
  fst (runFullSimulation (Val 0%nat) h)
  = fst (runFullSimulation (Val 7%nat) (fun _ => Config.empty)).
Proof.
  destruct runFullSimulation_deterministic_stateless as (_ & Hout & Hseq).
  split.
  - apply (Hseq (fun _ => Config.empty) 0%nat 1%nat). reflexivity.
  - apply Hout. reflexivity.
Defined.

(* ================================================================== *)
(** ** Defaulting of configuration fields *)












(* ================================================================== *)
(** ** The hover operating point *)

Lemma div_Fin_inv (x y : number) (q : R) :
  (x / y)%js = Fin q ->
  (exists a b, x = Fin a /\ y = Fin b /\ b <> 0 /\ q = a / b) \/
  (q = 0 /\ (y = PInf \/ y = NInf) /\ exists a, x = Fin a).
Proof.
  destruct x as [| | |a], y as [| | |b]; cbn; try discriminate;
    try (intros H; injection H as <-; right;
         split; [reflexivity | split; [auto | now exists a]]);
    try (unfold Rlt_b; destruct (Rlt_dec b 0); discriminate).
  unfold Req_b. destruct (Req_dec_T b 0) as [E | E].
  - unfold signed_inf, Rsgn, Rlt_b.
    destruct (Rlt_dec a 0); [discriminate |].
    destruct (Rlt_dec 0 a); discriminate.
  - intros H. injection H as <-. left. exists a, b. auto.
Qed.


(** *** Evaluation on the configuration [{ frame: { frameWeight: g } }] *)

Lemma Rpower_4 (x : R) : 0 < x -> Rpower x 4 = x * x * x * x.
Proof.
  intros Hx. replace 4 with (INR 4) by (simpl; lra).
  rewrite Rpower_pow by assumption. simpl. lra.
Qed.

Lemma or_default_Fin_zero (g : R) : or_default (Val (Fin g)) (Fin 0) = Fin g.
Proof.
  unfold or_default, or_val. cbn. unfold Req_b.
  destruct (Req_dec_T g 0) as [-> | _]; reflexivity.
Qed.

Lemma numMotors_wfw g : Body.numMotors (with_frame_weight g) = Fin 4.
Proof. reflexivity. Qed.


Lemma totalWeightKg_wfw g :
  Body.totalWeightKg (with_frame_weight g) = Fin (g / 1000 + 0.34).
Proof.
  unfold Body.totalWeightKg, Body.frameWeight, Body.payloadWeight,
    Body.batteryWeight.
  rewrite numMotors_wfw.
  change (Frame.frameWeight (the_frame (with_frame_weight g)))
    with (Val (Fin g)).
  rewrite or_default_Fin_zero.
  change (Body.motorWeightG (with_frame_weight g)) with (Fin 60).
  change (Body.escWeightG (with_frame_weight g)) with (Fin 10).
  change (Body.propWeightG (with_frame_weight g)) with (Fin 15).
  change (or_default (Frame.payloadWeight (the_frame (with_frame_weight g)))
                     (Fin 0)) with (Fin 0).
  change (or_default (Battery.weightG (the_battery (with_frame_weight g)))
                     (Fin 0)) with (Fin 0).
  rewrite !mul_Fin, !add_Fin, !div_Fin, !add_Fin by lra.
  f_equal. lra.
Qed.

Lemma rho_wfw g :
  Body.rho (with_frame_weight g) = Fin (101325 / (287.058 * 298.15)).
Proof.
  change (Body.rho (with_frame_weight g)) with (calcAirDensity (Fin 0) (Fin 25)).
  rewrite calcAirDensity_Fin by lra.
  rewrite Rmin_left by lra. rewrite Rmax_right by lra.
  replace (1 - 0.0065 * 0 / 288.15) with 1 by lra.
  rewrite Rpower_one. f_equal. lra.
Qed.

Lemma maxRPS_wfw g :
  Body.maxRPS (with_frame_weight g) = Fin (920 * 16.75 / 60).
Proof.
  unfold Body.maxRPS, Body.maxRPM.
  change (Body.kv (with_frame_weight g)) with (Fin 920).
  change (Body.maxVoltage (with_frame_weight g)) with (Fin 4.2 * Fin 4)%js.
  change (Body.noLoadCurrent (with_frame_weight g)) with (Fin 0.5).
  change (Body.motorResistance (with_frame_weight g)) with (Fin 0.1).
  unfold calcMotorRPM.
  rewrite !mul_Fin, sub_Fin, Math_max_Fin, mul_Fin, div_Fin by lra.
  rewrite Rmax_right by lra. f_equal. lra.
Qed.

Lemma ct_wfw g : Body.ct (with_frame_weight g) = Fin 0.09525.
Proof.
  change (Body.ct (with_frame_weight g))
    with (coeff_ct (estimatePropCoefficients (Fin 10) (Fin 4.5) (Fin 2))).
  rewrite (estimatePropCoefficients_Fin 10 4.5 false) by lra.
  cbn [coeff_ct]. rewrite Rmin_right by lra. rewrite Rmax_right by lra.
  f_equal. lra.
Qed.

Lemma maxThrustPerMotor_wfw g :
  Body.maxThrustPerMotor (with_frame_weight g)
  = Fin (0.09525 * (101325 / (287.058 * 298.15))
         * (920 * 16.75 / 60) * (920 * 16.75 / 60)
         * (0.254 * 0.254 * 0.254 * 0.254)).
Proof.
  unfold Body.maxThrustPerMotor. rewrite ct_wfw, rho_wfw, maxRPS_wfw.
  change (Body.propDiameterM (with_frame_weight g))
    with (Fin 10 * Fin 0.0254)%js.
  unfold calcThrust. rewrite !mul_Fin.
  rewrite Math_pow_Fin_pos by lra. rewrite Rpower_4 by lra.
  rewrite mul_Fin. f_equal. lra.
Qed.





(* ================================================================== *)
(** * Further properties of the engine *)

From Stdlib Require Import Lia.

(** ** Integer powers *)

Lemma Int_part_IZR (z : Z) : Int_part (IZR z) = z.
Proof. symmetry. apply Int_part_spec. split; lra. Qed.

Lemma Int_part_le (a b : R) : a <= b -> (Int_part a <= Int_part b)%Z.
Proof.
  intros Hab.
  destruct (base_Int_part a) as [Ha _], (base_Int_part b) as [_ Hb].
  destruct (Z_le_gt_dec (Int_part a) (Int_part b)) as [H | H]; [exact H |].
  assert (H1 : (Int_part b + 1 <= Int_part a)%Z) by lia.
  apply IZR_le in H1. rewrite plus_IZR in H1. lra.
Qed.

Lemma Int_part_bounds (r : R) (lo hi : Z) :
  IZR lo <= r -> r < IZR hi + 1 -> (lo <= Int_part r <= hi)%Z.
Proof.
  intros Hlo Hhi. destruct (base_Int_part r) as [H1 H2]. split.
  - destruct (Z_le_gt_dec lo (Int_part r)) as [H | H]; [exact H |].
    assert (H3 : (Int_part r + 1 <= lo)%Z) by lia.
    apply IZR_le in H3. rewrite plus_IZR in H3. lra.
  - destruct (Z_le_gt_dec (Int_part r) hi) as [H | H]; [exact H |].
    assert (H3 : (hi + 1 <= Int_part r)%Z) by lia.
    apply IZR_le in H3. rewrite plus_IZR in H3. lra.
Qed.

Lemma is_integer_IZR (z : Z) : is_integer (IZR z) = true.
Proof. unfold is_integer. rewrite Int_part_IZR. now apply Req_b_true. Qed.

Lemma is_odd_integer_IZR (z : Z) : is_odd_integer (IZR z) = Z.odd z.
Proof. unfold is_odd_integer. now rewrite is_integer_IZR, Int_part_IZR. Qed.

Lemma Rpower_nat (x : R) (n : nat) :
  0 < x -> Rpower x (IZR (Z.of_nat n)) = x ^ n.
Proof. intros Hx. rewrite <- INR_IZR_INZ. now apply Rpower_pow. Qed.

Lemma pow_minus_one (n : nat) :
  (-1) ^ n = if Z.odd (Z.of_nat n) then -1 else 1.
Proof.
  destruct (Z.odd (Z.of_nat n)) eqn:Hodd.
  - apply Zodd_bool_iff in Hodd. apply Zodd_ex in Hodd.
    destruct Hodd as [k Hk].
    replace n with (S (2 * Z.to_nat k)) by lia.
    rewrite <- tech_pow_Rmult, pow_1_even. lra.
  - assert (He : Z.even (Z.of_nat n) = true)
      by (rewrite <- Z.negb_odd, Hodd; reflexivity).
    apply Zeven_bool_iff in He. apply Zeven_ex in He.
    destruct He as [k Hk].
    replace n with (2 * Z.to_nat k)%nat by lia.
    apply pow_1_even.
Qed.

(** [Math.pow] with a positive integer exponent is the iterated product,
    for every finite base, negative ones included. *)
Lemma Math_pow_nat (x : R) (n : nat) :
  (0 < n)%nat -> Math_pow (Fin x) (Fin (IZR (Z.of_nat n))) = Fin (x ^ n).
Proof.
  intros Hn. unfold Math_pow.
  assert (Hpos : 0 < IZR (Z.of_nat n)) by (apply IZR_lt; lia).
  rewrite (Req_b_false (IZR (Z.of_nat n)) 0) by lra.
  rewrite (Rlt_b_true 0 (IZR (Z.of_nat n))) by assumption.
  destruct (Req_dec_T x 0) as [-> | Hx0].
  - rewrite Req_b_true by reflexivity. f_equal. symmetry. now apply pow_i.
  - rewrite (Req_b_false x 0) by assumption.
    destruct (Rlt_dec 0 x) as [Hx | Hx].
    + rewrite Rlt_b_true by assumption. f_equal. now apply Rpower_nat.
    + rewrite Rlt_b_false by lra.
      rewrite is_odd_integer_IZR, is_integer_IZR.
      rewrite Rpower_nat by lra.
      assert (E : x ^ n = (-1) ^ n * (- x) ^ n).
      { rewrite <- Rpow_mult_distr. f_equal. lra. }
      rewrite E, pow_minus_one.
      destruct (Z.odd (Z.of_nat n)); f_equal; lra.
Qed.

Lemma Math_pow_3 (x : R) : Math_pow (Fin x) (Fin 3) = Fin (x * x * x).
Proof.
  change 3 with (IZR (Z.of_nat 3)). rewrite Math_pow_nat by lia.
  f_equal. simpl. lra.
Qed.

Lemma Math_pow_4 (x : R) : Math_pow (Fin x) (Fin 4) = Fin (x * x * x * x).
Proof.
  change 4 with (IZR (Z.of_nat 4)). rewrite Math_pow_nat by lia.
  f_equal. simpl. lra.
Qed.

Lemma Math_pow_5 (x : R) :
  Math_pow (Fin x) (Fin 5) = Fin (x * x * x * x * x).
Proof.
  change 5 with (IZR (Z.of_nat 5)). rewrite Math_pow_nat by lia.
  f_equal. simpl. lra.
Qed.

(** ** Motor speed *)

(** X1. On finite arguments with a non-negative Kv, [calcMotorRPM] is a
    finite, non-negative number: Kv * (V - I * Rm) while the supply voltage
    covers the resistive drop, and 0 from there on; at zero current and a
    non-negative voltage it is Kv * V. *)
Theorem calcMotorRPM_floor (kv V I Rm : R) :
  0 <= kv ->
  exists rpm : R,
    calcMotorRPM (Fin kv) (Fin V) (Fin I) (Fin Rm) = Fin rpm /\
    0 <= rpm /\
    (I * Rm <= V -> rpm = kv * (V - I * Rm)) /\
    (V <= I * Rm -> rpm = 0) /\
    (I = 0 -> 0 <= V -> rpm = kv * V).
Proof.
  intros Hkv. unfold calcMotorRPM.
  rewrite mul_Fin, sub_Fin, Math_max_Fin, mul_Fin.
  eexists. split; [reflexivity |].
  assert (H0 : 0 <= Rmax 0 (V - I * Rm)) by apply Rmax_l.
  repeat split.
  - now apply Rmult_le_pos.
  - intros H. rewrite Rmax_right by lra. reflexivity.
  - intros H. rewrite Rmax_left by lra. lra.
  - intros -> HV. rewrite Rmax_right by lra. f_equal. lra.
Qed.

Lemma calcMotorRPM_floor_witness :
  exists rpm : R,
    calcMotorRPM (Fin 920) (Fin 5) (Fin 100) (Fin 0.5) = Fin rpm /\ rpm = 0.
Proof.
  destruct (calcMotorRPM_floor 920 5 100 0.5) as (rpm & E & _ & _ & H & _);
    [lra |].
  exists rpm. split; [exact E | apply H; lra].
Defined.

(** ** Propeller laws *)

Lemma calcThrust_Fin (ct rho rps D : R) :
  calcThrust (Fin ct) (Fin rho) (Fin rps) (Fin D)
  = Fin (ct * rho * rps * rps * (D * D * D * D)).
Proof. unfold calcThrust. now rewrite Math_pow_4, !mul_Fin. Qed.

Lemma calcPropPower_Fin (cp rho rps D : R) :
  calcPropPower (Fin cp) (Fin rho) (Fin rps) (Fin D)
  = Fin (cp * rho * (rps * rps * rps) * (D * D * D * D * D)).
Proof. unfold calcPropPower. now rewrite Math_pow_3, Math_pow_5, !mul_Fin. Qed.

(** X2. On finite arguments [calcThrust] is ct * rho * rps^2 * D^4, also
    for a negative diameter or speed; it is 0 at zero speed, not negative
    when ct and rho are not, and quadratic in the speed: at k times the
    speed the thrust is k^2 times as large. *)
Theorem calcThrust_quadratic (ct rho rps D k : R) :
  exists T : R,
    calcThrust (Fin ct) (Fin rho) (Fin rps) (Fin D) = Fin T /\
    T = ct * rho * rps ^ 2 * D ^ 4 /\
    calcThrust (Fin ct) (Fin rho) (Fin rps * Fin k)%js (Fin D)
    = Fin (k ^ 2 * T) /\
    calcThrust (Fin ct) (Fin rho) (Fin 0) (Fin D) = Fin 0 /\
    (0 <= ct -> 0 <= rho -> 0 <= T).
Proof.
  eexists. split; [apply calcThrust_Fin |].
  repeat split.
  - simpl. lra.
  - rewrite mul_Fin, calcThrust_Fin. f_equal. simpl. lra.
  - rewrite calcThrust_Fin. f_equal. lra.
  - intros Hct Hrho.
    replace (ct * rho * rps * rps * (D * D * D * D))
      with ((ct * rho) * ((rps * rps) * ((D * D) * (D * D)))) by lra.
    apply Rmult_le_pos; [now apply Rmult_le_pos |].
    apply Rmult_le_pos; [apply Rle_0_sqr |].
    apply Rmult_le_pos; apply Rle_0_sqr.
Qed.

Lemma calcThrust_quadratic_witness :
  exists T : R,
    calcThrust (Fin 0.1) (Fin 1.2) (Fin 100) (Fin 0.25) = Fin T /\ 0 <= T.
Proof.
  destruct (calcThrust_quadratic 0.1 1.2 100 0.25 2) as (T & H & _ & _ & _ & Hpos).
  exists T. split; [exact H | apply Hpos; lra].
Defined.

(** X3. On finite arguments [calcPropPower] is cp * rho * rps^3 * D^5 and
    cubic in the speed: at k times the speed the mechanical power is k^3
    times as large, so that at a positive speed the thrust obtained per
    watt, thrust / power = ct / (cp * rps * D), falls as the speed rises. *)
Theorem calcPropPower_cubic (cp rho rps D k : R) :
  exists P : R,
    calcPropPower (Fin cp) (Fin rho) (Fin rps) (Fin D) = Fin P /\
    P = cp * rho * rps ^ 3 * D ^ 5 /\
    calcPropPower (Fin cp) (Fin rho) (Fin rps * Fin k)%js (Fin D)
    = Fin (k ^ 3 * P) /\
    (forall ct : R,
        P <> 0 ->
        (calcThrust (Fin ct) (Fin rho) (Fin rps) (Fin D)
         / calcPropPower (Fin cp) (Fin rho) (Fin rps) (Fin D))%js
        = Fin (ct / (cp * rps * D))).
Proof.
  eexists. split; [apply calcPropPower_Fin |].
  repeat split.
  - simpl. lra.
  - rewrite mul_Fin, calcPropPower_Fin. f_equal. simpl. lra.
  - intros ct HP. rewrite calcThrust_Fin, calcPropPower_Fin.
    rewrite div_Fin by exact HP. f_equal.
    assert (cp <> 0 /\ rho <> 0 /\ rps <> 0 /\ D <> 0) as (? & ? & ? & ?).
    { repeat split; intros ->; apply HP; lra. }
    field. repeat split; assumption.
Qed.

Lemma calcPropPower_cubic_witness :
  (calcThrust (Fin 0.11) (Fin 1.225) (Fin 100) (Fin 0.254)
   / calcPropPower (Fin 0.047) (Fin 1.225) (Fin 100) (Fin 0.254))%js
  = Fin (0.11 / (0.047 * 100 * 0.254)).
Proof.
  destruct (calcPropPower_cubic 0.047 1.225 100 0.254 1)
    as (P & _ & -> & _ & H).
  apply H. simpl. lra.
Defined.

(** ** Motor efficiency and temperature *)

(** X4. For a finite mechanical power and any electrical power other than
    NaN, [calcMotorEfficiency] is a finite number in [0, 1]: 0 when the
    electrical power is at most 0 or the mechanical power is negative, 1
    when the mechanical power exceeds the electrical one, and their quotient
    in between. *)
Theorem calcMotorEfficiency_range (mech : R) (elec : number) :
  elec <> NaN ->
  exists e : R,
    calcMotorEfficiency (Fin mech) elec = Fin e /\
    0 <= e <= 1 /\
    (forall p : R, elec = Fin p -> 0 < p -> 0 <= mech <= p -> e = mech / p) /\
    (forall p : R, elec = Fin p -> 0 < p -> p <= mech -> e = 1).
Proof.
  intros Hnan. unfold calcMotorEfficiency.
  destruct elec as [| | |p]; [contradiction | | |].
  - cbn [le div]. rewrite Math_max_Fin, Math_min_Fin.
    rewrite Rmax_left, Rmin_right by lra.
    exists 0. repeat split; try lra; discriminate.
  - cbn [le]. exists 0. repeat split; try lra; discriminate.
  - rewrite le_Fin. destruct (Rle_dec p 0) as [Hp | Hp].
    + rewrite Rle_b_true by assumption. exists 0.
      repeat split; try lra; intros q [= ->] Hq; lra.
    + rewrite Rle_b_false by lra. apply Rnot_le_lt in Hp.
      rewrite div_Fin, Math_max_Fin, Math_min_Fin by lra.
      eexists. split; [reflexivity |].
      assert (H0 : 0 <= Rmax 0 (mech / p)) by apply Rmax_l.
      repeat split.
      * apply Rmin_glb; lra.
      * apply Rmin_l.
      * intros q [= <-] _ [Hm0 Hm1].
        assert (0 <= mech / p <= 1).
        { split; [apply Rmult_le_pos; [lra | left; now apply Rinv_0_lt_compat] |].
          apply Rmult_le_reg_r with p; [lra |].
          unfold Rdiv. rewrite Rmult_assoc, Rinv_l by lra. lra. }
        rewrite Rmax_right by lra. apply Rmin_right. lra.
      * intros q [= <-] _ Hm.
        assert (1 <= mech / p).
        { apply Rmult_le_reg_r with p; [lra |].
          unfold Rdiv. rewrite Rmult_assoc, Rinv_l by lra. lra. }
        rewrite Rmax_right by lra. apply Rmin_left. lra.
Qed.

Lemma calcMotorEfficiency_range_witness :
  exists e : R,
    calcMotorEfficiency (Fin 110) (Fin 100) = Fin e /\ e = 1.
Proof.
  destruct (calcMotorEfficiency_range 110 (Fin 100)) as (e & E & _ & _ & H);
    [discriminate |].
  exists e. split; [exact E | apply (H 100); [reflexivity | lra | lra]].
Defined.

Lemma calcMotorTemp_Fin (ambientC loss Rth t : R) :
  calcMotorTemp (Fin ambientC) (Fin loss) (Fin Rth) (Fin t)
  = Fin (ambientC + loss * Rth * (1 - exp (- t / 120))).
Proof.
  unfold calcMotorTemp. cbn [neg].
  rewrite div_Fin by lra. cbn [Math_exp].
  now rewrite sub_Fin, !mul_Fin, add_Fin.
Qed.

(** X5. On finite arguments [calcMotorTemp] is
    ambient + loss * Rth * (1 - exp(-t / 120)): exactly the ambient
    temperature at t = 0 and, when the steady-state rise loss * Rth is not
    negative, for t >= 0 between the ambient temperature and the steady state
    ambient + loss * Rth, and not decreasing in t. *)
Theorem calcMotorTemp_rise (ambientC loss Rth : R) :
  calcMotorTemp (Fin ambientC) (Fin loss) (Fin Rth) (Fin 0) = Fin ambientC /\
  (0 <= loss * Rth ->
   forall t1 t2 : R,
     0 <= t1 <= t2 ->
     exists T1 T2 : R,
       calcMotorTemp (Fin ambientC) (Fin loss) (Fin Rth) (Fin t1) = Fin T1 /\
       calcMotorTemp (Fin ambientC) (Fin loss) (Fin Rth) (Fin t2) = Fin T2 /\
       ambientC <= T1 /\ T1 <= T2 /\ T2 <= ambientC + loss * Rth).
Proof.
  split.
  - rewrite calcMotorTemp_Fin. f_equal.
    replace (- 0 / 120) with 0 by lra. rewrite exp_0. lra.
  - intros Hss t1 t2 [Ht1 Ht12].
    rewrite !calcMotorTemp_Fin. do 2 eexists.
    split; [reflexivity | split; [reflexivity |]].
    assert (He2 : 0 < exp (- t2 / 120)) by apply exp_pos.
    assert (He21 : exp (- t2 / 120) <= exp (- t1 / 120)).
    { destruct (Req_dec_T t1 t2) as [-> | Hne]; [lra |].
      left. apply exp_increasing. lra. }
    assert (He1 : exp (- t1 / 120) <= 1).
    { rewrite <- exp_0. destruct (Req_dec_T t1 0) as [-> | Hne].
      - replace (- 0 / 120) with 0 by lra. lra.
      - left. apply exp_increasing. lra. }
    repeat split; nra.
Qed.

Lemma calcMotorTemp_rise_witness :
  exists T1 T2 : R,
    calcMotorTemp (Fin 25) (Fin 5) (Fin 10) (Fin 60) = Fin T1 /\
    calcMotorTemp (Fin 25) (Fin 5) (Fin 10) (Fin 300) = Fin T2 /\
    25 <= T1 /\ T1 <= T2 /\ T2 <= 25 + 5 * 10.
Proof.
  destruct (calcMotorTemp_rise 25 5 10) as [_ H].
  apply H; lra.
Defined.

(** ** Hover throttle and thrust-to-weight ratio *)

Lemma coaxFactor_cases (s : Sections) :
  Body.coaxFactor s = Fin 0.85 \/ Body.coaxFactor s = Fin 1.0.
Proof.
  unfold Body.coaxFactor, calcCoaxialFactor.
  destruct (Body.isCoaxial s); auto.
Qed.

(** X6. In [runFullSimulation], for a finite positive weight, motor count
    and maximal thrust per motor, the hover throttle is determined by the
    thrust-to-weight ratio: hoverThrottle = min(100, 100 / sqrt(twr)).  It is
    100 when twr <= 1, and the check hoverThrottleOk (throttle below 60)
    implies the check twrOk (twr at least 2). *)
Theorem hoverThrottle_twr (s : Sections) (m n w : R) :
  Body.maxThrustPerMotor s = Fin m -> 0 < m ->
  Body.numMotors s = Fin n -> 0 < n ->
  Body.totalWeightKg s = Fin w -> 0 < w ->
  exists tau : R,
    Body.twr s = Fin tau /\ 0 < tau /\
    Body.hoverThrottle s = Fin (Rmin 100 (100 / sqrt tau)) /\
    (tau <= 1 -> Body.hoverThrottle s = Fin 100) /\
    (Validations.hoverThrottleOk (Body.validations s) = true ->
     Validations.twrOk (Body.validations s) = true).
Proof.
  intros Hm Hm0 Hn Hn0 Hw Hw0.
  assert (Hc : exists c : R, Body.coaxFactor s = Fin c /\ 0 < c).
  { destruct (coaxFactor_cases s) as [E | E]; eexists; (split; [exact E | lra]). }
  destruct Hc as (c & Hc & Hc0).
  assert (Hnc : 0 < n * c) by now apply Rmult_lt_0_compat.
  set (tau := m * n * c / (w * 9.80665)).
  assert (Htau : 0 < tau).
  { unfold tau. apply Rdiv_lt_0_compat; [| lra].
    apply Rmult_lt_0_compat; [now apply Rmult_lt_0_compat | assumption]. }
  assert (Htwr : Body.twr s = Fin tau).
  { unfold Body.twr, Body.maxTotalThrust, calcThrustToWeightRatio, GRAVITY.
    rewrite Hm, Hn, Hc, Hw, !mul_Fin, le_Fin, Rle_b_false by lra.
    rewrite div_Fin by lra. reflexivity. }
  assert (Hratio : w * 9.80665 / (n * c) / m = / tau).
  { unfold tau. field. repeat split; lra. }
  assert (Hth : Body.hoverThrottle s = Fin (Rmin 100 (100 / sqrt tau))).
  { unfold Body.hoverThrottle. rewrite Hw, Hn, Hm, Hc.
    rewrite calcHoverThrottle_Fin; try lra.
    - rewrite Hratio, sqrt_inv. f_equal. f_equal.
      apply Rmax_right. apply Rmult_le_pos; [lra |].
      left. apply Rinv_0_lt_compat. now apply sqrt_lt_R0.
    - apply Rmult_le_pos; [lra |]. left. now apply Rinv_0_lt_compat. }
  exists tau. split; [exact Htwr |]. split; [exact Htau |].
  split; [exact Hth |]. split.
  - intros Hle. rewrite Hth. f_equal. apply Rmin_left.
    assert (Hs : 0 < sqrt tau) by now apply sqrt_lt_R0.
    assert (Hs1 : sqrt tau <= 1).
    { rewrite <- sqrt_1. now apply sqrt_le_1_alt. }
    apply Rmult_le_reg_r with (sqrt tau); [exact Hs |].
    unfold Rdiv. rewrite Rmult_assoc, Rinv_l by lra. lra.
  - unfold Body.validations. cbn [Validations.hoverThrottleOk Validations.twrOk].
    rewrite Hth, Htwr. unfold ge. rewrite lt_Fin, le_Fin.
    intros Hok. apply Rlt_b_iff in Hok. apply Rle_b_true.
    assert (Hs : 0 < sqrt tau) by now apply sqrt_lt_R0.
    assert (H60 : 100 / sqrt tau < 60).
    { unfold Rmin in Hok. destruct (Rle_dec 100 (100 / sqrt tau)); lra. }
    assert (Hsq : 100 < 60 * sqrt tau).
    { apply Rmult_lt_compat_r with (r := sqrt tau) in H60; [| exact Hs].
      unfold Rdiv in H60. rewrite Rmult_assoc, Rinv_l in H60 by lra. lra. }
    assert (Hdef : sqrt tau * sqrt tau = tau) by (apply sqrt_sqrt; lra).
    nra.
Qed.

Lemma hoverThrottle_twr_witness :
  exists tau : R,
    Body.twr (with_frame_weight 300) = Fin tau /\
    Body.hoverThrottle (with_frame_weight 300)
    = Fin (Rmin 100 (100 / sqrt tau)).
Proof.
  destruct (hoverThrottle_twr (with_frame_weight 300) _ 4 (300 / 1000 + 0.34)
              (maxThrustPerMotor_wfw 300))
    as (tau & Htwr & _ & Hth & _).
  - lra.
  - apply numMotors_wfw.
  - lra.
  - apply totalWeightKg_wfw.
  - lra.
  - exists tau. split; assumption.
Defined.

(** ** Wire loss *)

(** X7. For every gauge, finite length and current, [calcWireLoss] returns
    resistance = r * (lengthCm / 100) and powerLoss = I^2 * resistance,
    where r is an entry of the table, between 0.003277 and 0.0668 ohm per
    meter; for every gauge that is not a key of the table (24, a fraction,
    NaN, ...) r is the entry of 14 AWG, 0.008286; and the power lost is not
    negative when the length is not. *)
Theorem calcWireLoss_gauge (awg : number) (lengthCm currentA : R) :
  exists r : R,
    resistance (calcWireLoss awg (Fin lengthCm) (Fin currentA))
    = Fin (r * (lengthCm / 100)) /\
    powerLoss (calcWireLoss awg (Fin lengthCm) (Fin currentA))
    = Fin (currentA * currentA * (r * (lengthCm / 100))) /\
    0.003277 <= r <= 0.0668 /\
    ((forall key : R,
         In key [10; 12; 14; 16; 18; 20; 22; 26] -> awg <> Fin key) ->
     r = 0.008286) /\
    (0 <= lengthCm -> 0 <= currentA * currentA * (r * (lengthCm / 100))).
Proof.
  assert (Hper : exists r : R,
             ToNumber (or_val (lookup_num AWG_RESISTANCE awg)
                              (lookup_num AWG_RESISTANCE (Fin 14))) = Fin r /\
             0.003277 <= r <= 0.0668 /\
             ((forall key : R,
                  In key [10; 12; 14; 16; 18; 20; 22; 26] -> awg <> Fin key) ->
              r = 0.008286)).
  { assert (H14 : lookup_num AWG_RESISTANCE (Fin 14) = Val (Fin 0.008286)).
    { unfold lookup_num, AWG_RESISTANCE. cbn [strict_eq].
      rewrite !(Req_b_false 14) by lra. now rewrite Req_b_true. }
    rewrite H14.
    assert (Htruthy : forall x : R, x <> 0 ->
               ToNumber (or_val (Val (Fin x)) (Val (Fin 0.008286))) = Fin x).
    { intros x Hx. unfold or_val. cbn. now rewrite Req_b_false. }
    destruct awg as [| | |a];
      try (exists 0.008286; split; [reflexivity | split; [lra | reflexivity]]).
    unfold lookup_num, AWG_RESISTANCE. cbn [strict_eq].
    repeat match goal with
      | |- context [Req_b a ?k] =>
          let E := fresh "E" in
          destruct (Req_dec_T a k) as [E | E];
          [ rewrite (Req_b_true a k E); rewrite Htruthy by lra;
            eexists; split; [reflexivity |]; split; [lra |];
            intros Hkey; exfalso; apply (Hkey k); [simpl; tauto | now rewrite E]
          | rewrite (Req_b_false a k E) ]
      end.
    exists 0.008286. split; [reflexivity | split; [lra | reflexivity]]. }
  destruct Hper as (r & Hr & Hrange & Hother).
  exists r. unfold calcWireLoss. cbn [resistance powerLoss].
  rewrite Hr, div_Fin by lra. rewrite !mul_Fin.
  repeat split; try lra; try assumption.
  intros HL.
  apply Rmult_le_pos; [apply Rle_0_sqr |].
  apply Rmult_le_pos; [lra |]. lra.
Qed.

Lemma calcWireLoss_gauge_witness :
  exists r : R,
    resistance (calcWireLoss (Fin 24) (Fin 30) (Fin 20))
    = Fin (r * (30 / 100)) /\
    r = 0.008286.
Proof.
  destruct (calcWireLoss_gauge (Fin 24) 30 20) as (r & Hres & _ & _ & H & _).
  exists r. split; [exact Hres |].
  apply H. intros key Hin E. injection E as E. simpl in Hin.
  repeat (destruct Hin as [Hin | Hin]; [lra |]). exact Hin.
Defined.

(** ** Air density: clamping, monotonicity, absolute zero *)

Lemma clamp_altitude_low (a : R) : a <= 0 -> Rmax 0 (Rmin a 11000) = 0.
Proof. intros H. rewrite Rmin_left by lra. apply Rmax_left. exact H. Qed.

Lemma clamp_altitude_high (a : R) :
  11000 <= a -> Rmax 0 (Rmin a 11000) = 11000.
Proof. intros H. rewrite Rmin_right by lra. apply Rmax_right. lra. Qed.

(** X8. [calcAirDensity] clamps the altitude to [0, 11000] for every
    temperature: an altitude at or below 0 (also -Infinity) gives the density
    at 0, one at or above 11000 (also +Infinity) the density at 11000.  Above
    absolute zero the density does not increase with the altitude, nor with
    the temperature. *)
Theorem calcAirDensity_clamped_monotone :
  (forall (t : number) (a : R),
      a <= 0 -> calcAirDensity (Fin a) t = calcAirDensity (Fin 0) t) /\
  (forall (t : number) (a : R),
      11000 <= a -> calcAirDensity (Fin a) t = calcAirDensity (Fin 11000) t) /\
  (forall t : number,
      calcAirDensity NInf t = calcAirDensity (Fin 0) t /\
      calcAirDensity PInf t = calcAirDensity (Fin 11000) t) /\
  (forall a1 a2 t : R,
      a1 <= a2 -> -273.15 < t ->
      exists d1 d2 : R,
        calcAirDensity (Fin a1) (Fin t) = Fin d1 /\
        calcAirDensity (Fin a2) (Fin t) = Fin d2 /\
        0 < d2 <= d1) /\
  (forall a t1 t2 : R,
      -273.15 < t1 <= t2 ->
      exists d1 d2 : R,
        calcAirDensity (Fin a) (Fin t1) = Fin d1 /\
        calcAirDensity (Fin a) (Fin t2) = Fin d2 /\
        0 < d2 <= d1).
Proof.
  assert (Halt : forall (t : number) (x y : number),
             Math_max (Fin 0) (Math_min x (Fin 11000))
             = Math_max (Fin 0) (Math_min y (Fin 11000)) ->
             calcAirDensity x t = calcAirDensity y t).
  { intros t x y E. unfold calcAirDensity. now rewrite E. }
  assert (He : 0 <= 9.80665 * 0.0289644 / (8.31447 * 0.0065)) by lra.
  assert (Hbase : forall a : R,
             0.7 < 1 - 0.0065 * Rmax 0 (Rmin a 11000) / 288.15 <= 1).
  { intros a. pose proof (clamp_altitude_range a). lra. }
  repeat match goal with |- _ /\ _ => split end.
  - intros t a Ha. apply Halt. rewrite !Math_min_Fin, !Math_max_Fin.
    now rewrite (clamp_altitude_low a), (clamp_altitude_low 0) by lra.
  - intros t a Ha. apply Halt. rewrite !Math_min_Fin, !Math_max_Fin.
    now rewrite (clamp_altitude_high a), (clamp_altitude_high 11000) by lra.
  - intros t. split; apply Halt; rewrite Math_min_Fin, Math_max_Fin.
    + rewrite (clamp_altitude_low 0) by lra. reflexivity.
    + rewrite (clamp_altitude_high 11000) by lra.
      unfold Math_min, Math_max. cbn [lt].
      now rewrite Rlt_b_true by lra.
  - intros a1 a2 t Ha Ht.
    rewrite !calcAirDensity_Fin by lra. do 2 eexists.
    split; [reflexivity | split; [reflexivity |]].
    pose proof (Hbase a1) as Hb1. pose proof (Hbase a2) as Hb2.
    assert (Hclamp : Rmax 0 (Rmin a1 11000) <= Rmax 0 (Rmin a2 11000)).
    { apply Rle_max_compat_l. apply Rle_min_compat_r. exact Ha. }
    set (e := 9.80665 * 0.0289644 / (8.31447 * 0.0065)) in *.
    assert (Hpow : Rpower (1 - 0.0065 * Rmax 0 (Rmin a2 11000) / 288.15) e
                   <= Rpower (1 - 0.0065 * Rmax 0 (Rmin a1 11000) / 288.15) e).
    { apply Rle_Rpower_l; [exact He | lra]. }
    assert (Hpos : 0 < Rpower (1 - 0.0065 * Rmax 0 (Rmin a2 11000) / 288.15) e).
    { apply Rpower_unit_interval; [lra | exact He]. }
    assert (Hd : 0 < / (287.058 * (t + 273.15))).
    { apply Rinv_0_lt_compat. lra. }
    unfold Rdiv at 1 3. split.
    + apply Rmult_lt_0_compat; [lra | exact Hd].
    + apply Rmult_le_compat_r; [lra |]. lra.
  - intros a t1 t2 [Ht1 Ht12].
    rewrite !calcAirDensity_Fin by lra. do 2 eexists.
    split; [reflexivity | split; [reflexivity |]].
    pose proof (Hbase a) as Hb.
    set (e := 9.80665 * 0.0289644 / (8.31447 * 0.0065)) in *.
    assert (Hpos : 0 < Rpower (1 - 0.0065 * Rmax 0 (Rmin a 11000) / 288.15) e).
    { apply Rpower_unit_interval; [lra | exact He]. }
    set (P := 101325
              * Rpower (1 - 0.0065 * Rmax 0 (Rmin a 11000) / 288.15) e) in *.
    assert (HP : 0 < P) by (unfold P; lra).
    assert (Hd2 : 0 < / (287.058 * (t2 + 273.15))).
    { apply Rinv_0_lt_compat. lra. }
    assert (Hinv : / (287.058 * (t2 + 273.15)) <= / (287.058 * (t1 + 273.15))).
    { apply Rinv_le_contravar; lra. }
    unfold Rdiv. split.
    + now apply Rmult_lt_0_compat.
    + apply Rmult_le_compat_l; [lra | exact Hinv].
Qed.

Lemma calcAirDensity_clamped_monotone_witness :
  calcAirDensity (Fin (-50)) (Fin 15) = calcAirDensity (Fin 0) (Fin 15) /\
  calcAirDensity (Fin 12000) (Fin 15) = calcAirDensity (Fin 11000) (Fin 15) /\
  (exists d1 d2 : R,
      calcAirDensity (Fin 0) (Fin 15) = Fin d1 /\
      calcAirDensity (Fin 1600) (Fin 15) = Fin d2 /\ 0 < d2 <= d1) /\
  (exists d1 d2 : R,
      calcAirDensity (Fin 1600) (Fin 0) = Fin d1 /\
      calcAirDensity (Fin 1600) (Fin 30) = Fin d2 /\ 0 < d2 <= d1).
Proof.
  destruct calcAirDensity_clamped_monotone as (Hlow & Hhigh & _ & Halt & Htemp).
  split; [| split; [| split]].
  - apply Hlow. lra.
  - apply Hhigh. lra.
  - apply Halt; lra.
  - apply Htemp; lra.
Defined.

(** X9. The division by 287.058 * (tempC + 273.15) is not guarded: for every
    finite altitude [calcAirDensity] returns +Infinity at -273.15 degrees and
    a negative density below. *)
Theorem calcAirDensity_absolute_zero (a : R) :
  calcAirDensity (Fin a) (Fin (-273.15)) = PInf /\
  (forall t : R,
      t < -273.15 ->
      exists d : R, calcAirDensity (Fin a) (Fin t) = Fin d /\ d < 0).
Proof.
  assert (He : 0 <= 9.80665 * 0.0289644 / (8.31447 * 0.0065)) by lra.
  pose proof (clamp_altitude_range a) as Hh.
  assert (Hpos : 0 < Rpower (1 - 0.0065 * Rmax 0 (Rmin a 11000) / 288.15)
                            (9.80665 * 0.0289644 / (8.31447 * 0.0065))).
  { apply Rpower_unit_interval; [lra | exact He]. }
  split.
  - unfold calcAirDensity.
    unfold SEA_LEVEL_PRESSURE, SEA_LEVEL_TEMP, LAPSE_RATE, AIR_GAS_CONSTANT,
      GRAVITY, MOLAR_MASS_AIR, UNIVERSAL_GAS_CONSTANT.
    rewrite Math_min_Fin, Math_max_Fin.
    set (h := Rmax 0 (Rmin a 11000)) in *.
    rewrite !mul_Fin, !add_Fin.
    rewrite (div_Fin (0.0065 * h)) by lra.
    rewrite (div_Fin (9.80665 * 0.0289644)) by lra.
    rewrite sub_Fin, Math_pow_Fin_pos by lra.
    rewrite !mul_Fin. unfold div.
    rewrite Req_b_true by lra.
    unfold Rsgn. rewrite Rlt_b_false by lra. now rewrite Rlt_b_true by lra.
  - intros t Ht. rewrite calcAirDensity_Fin by lra.
    eexists. split; [reflexivity |].
    assert (Hd : / (287.058 * (t + 273.15)) < 0).
    { apply Rinv_lt_0_compat. lra. }
    unfold Rdiv. nra.
Qed.

Lemma calcAirDensity_absolute_zero_witness :
  exists d : R, calcAirDensity (Fin 0) (Fin (-300)) = Fin d /\ d < 0.
Proof.
  destruct (calcAirDensity_absolute_zero 0) as [_ H].
  apply H. lra.
Defined.

(** ** Propeller coefficients: range and blade count *)

Lemma strict_eq_three (b : number) :
  (b === Fin 3)%js = true -> b = Fin 3.
Proof.
  destruct b as [| | |r]; cbn; try discriminate.
  intros H. apply Req_b_iff in H. now subst.
Qed.

Lemma estimatePropCoefficients_not_three (d p b : number) :
  (b === Fin 3)%js = false ->
  estimatePropCoefficients d p b = estimatePropCoefficients d p (Fin 2).
Proof.
  intros H. unfold estimatePropCoefficients. rewrite H.
  cbn [strict_eq]. now rewrite (Req_b_false 2 3) by lra.
Qed.

Lemma clamp_range_Fin (lo hi x : R) :
  lo <= hi -> lo <= Rmax lo (Rmin hi x) <= hi.
Proof.
  intros H. split; [apply Rmax_l |].
  apply Rmax_lub; [exact H | apply Rmin_l].
Qed.

Lemma mul_pos_inf (a : R) :
  0 < a ->
  (Fin a * PInf)%js = PInf /\ (Fin a * NInf)%js = NInf /\
  (PInf * Fin a)%js = PInf /\ (NInf * Fin a)%js = NInf.
Proof.
  intros Ha. unfold mul, Rsgn.
  rewrite (Rlt_b_false a 0), (Rlt_b_true 0 a) by lra.
  repeat split; reflexivity.
Qed.

(** X10. For finite diameter and pitch that are not both 0 and every blade
    count, [estimatePropCoefficients] returns a finite ct in [0.04, 0.22] and
    a finite cp in [0.015, 0.12], also when the diameter is 0 and the pitch
    ratio infinite; when both are 0 ct and cp are NaN.  Every blade count
    other than 3 (4, 1, NaN, ...) is treated as 2. *)
Theorem estimatePropCoefficients_range :
  (forall (d p : R) (b : number),
      d <> 0 \/ p <> 0 ->
      exists ct cp : R,
        estimatePropCoefficients (Fin d) (Fin p) b
        = {| coeff_ct := Fin ct; coeff_cp := Fin cp |} /\
        0.04 <= ct <= 0.22 /\ 0.015 <= cp <= 0.12) /\
  (forall b : number,
      estimatePropCoefficients (Fin 0) (Fin 0) b
      = {| coeff_ct := NaN; coeff_cp := NaN |}) /\
  (forall d p b : number,
      (b === Fin 3)%js = false ->
      estimatePropCoefficients d p b = estimatePropCoefficients d p (Fin 2)).
Proof.
  split; [| split].
  - assert (Hfin : forall (d p : R) (three : bool),
               d <> 0 ->
               exists ct cp : R,
                 estimatePropCoefficients
                   (Fin d) (Fin p) (Fin (if three then 3 else 2))
                 = {| coeff_ct := Fin ct; coeff_cp := Fin cp |} /\
                 0.04 <= ct <= 0.22 /\ 0.015 <= cp <= 0.12).
    { intros d p three Hd.
      rewrite estimatePropCoefficients_Fin by assumption.
      do 2 eexists. split; [reflexivity |].
      split; apply clamp_range_Fin; lra. }
    assert (Hzero : forall (p : R) (three : bool),
               p <> 0 ->
               exists ct cp : R,
                 estimatePropCoefficients
                   (Fin 0) (Fin p) (Fin (if three then 3 else 2))
                 = {| coeff_ct := Fin ct; coeff_cp := Fin cp |} /\
                 0.04 <= ct <= 0.22 /\ 0.015 <= cp <= 0.12).
    { intros p three Hp. unfold estimatePropCoefficients.
      unfold div. rewrite Req_b_true by reflexivity.
      destruct (mul_pos_inf 0.045) as (Hc1 & Hc2 & _ & _); [lra |].
      destruct (mul_pos_inf 0.035) as (Hp1 & Hp2 & _ & _); [lra |].
      destruct (mul_pos_inf 1.15) as (_ & _ & Hc3 & Hc4); [lra |].
      destruct (mul_pos_inf 1.25) as (_ & _ & Hp3 & Hp4); [lra |].
      unfold Rsgn.
      destruct (Rlt_dec p 0) as [Hneg | Hpos].
      - rewrite Rlt_b_true by assumption. cbn [signed_inf].
        rewrite Hc2, Hp2. cbn [add].
        exists 0.04, 0.015.
        destruct three; cbn [strict_eq];
          rewrite ?(Req_b_true 3 3), ?(Req_b_false 2 3) by lra;
          rewrite ?Hc4, ?Hp4;
          (split; [reflexivity | lra]).
      - rewrite Rlt_b_false by lra. rewrite Rlt_b_true by lra.
        cbn [signed_inf].
        rewrite Hc1, Hp1. cbn [add].
        exists 0.22, 0.12.
        destruct three; cbn [strict_eq];
          rewrite ?(Req_b_true 3 3), ?(Req_b_false 2 3) by lra;
          rewrite ?Hc3, ?Hp3;
          unfold Math_min, Math_max; cbn [lt];
          rewrite ?(Rlt_b_true 0.04 0.22), ?(Rlt_b_true 0.015 0.12) by lra;
          (split; [reflexivity | lra]). }
    intros d p b Hdp.
    assert (Hb : exists three : bool,
               estimatePropCoefficients (Fin d) (Fin p) b
               = estimatePropCoefficients
                   (Fin d) (Fin p) (Fin (if three then 3 else 2))).
    { destruct (b === Fin 3)%js eqn:E.
      - exists true. now rewrite (strict_eq_three b E).
      - exists false. now apply estimatePropCoefficients_not_three. }
    destruct Hb as (three & ->).
    destruct (Req_dec_T d 0) as [-> | Hd].
    + apply Hzero. destruct Hdp as [H | H]; [contradiction | exact H].
    + now apply Hfin.
  - intros b. unfold estimatePropCoefficients.
    unfold div. rewrite Req_b_true by reflexivity.
    unfold Rsgn. rewrite Rlt_b_false by lra. cbn [signed_inf].
    destruct (b === Fin 3)%js; reflexivity.
  - exact estimatePropCoefficients_not_three.
Qed.

Lemma estimatePropCoefficients_range_witness :
  (exists ct cp : R,
      estimatePropCoefficients (Fin 0) (Fin 4.5) (Fin 3)
      = {| coeff_ct := Fin ct; coeff_cp := Fin cp |} /\
      0.04 <= ct <= 0.22 /\ 0.015 <= cp <= 0.12) /\
  estimatePropCoefficients (Fin 10) (Fin 4.5) (Fin 4)
  = estimatePropCoefficients (Fin 10) (Fin 4.5) (Fin 2).
Proof.
  destruct estimatePropCoefficients_range as (Hrange & _ & Hblades).
  split.
  - apply Hrange. right. lra.
  - apply Hblades. cbn. apply Req_b_false. lra.
Defined.

(** ** Propeller coefficient override *)

(** X11. In [runFullSimulation] each propeller coefficient is overridden on
    its own: a supplied ct that is truthy (not 0, NaN, null or absent) is
    used as it is whatever cp is, and otherwise ct is the geometry estimate;
    likewise for cp. *)
Theorem coefficient_override (s : Sections) :
  Body.ct s
  = (if truthy_val (Propeller.ct (the_propeller s))
     then ToNumber (Propeller.ct (the_propeller s))
     else coeff_ct (Body.coeffs s)) /\
  Body.cp s
  = (if truthy_val (Propeller.cp (the_propeller s))
     then ToNumber (Propeller.cp (the_propeller s))
     else coeff_cp (Body.coeffs s)).
Proof.
  unfold Body.ct, Body.cp, Body.ct_given, Body.cp_given, or_val.
  destruct (truthy_val (Propeller.ct (the_propeller s))),
    (truthy_val (Propeller.cp (the_propeller s))); split; reflexivity.
Qed.

(** ** Exceptions of the call and the caller's fallback *)

Lemma sections_objects_or_null (c : Config.t) :
  sections_are_objects c \/ has_null_section c.
Proof.
  destruct c as [e f b c m p].
  unfold sections_are_objects, has_null_section, is_object_or_absent. cbn.
  destruct e, f, b, c, m, p;
    try (left; repeat split; discriminate); right; tauto.
Qed.

Lemma sections_objects_not_null (c : Config.t) :
  sections_are_objects c -> has_null_section c -> False.
Proof.
  unfold sections_are_objects, has_null_section, is_object_or_absent.
  intros (? & ? & ? & ? & ? & ?) [E | [E | [E | [E | [E | E]]]]];
    contradiction.
Qed.

Lemma runFullSimulation_null_section (l : loc) (h : Heap) :
  has_null_section (h l) ->
  runFullSimulation (Val l) h = (Throw TypeError, h).
Proof.
  intros H.
  pose proof (read_only_runFullSimulation (Val l) h) as Hro.
  destruct (runFullSimulation (Val l) h) as [[r | e] h'] eqn:E; cbn in Hro; subst h'.
  - apply runFullSimulation_inv in E. destruct E as (l' & [= <-] & _ & Hobj & _).
    exfalso. now apply (sections_objects_not_null (h l)).
  - now destruct e.
Qed.

(** X12. [runFullSimulation] throws a TypeError exactly when its argument is
    [undefined] or [null] or one section of the configuration is [null], and
    never changes the heap; the caller's [results] are then [null], and in
    every other case the simulation result. *)
Theorem runFullSimulation_throws (config : value loc) (h : Heap) :
  let thrown :=
    config = Undefined \/ config = Null \/
    exists l : loc, config = Val l /\ has_null_section (h l) in
  (fst (runFullSimulation config h) = Throw TypeError <-> thrown) /\
  (results config h = (Normal Null, h) <-> thrown) /\
  (forall l : loc,
      config = Val l -> sections_are_objects (h l) ->
      results config h = (Normal (Val (Body.result (resolve (h l)))), h)).
Proof.
  cbv zeta.
  destruct config as [| |l].
  - repeat split; auto; intros; discriminate.
  - repeat split; auto; intros; discriminate.
  - destruct (sections_objects_or_null (h l)) as [Hobj | Hnull].
    + unfold results. rewrite (runFullSimulation_ok l h Hobj). cbn [fst].
      repeat split; try discriminate.
      * intros [H | [H | (l' & [= <-] & H)]]; try discriminate.
        exfalso. now apply (sections_objects_not_null (h l)).
      * intros [H | [H | (l' & [= <-] & H)]]; try discriminate.
        exfalso. now apply (sections_objects_not_null (h l)).
      * intros l' [= <-] _. reflexivity.
    + unfold results. rewrite (runFullSimulation_null_section l h Hnull).
      cbn [fst]. repeat split; auto.
      * intros _. right. right. exists l. auto.
      * intros _. right. right. exists l. auto.
      * intros l' [= <-] Hobj.
        exfalso. now apply (sections_objects_not_null (h l)).
Qed.

Lemma runFullSimulation_throws_witness :
  let broken : Config.t :=
    {| Config.environment := Undefined; Config.frame := Undefined;
       Config.battery := Undefined; Config.esc := Undefined;
       Config.motor := Null; Config.propeller := Undefined |} in
  results (Val 0%nat) (fun _ => broken) = (Normal Null, fun _ => broken) /\
  results (Val 0%nat) (fun _ => Config.empty)
  = (Normal (Val (Body.result (resolve Config.empty))), fun _ => Config.empty).
Proof.
  intros broken. split.
  - destruct (runFullSimulation_throws (Val 0%nat) (fun _ => broken))
      as (_ & H & _).
    apply H. right. right. exists 0%nat. split; [reflexivity |].
    unfold has_null_section, broken. cbn. tauto.
  - destruct (runFullSimulation_throws (Val 0%nat) (fun _ => Config.empty))
      as (_ & _ & H).
    apply (H 0%nat); [reflexivity | apply empty_sections_are_objects].
Defined.

(** ** Range of the hover throttle *)

Lemma min_max_percent (x : number) :
  Math_min (Fin 100) (Math_max (Fin 0) x) = NaN \/
  exists t : R,
    Math_min (Fin 100) (Math_max (Fin 0) x) = Fin t /\ 0 <= t <= 100.
Proof.
  destruct x as [| | |r].
  - left. reflexivity.
  - right. exists 100. split; [reflexivity | lra].
  - right. exists 0. split; [| lra].
    unfold Math_max, Math_min. cbn [lt]. now rewrite Rlt_b_true by lra.
  - right. rewrite Math_max_Fin, Math_min_Fin. eexists. split; [reflexivity |].
    split; [apply Rmin_glb; [lra | apply Rmax_l] | apply Rmin_l].
Qed.

(** X13. Whatever its arguments, infinite or NaN ones included,
    [calcHoverThrottle] returns either NaN or a finite percentage in
    [0, 100], never an infinite or negative value; so does the hoverThrottle
    of [runFullSimulation], and when it is NaN the check hoverThrottleOk
    fails. *)
Theorem calcHoverThrottle_range :
  (forall W n maxT c : number,
      calcHoverThrottle W n maxT c = NaN \/
      exists t : R, calcHoverThrottle W n maxT c = Fin t /\ 0 <= t <= 100) /\
  (forall s : Sections,
      (Body.hoverThrottle s = NaN /\
       Validations.hoverThrottleOk (Body.validations s) = false) \/
      exists t : R, Body.hoverThrottle s = Fin t /\ 0 <= t <= 100).
Proof.
  assert (H : forall W n maxT c : number,
             calcHoverThrottle W n maxT c = NaN \/
             exists t : R,
               calcHoverThrottle W n maxT c = Fin t /\ 0 <= t <= 100).
  { intros W n maxT c. unfold calcHoverThrottle.
    destruct (maxT <= Fin 0)%js.
    - right. exists 100. split; [reflexivity | lra].
    - apply min_max_percent. }
  split; [exact H |].
  intros s. unfold Body.validations. cbn [Validations.hoverThrottleOk].
  unfold Body.hoverThrottle.
  destruct (H (Body.totalWeightKg s) (Body.numMotors s)
              (Body.maxThrustPerMotor s) (Body.coaxFactor s)) as [E | E].
  - left. rewrite E. split; reflexivity.
  - right. exact E.
Qed.

(** ** Battery sag and flight time *)

Lemma chemistry_inherited (chemistry : string) :
  inherited chemistry = true ->
  chemistry_or_LiPo chemistry = CHEMISTRY_inherited.
Proof.
  intros H. unfold chemistry_or_LiPo, CHEMISTRY, lookup_str.
  destruct (String.eqb_spec chemistry "LiPo") as [-> | _];
    [discriminate H |].
  destruct (String.eqb_spec chemistry "Li-ion") as [-> | _];
    [discriminate H |].
  destruct (String.eqb_spec chemistry "LiHV") as [-> | _];
    [discriminate H |].
  now rewrite H.
Qed.

(** X14. For a chemistry that is not a name inherited from
    [Object.prototype], a cell count and an internal resistance that are not
    negative, the voltage returned by [calcBatteryVoltageUnderLoad] does not
    increase with the current, and for a current that is not negative it is
    at most chem.nominal * cells.  For an inherited name, as "constructor",
    the voltage is NaN at every current. *)
Theorem calcBatteryVoltageUnderLoad_monotone
  (chemistry : string) (cells ir i1 i2 : R) (capacityMah cRating : number) :
  0 <= cells -> 0 <= ir -> i1 <= i2 ->
  (inherited chemistry = false ->
   exists (v1 v2 cnom : R),
     voltage (calcBatteryVoltageUnderLoad
                (Fin cells) chemistry (Fin i1) capacityMah cRating (Fin ir))
     = Fin v1 /\
     voltage (calcBatteryVoltageUnderLoad
                (Fin cells) chemistry (Fin i2) capacityMah cRating (Fin ir))
     = Fin v2 /\
     nominal (chemistry_or_LiPo chemistry) = Fin cnom /\
     v2 <= v1 /\
     (0 <= i1 -> v1 <= cnom * cells)) /\
  (inherited chemistry = true ->
   voltage (calcBatteryVoltageUnderLoad
              (Fin cells) chemistry (Fin i1) capacityMah cRating (Fin ir))
   = NaN).
Proof.
  intros Hcells Hir Hi. split.
  - intros Hown.
    destruct (chemistry_min_lt_nominal chemistry Hown)
      as (cmin & cnom & Hmin & Hnom & Hlt).
    unfold calcBatteryVoltageUnderLoad. cbn [voltage].
    rewrite Hmin, Hnom. rewrite div_Fin by lra.
    rewrite !mul_Fin, !sub_Fin, !Math_max_Fin.
    do 3 eexists.
    split; [reflexivity | split; [reflexivity | split; [reflexivity |]]].
    assert (Hr : 0 <= ir / 1000 * cells).
    { apply Rmult_le_pos; lra. }
    split.
    + apply Rle_max_compat_l. nra.
    + intros Hi1. apply Rmax_lub; nra.
  - intros Hinh. unfold calcBatteryVoltageUnderLoad. cbn [voltage].
    rewrite (chemistry_inherited chemistry Hinh). reflexivity.
Qed.

Lemma calcBatteryVoltageUnderLoad_monotone_witness :
  (exists (v1 v2 cnom : R),
      voltage (calcBatteryVoltageUnderLoad
                 (Fin 4) "LiPo" (Fin 10) (Fin 5000) (Fin 20) (Fin 5))
      = Fin v1 /\
      voltage (calcBatteryVoltageUnderLoad
                 (Fin 4) "LiPo" (Fin 40) (Fin 5000) (Fin 20) (Fin 5))
      = Fin v2 /\
      nominal (chemistry_or_LiPo "LiPo") = Fin cnom /\
      v2 <= v1 /\
      (0 <= 10 -> v1 <= cnom * 4)) /\
  voltage (calcBatteryVoltageUnderLoad
             (Fin 4) "constructor" (Fin 10) (Fin 5000) (Fin 20) (Fin 5))
  = NaN.
Proof.
  split.
  - apply (calcBatteryVoltageUnderLoad_monotone "LiPo" 4 5 10 40); try lra.
    reflexivity.
  - apply (calcBatteryVoltageUnderLoad_monotone
             "constructor" 4 5 10 40 (Fin 5000) (Fin 20)); try lra.
    reflexivity.
Defined.

(** X15. For a positive finite current [calcFlightTime] obeys
    time * current = capacityMah * dischargePercent * 60 / 1000, so the
    flight time is inversely proportional to the current; with a usable
    capacity that is not negative a larger current never gives a longer
    flight. *)
Theorem calcFlightTime_inverse (cap dod i1 i2 : R) :
  0 < i1 -> i1 <= i2 ->
  exists t1 t2 : R,
    calcFlightTime (Fin cap) (Fin dod) (Fin i1) = Fin t1 /\
    calcFlightTime (Fin cap) (Fin dod) (Fin i2) = Fin t2 /\
    t1 * i1 = cap * dod * 60 / 1000 /\
    t2 * i2 = cap * dod * 60 / 1000 /\
    (0 <= cap * dod -> t2 <= t1).
Proof.
  intros Hi1 Hi2.
  assert (Hft : forall i : R,
             0 < i ->
             calcFlightTime (Fin cap) (Fin dod) (Fin i)
             = Fin (cap * dod / (i * 1000) * 60)).
  { intros i Hi. unfold calcFlightTime.
    rewrite le_Fin, Rle_b_false by lra.
    now rewrite !mul_Fin, div_Fin, mul_Fin by lra. }
  rewrite !Hft by lra. do 2 eexists.
  split; [reflexivity | split; [reflexivity |]].
  split; [field; lra | split; [field; lra |]].
  intros Hcap.
  assert (Hinv : / (i2 * 1000) <= / (i1 * 1000)).
  { apply Rinv_le_contravar; lra. }
  unfold Rdiv. nra.
Qed.

Lemma calcFlightTime_inverse_witness :
  exists t1 t2 : R,
    calcFlightTime (Fin 5000) (Fin 0.8) (Fin 20) = Fin t1 /\
    calcFlightTime (Fin 5000) (Fin 0.8) (Fin 40) = Fin t2 /\
    t1 * 20 = 5000 * 0.8 * 60 / 1000 /\
    t2 * 40 = 5000 * 0.8 * 60 / 1000 /\
    (0 <= 5000 * 0.8 -> t2 <= t1).
Proof.
  apply (calcFlightTime_inverse 5000 0.8 20 40); lra.
Defined.

(* ================================================================== *)
(** * Properties of the helpers *)

(** ** [clamp] and [getStatus] *)

Lemma clamp_Fin (v lo hi : R) :
  clamp (Fin v) (Fin lo) (Fin hi) = Fin (Rmax lo (Rmin hi v)).
Proof. unfold clamp. now rewrite Math_min_Fin, Math_max_Fin. Qed.

(** X16. On finite arguments [clamp(value, min, max)] lies in [min, max]
    when min <= max, is the value itself when the value lies in that
    interval, and is idempotent; with the bounds swapped (max < min) it
    returns min whatever the value; a NaN value or bound gives NaN. *)
Theorem clamp_spec :
  (forall v lo hi : R,
      exists r : R,
        clamp (Fin v) (Fin lo) (Fin hi) = Fin r /\
        (lo <= hi -> lo <= r <= hi) /\
        (lo <= v <= hi -> r = v) /\
        (hi < lo -> r = lo) /\
        clamp (Fin r) (Fin lo) (Fin hi) = Fin r) /\
  (forall x y : number,
      clamp NaN x y = NaN /\ clamp x NaN y = NaN /\ clamp x y NaN = NaN).
Proof.
  split.
  - intros v lo hi. rewrite clamp_Fin. eexists. split; [reflexivity |].
    split; [apply clamp_range_Fin |].
    split; [| split].
    + intros [H1 H2]. rewrite Rmin_right by exact H2. now apply Rmax_right.
    + intros H. apply Rmax_left.
      apply Rle_trans with hi; [apply Rmin_l | lra].
    + rewrite clamp_Fin. f_equal.
      unfold Rmin. destruct (Rle_dec hi v) as [H | H].
      * destruct (Rle_dec hi (Rmax lo hi)) as [H' | H']; [reflexivity |].
        exfalso. apply H'. apply Rmax_r.
      * destruct (Rle_dec hi (Rmax lo v)) as [H' | H'].
        -- unfold Rmax in *. destruct (Rle_dec lo v), (Rle_dec lo hi); lra.
        -- unfold Rmax. destruct (Rle_dec lo v) as [H1 | H1].
           ++ destruct (Rle_dec lo v); [reflexivity | contradiction].
           ++ destruct (Rle_dec lo lo); [reflexivity | lra].
  - intros x y. unfold clamp. destruct x, y; repeat split; reflexivity.
Qed.

Lemma clamp_spec_witness :
  exists r : R,
    clamp (Fin 150) (Fin 0) (Fin 100) = Fin r /\ 0 <= r <= 100.
Proof.
  destruct clamp_spec as [H _].
  destruct (H 150 0 100) as (r & E & Hrange & _).
  exists r. split; [exact E | apply Hrange; lra].
Defined.

Lemma lt_neg (x y : number) : (neg x < neg y)%js = (y < x)%js.
Proof.
  destruct x as [| | |a], y as [| | |b]; try reflexivity.
  cbn. unfold Rlt_b.
  destruct (Rlt_dec (- a) (- b)), (Rlt_dec b a); try reflexivity; lra.
Qed.

(** X17. [getStatus]: a NaN value is reported "safe" in both directions;
    the inverted direction is the plain one on the negated value and
    thresholds; and in the plain direction with finite arguments the status
    is "danger" exactly above the danger threshold, "caution" above the
    caution threshold up to the danger threshold and "safe" otherwise (so
    with the danger threshold below the caution threshold "caution" never
    occurs). *)
Theorem getStatus_spec :
  (forall (c d : number) (inverted : bool),
      getStatus NaN c d inverted = "safe"%string) /\
  (forall v c d : number,
      getStatus v c d true = getStatus (neg v) (neg c) (neg d) false) /\
  (forall v c d : R,
      getStatus (Fin v) (Fin c) (Fin d) false
      = (if Rlt_dec d v then "danger"
         else if Rlt_dec c v then "caution" else "safe")%string) /\
  (forall v c d : R,
      d <= c -> getStatus (Fin v) (Fin c) (Fin d) false <> "caution"%string).
Proof.
  assert (Hplain : forall v c d : R,
             getStatus (Fin v) (Fin c) (Fin d) false
             = (if Rlt_dec d v then "danger"
                else if Rlt_dec c v then "caution" else "safe")%string).
  { intros v c d. unfold getStatus, gt. cbn [lt]. unfold Rlt_b.
    destruct (Rlt_dec d v), (Rlt_dec c v); reflexivity. }
  repeat split.
  - intros c d inverted. unfold getStatus, gt.
    destruct inverted, c, d; reflexivity.
  - intros v c d. unfold getStatus, gt. now rewrite !lt_neg.
  - exact Hplain.
  - intros v c d Hdc. rewrite Hplain.
    destruct (Rlt_dec d v); [discriminate |].
    destruct (Rlt_dec c v); [lra | discriminate].
Qed.

Lemma getStatus_spec_witness :
  getStatus (Fin 70) (Fin 80) (Fin 60) false <> "caution"%string.
Proof.
  destruct getStatus_spec as (_ & _ & _ & H). apply H. lra.
Defined.

(** ** Unit conversion *)

Lemma conversion_factor
  (builtin : string -> string -> bool) (units : Units) (type : string)
  (conv : Conversion) :
  conversion_of builtin units type = Entry conv ->
  exists f : R, factor conv = Fin f /\ 0 < f.
Proof.
  unfold conversion_of, CONVERSIONS. cbn [lookup_str].
  destruct (String.eqb type "distance");
    [| destruct (String.eqb type "weight")];
    [| | destruct (inherited type);
         [destruct (builtin type _) |]; discriminate];
    (destruct (lookup_str units type) as [unit |]; [| discriminate]);
    cbn [lookup_str];
    repeat match goal with
      | |- context [String.eqb unit ?k] => destruct (String.eqb unit k)
      end;
    try (destruct (inherited unit); discriminate);
    intros [= <-]; cbn [factor];
    eexists; (split; [reflexivity | lra]).
Qed.

(** X18. As long as the read [CONVERSIONS[type]?.[units[type]]] does not end
    in a value of the built-in library, [toInternal] undoes [toDisplay] and
    [toDisplay] undoes [toInternal], for every value: [null], [undefined]
    and non-finite numbers are passed through unchanged, an unknown type or
    unit converts nothing, and a known unit multiplies, respectively
    divides, by its non-zero factor.  That is so whenever neither the type
    nor the unit selected for it is a name inherited from
    [Object.prototype].  When the read does end in a built-in value - as
    for the type "weight" with the unit "constructor" selected - both
    functions turn every finite number into NaN. *)
Theorem units_round_trip
  (builtin : string -> string -> bool) (units : Units) (type : string) :
  (conversion_of builtin units type <> Builtin ->
   forall v : value number,
     toInternal builtin units (toDisplay builtin units v type) type = v /\
     toDisplay builtin units (toInternal builtin units v type) type = v) /\
  (inherited type = false ->
   (forall unit : string,
       lookup_str units type = Some unit -> inherited unit = false) ->
   conversion_of builtin units type <> Builtin) /\
  (conversion_of builtin units type = Builtin ->
   forall x : R,
     toDisplay builtin units (Val (Fin x)) type = Val NaN /\
     toInternal builtin units (Val (Fin x)) type = Val NaN).
Proof.
  split; [| split].
  - intros Hconv v.
    destruct v as [| |x]; [split; reflexivity .. |].
    destruct x as [| | |r]; [split; reflexivity .. |].
    unfold toDisplay, toInternal. cbn [isFinite negb].
    destruct (conversion_of builtin units type) as [conv | |] eqn:E.
    + destruct (conversion_factor _ _ _ _ E) as (f & Hf & Hpos).
      rewrite Hf. rewrite !mul_Fin, !div_Fin by lra. cbn [isFinite negb].
      rewrite !mul_Fin.
      split; do 2 f_equal; field; lra.
    + contradiction.
    + cbn [isFinite negb]. split; reflexivity.
  - intros Htype Hunit. unfold conversion_of.
    destruct (lookup_str CONVERSIONS type) as [table |].
    + destruct (lookup_str units type) as [unit |]; [| discriminate].
      destruct (lookup_str table unit); [discriminate |].
      now rewrite (Hunit unit eq_refl).
    + now rewrite Htype.
  - intros E x. unfold toDisplay, toInternal. cbn [isFinite negb].
    rewrite E. split; reflexivity.
Qed.

Lemma units_round_trip_witness :
  let builtin : string -> string -> bool := fun _ _ => false in
  (toInternal builtin [("weight", "kg")]%string
     (toDisplay builtin [("weight", "kg")]%string (Val (Fin 1500)) "weight")
     "weight"
   = Val (Fin 1500)) /\
  toDisplay builtin [("weight", "constructor")]%string (Val (Fin 1500))
    "weight"
  = Val NaN.
Proof.
  intros builtin. split.
  - destruct (units_round_trip builtin [("weight", "kg")]%string "weight")
      as (Hround & Hown & _).
    apply Hround. apply Hown; [reflexivity |].
    intros unit [= <-]. reflexivity.
  - destruct (units_round_trip builtin [("weight", "constructor")]%string
                "weight") as (_ & _ & Hnan).
    apply Hnan. reflexivity.
Defined.

Lemma lookup_set_same {A : Type} (obj : list (string * A)) (k : string) (v : A) :
  lookup_str (set_property obj k v) k = Some v.
Proof.
  induction obj as [| [k' w] rest IH]; cbn.
  - now rewrite String.eqb_refl.
  - destruct (String.eqb k k') eqn:E; cbn; rewrite E; [reflexivity | exact IH].
Qed.

Lemma lookup_set_other {A : Type}
  (obj : list (string * A)) (k k' : string) (v : A) :
  k' <> k -> lookup_str (set_property obj k v) k' = lookup_str obj k'.
Proof.
  intros Hne. induction obj as [| [k0 w] rest IH]; cbn.
  - apply String.eqb_neq in Hne. now rewrite Hne.
  - destruct (String.eqb k k0) eqn:E; cbn.
    + apply String.eqb_eq in E. subst k0.
      apply String.eqb_neq in Hne. now rewrite Hne.
    + destruct (String.eqb k' k0); [reflexivity | exact IH].
Qed.

(** X19. After [setUnit(type, unit)] the conversion of a type of the table
    is the table entry of the unit - a built-in value when the table has no
    such unit but the unit is a name inherited from [Object.prototype], and
    none otherwise - whatever was selected before; for a type that is no
    key of the table the read ends in the built-in library or nowhere; and
    the conversions of all other types are as before.  In particular
    selecting "kg" makes [toDisplay] turn grams into kilograms and
    [getAbbr] return "kg". *)
Theorem setUnit_spec
  (builtin : string -> string -> bool) (prev : Units) (type unit : string) :
  (forall table : list (string * Conversion),
      lookup_str CONVERSIONS type = Some table ->
      conversion_of builtin (setUnit prev type unit) type
      = match lookup_str table unit with
        | Some conv => Entry conv
        | None => if inherited unit then Builtin else NoConversion
        end) /\
  (lookup_str CONVERSIONS type = None ->
   conversion_of builtin (setUnit prev type unit) type
   = if inherited type && builtin type unit then Builtin else NoConversion) /\
  (forall other : string,
      other <> type ->
      conversion_of builtin (setUnit prev type unit) other
      = conversion_of builtin prev other) /\
  (forall grams : R,
      toDisplay builtin (setUnit prev "weight" "kg") (Val (Fin grams)) "weight"
      = Val (Fin (grams * 0.001))) /\
  getAbbr builtin (setUnit prev "weight" "kg") "weight" = "kg"%string.
Proof.
  assert (Hsame : forall (t u : string) (table : list (string * Conversion)),
             lookup_str CONVERSIONS t = Some table ->
             conversion_of builtin (setUnit prev t u) t
             = match lookup_str table u with
               | Some conv => Entry conv
               | None => if inherited u then Builtin else NoConversion
               end).
  { intros t u table Htable. unfold conversion_of, setUnit.
    now rewrite Htable, lookup_set_same. }
  split; [apply Hsame |]. split; [| split; [| split]].
  - intros Hnone. unfold conversion_of, setUnit.
    rewrite Hnone, lookup_set_same.
    destruct (inherited type); reflexivity.
  - intros other Hne. unfold conversion_of, setUnit.
    now rewrite (lookup_set_other prev type other unit Hne).
  - intros grams. unfold toDisplay. cbn [isFinite negb].
    rewrite (Hsame "weight" "kg" _ eq_refl)%string. reflexivity.
  - unfold getAbbr.
    rewrite (Hsame "weight" "kg" _ eq_refl)%string. reflexivity.
Qed.

Lemma setUnit_spec_witness :
  let builtin : string -> string -> bool := fun _ _ => false in
  conversion_of builtin
    (setUnit [("distance", "m"); ("weight", "g")]%string "weight" "lbs")
    "weight"
  = Entry {| label := "Pounds"; abbr := "lbs"; factor := Fin 0.00220462 |} /\
  conversion_of builtin
    (setUnit [("distance", "m"); ("weight", "g")]%string "weight" "lbs")
    "distance"
  = Entry {| label := "Meters"; abbr := "m"; factor := Fin 1 |}.
Proof.
  intros builtin.
  destruct (setUnit_spec builtin [("distance", "m"); ("weight", "g")]%string
              "weight" "lbs") as (Hsame & _ & Hother & _).
  split.
  - rewrite (Hsame _ eq_refl). reflexivity.
  - rewrite Hother by discriminate. reflexivity.
Defined.

(* ================================================================== *)
(** * Properties of the component storage *)

(** No key of [KEYS] is a name inherited from [Object.prototype]. *)
Lemma KEYS_not_inherited (c key : string) :
  lookup_str KEYS c = Some key -> inherited c = false.
Proof.
  unfold KEYS, lookup_str.
  repeat match goal with
    | |- context [String.eqb c ?k] =>
        destruct (String.eqb_spec c k) as [-> | _]; [reflexivity |]
    end.
  discriminate.
Qed.

Lemma getKey_valid (c key : string) (st : Store) :
  lookup_str KEYS c = Some key -> getKey c st = (Returns key, st).
Proof. intros H. unfold getKey. now rewrite H. Qed.

Lemma getKey_invalid (c : string) (st : Store) :
  lookup_str KEYS c = None -> inherited c = false ->
  getKey c st = (ThrowsError ("Invalid collection: " ++ c)%string, st).
Proof. intros H Hi. unfold getKey. now rewrite H, Hi. Qed.

Lemma getKey_inherited (c : string) (st : Store) :
  lookup_str KEYS c = None -> inherited c = true ->
  getKey c st = (Returns (member_text c), st).
Proof. intros H Hi. unfold getKey. now rewrite H, Hi. Qed.

Lemma loadData_invalid (c : string) (st : Store) :
  lookup_str KEYS c = None -> inherited c = false ->
  loadData c st = (ThrowsError ("Invalid collection: " ++ c)%string, st).
Proof.
  intros H Hi. unfold loadData, sto_bind.
  now rewrite (getKey_invalid c st H Hi).
Qed.

Lemma loadData_stored (c key : string) (st : Store) (items : list Component.t) :
  lookup_str KEYS c = Some key ->
  lookup_str (localStorage st) key = Some (ItemsText items) ->
  loadData c st = (Returns (FreshArray, items), st).
Proof.
  intros Hk Hs. unfold loadData, sto_bind, getItem.
  rewrite (getKey_valid c key st Hk). now rewrite Hs.
Qed.

Lemma loadData_unseeded (c key : string) (st : Store) :
  lookup_str KEYS c = Some key ->
  lookup_str (localStorage st) key = None \/
  lookup_str (localStorage st) key = Some EmptyText ->
  loadData c st
  = match lookup_str (DEFAULTS st) c with
    | Some d => (Returns (DefaultsArray c, d), saved st key d)
    | None => (Returns (FreshArray, []), saved st key [])
    end.
Proof.
  intros Hk Hs. unfold loadData, sto_bind, getItem.
  rewrite (getKey_valid c key st Hk).
  destruct Hs as [Hs | Hs]; rewrite Hs; unfold defaults_or_empty;
    rewrite (KEYS_not_inherited c key Hk);
    destruct (lookup_str (DEFAULTS st) c); reflexivity.
Qed.

(** For a name inherited from [Object.prototype], with nothing stored under
    the member's text and no array of that name in [DEFAULTS], [loadData]
    stores what [JSON.stringify] makes of the member and returns the
    member. *)
Lemma loadData_inherited (c : string) (st : Store) :
  lookup_str KEYS c = None -> inherited c = true ->
  lookup_str (localStorage st) (member_text c) = None ->
  lookup_str (DEFAULTS st) c = None ->
  loadData c st
  = (ReturnsOther (Member c),
     {| localStorage :=
          set_property (localStorage st) (member_text c) (member_json c);
        DEFAULTS := DEFAULTS st |}).
Proof.
  intros Hk Hi Hs Hd. unfold loadData, sto_bind, getItem.
  rewrite (getKey_inherited c st Hk Hi). rewrite Hs.
  unfold defaults_or_empty. now rewrite Hd, Hi.
Qed.

Lemma saveData_valid (c key : string) (data : list Component.t) (st : Store) :
  lookup_str KEYS c = Some key ->
  saveData c data st = (Returns tt, saved st key data).
Proof.
  intros Hk. unfold saveData, sto_bind. now rewrite (getKey_valid c key st Hk).
Qed.

Lemma loadData_saved (c key : string) (data : list Component.t) (st : Store) :
  lookup_str KEYS c = Some key ->
  loadData c (saved st key data)
  = (Returns (FreshArray, map json_component data), saved st key data).
Proof.
  intros Hk. apply (loadData_stored c key); [exact Hk |].
  unfold saved, JSON_stringify. cbn [localStorage]. apply lookup_set_same.
Qed.

Lemma array_of_returns {A : Type} (m : Sto A) (st st' : Store) (a : A) :
  m st = (Returns a, st') -> array_of m st = (Returns a, st').
Proof. intros H. unfold array_of. now rewrite H. Qed.

(** X20. A collection name that is neither a key of [KEYS] nor a name
    inherited from [Object.prototype] makes every function of the storage
    API throw the error "Invalid collection: <name>" without touching the
    store; [resetStorage] does so too unless the name is empty.  A name
    inherited from [Object.prototype], as "constructor", passes the check
    of [getKey]: with nothing stored under the member's text and no such
    array in [DEFAULTS], [getAll] stores a text under that key and returns
    the inherited member, and the other four functions store the same text
    and throw a TypeError. *)
Theorem storage_invalid_collection
  (c : string) (n : number) (item : Component.t) (st : Store) :
  lookup_str KEYS c = None ->
  (inherited c = false ->
   let error := ("Invalid collection: " ++ c)%string in
   getAll c st = (ThrowsError error, st) /\
   getById c n st = (ThrowsError error, st) /\
   addComponent c item st = (ThrowsError error, st) /\
   updateComponent c n item st = (ThrowsError error, st) /\
   deleteComponent c n st = (ThrowsError error, st) /\
   (c <> ""%string -> resetStorage (Val c) st = (ThrowsError error, st))) /\
  (inherited c = true ->
   lookup_str (localStorage st) (member_text c) = None ->
   lookup_str (DEFAULTS st) c = None ->
   let written :=
     {| localStorage :=
          set_property (localStorage st) (member_text c) (member_json c);
        DEFAULTS := DEFAULTS st |} in
   getAll c st = (ReturnsOther (Member c), written) /\
   getById c n st = (ThrowsTypeError, written) /\
   addComponent c item st = (ThrowsTypeError, written) /\
   updateComponent c n item st = (ThrowsTypeError, written) /\
   deleteComponent c n st = (ThrowsTypeError, written)).
Proof.
  intros H. split.
  - intros Hi error. pose proof (loadData_invalid c st H Hi) as Hload.
    unfold getAll, getById, addComponent, updateComponent, deleteComponent,
      sto_bind, array_of. rewrite Hload.
    repeat split.
    intros Hne. unfold resetStorage.
    apply String.eqb_neq in Hne. rewrite Hne.
    unfold sto_bind. now rewrite (getKey_invalid c st H Hi).
  - intros Hi Hs Hd written.
    pose proof (loadData_inherited c st H Hi Hs Hd) as Hload.
    unfold getAll, getById, addComponent, updateComponent, deleteComponent,
      sto_bind, array_of. rewrite Hload.
    repeat split.
Qed.

Lemma storage_invalid_collection_witness :
  let st := {| localStorage := []; DEFAULTS := [] |} in
  getAll "frames" st = (ThrowsError "Invalid collection: frames", st) /\
  getAll "constructor" st
  = (ReturnsOther (Member "constructor"),
     {| localStorage :=
          [("function Object() { [native code] }", Unparsable)]%string;
        DEFAULTS := [] |}).
Proof.
  intros st.
  pose (item := {| Component.id := Undefined; Component.fields := [] |}).
  split.
  - destruct (storage_invalid_collection "frames" (Fin 1) item st eq_refl)
      as [Hthrow _].
    apply Hthrow. reflexivity.
  - destruct (storage_invalid_collection "constructor" (Fin 1) item st eq_refl)
      as [_ Hmember].
    apply Hmember; reflexivity.
Defined.


(** ** Rounding to a double *)

Lemma ln_2_pos : 0 < ln 2.
Proof. rewrite <- ln_1. apply ln_increasing; lra. Qed.

Lemma log2_pow (n : nat) : ln (2 ^ n) / ln 2 = INR n.
Proof.
  rewrite ln_pow by lra. field. pose proof ln_2_pos. lra.
Qed.

(** The binary logarithm of a number between two powers of 2. *)
Lemma log2_between (x : R) (n : nat) :
  2 ^ n <= x -> x < 2 ^ S n -> Int_part (ln x / ln 2) = Z.of_nat n.
Proof.
  intros Hlo Hhi. pose proof ln_2_pos as H2.
  assert (Hn : 0 < 2 ^ n) by (apply pow_lt; lra).
  assert (Hinv : 0 < / ln 2) by now apply Rinv_0_lt_compat.
  assert (H1 : INR n <= ln x / ln 2).
  { rewrite <- (log2_pow n). apply Rmult_le_compat_r; [lra |].
    destruct Hlo as [Hlo | <-]; [left; apply ln_increasing; lra | lra]. }
  assert (H3 : ln x / ln 2 < INR n + 1).
  { rewrite <- S_INR, <- (log2_pow (S n)).
    apply Rmult_lt_compat_r; [exact Hinv |]. apply ln_increasing; lra. }
  symmetry. apply Int_part_spec. rewrite <- INR_IZR_INZ. lra.
Qed.

Lemma round_even_IZR (n : Z) : round_even (IZR n) = n.
Proof.
  unfold round_even. rewrite Int_part_IZR.
  rewrite Rlt_b_true by lra. reflexivity.
Qed.

Lemma powerRZ_2_nat (n : nat) : powerRZ 2 (Z.of_nat n) = 2 ^ n.
Proof. symmetry. apply pow_powerRZ. Qed.

Lemma powerRZ_2_neg (n : nat) : powerRZ 2 (- Z.of_nat n) = / 2 ^ n.
Proof. now rewrite powerRZ_neg', powerRZ_2_nat. Qed.

Lemma two_pow_IZR (n : nat) : 2 ^ n = IZR (2 ^ Z.of_nat n).
Proof. apply (pow_IZR 2 n). Qed.

(** A number that is an integer multiple of the spacing of the doubles
    around it, and below the overflow threshold, is a double. *)
Lemma binary64_multiple (r : R) (n e : Z) :
  r <> 0 ->
  Z.max (Int_part (ln (Rabs r) / ln 2) - 52) (-1074) = e ->
  r = IZR n * powerRZ 2 e ->
  Rabs r < 2 ^ 1024 ->
  binary64 r = Fin r.
Proof.
  intros Hr He Hn Hmax. unfold binary64.
  rewrite Req_b_false by exact Hr. rewrite He. cbv zeta.
  assert (Hp : 0 < powerRZ 2 e) by (apply powerRZ_lt; lra).
  replace (r / powerRZ 2 e) with (IZR n) by (rewrite Hn; field; lra).
  rewrite round_even_IZR, <- Hn.
  change 1024%Z with (Z.of_nat 1024). rewrite powerRZ_2_nat.
  now rewrite Rle_b_false by exact Hmax.
Qed.

Lemma two_pow_53_lt : 2 ^ 53 < 2 ^ 1024.
Proof. apply Rlt_pow; [lra | lia]. Qed.

(** Every integer up to 2^53 in magnitude is a double. *)
Lemma binary64_integer (z : Z) :
  (Z.abs z <= 2 ^ 53)%Z -> binary64 (IZR z) = Fin (IZR z).
Proof.
  intros Hz.
  destruct (Z.eq_dec z 0) as [-> | Hz0].
  { unfold binary64. now rewrite Req_b_true by reflexivity. }
  assert (Habs : Rabs (IZR z) = IZR (Z.abs z)) by (symmetry; apply abs_IZR).
  assert (H1 : 1 <= IZR (Z.abs z)) by (apply IZR_le; lia).
  assert (H53 : IZR (Z.abs z) <= 2 ^ 53).
  { rewrite (two_pow_IZR 53). apply IZR_le. exact Hz. }
  assert (Hne : IZR z <> 0) by (apply not_0_IZR; exact Hz0).
  pose proof two_pow_53_lt as Hbig.
  destruct (Z.eq_dec (Z.abs z) (2 ^ 53)) as [Htop | Hlow].
  - (* the largest one: spacing 2 *)
    apply (binary64_multiple _ (z / 2) 1 Hne).
    + rewrite Habs, Htop.
      change (2 ^ 53)%Z with (2 ^ Z.of_nat 53)%Z.
      rewrite <- (two_pow_IZR 53), log2_pow.
      rewrite INR_IZR_INZ, Int_part_IZR. reflexivity.
    + change (powerRZ 2 1) with (2 * 1). rewrite Rmult_1_r.
      rewrite <- (mult_IZR _ 2). f_equal.
      assert (Hdiv : (z = 2 ^ 53 \/ z = - 2 ^ 53)%Z) by lia.
      destruct Hdiv as [-> | ->]; reflexivity.
    + rewrite Habs. lra.
  - (* below 2^53: the binade of the number *)
    assert (Hlt : IZR (Z.abs z) < 2 ^ 53).
    { rewrite (two_pow_IZR 53). apply IZR_lt. lia. }
    assert (HL : (0 <= Int_part (ln (Rabs (IZR z)) / ln 2) <= 52)%Z).
    { rewrite Habs. pose proof ln_2_pos as H2.
      assert (Hinv : 0 < / ln 2) by now apply Rinv_0_lt_compat.
      assert (Ha : 0 <= ln (IZR (Z.abs z)) / ln 2).
      { apply Rmult_le_pos; [| lra]. rewrite <- ln_1.
        destruct H1 as [H1 | <-]; [left; apply ln_increasing; lra | lra]. }
      assert (Hb : ln (IZR (Z.abs z)) / ln 2 < 53).
      { replace 53 with (INR 53) by (simpl; lra).
        rewrite <- (log2_pow 53).
        apply Rmult_lt_compat_r; [exact Hinv |]. apply ln_increasing; lra. }
      apply Int_part_bounds; simpl; lra. }
    set (L := Int_part (ln (Rabs (IZR z)) / ln 2)) in *.
    set (k := Z.to_nat (52 - L)).
    assert (Hk : (L - 52 = - Z.of_nat k)%Z) by (unfold k; lia).
    apply (binary64_multiple _ (z * 2 ^ Z.of_nat k) (- Z.of_nat k) Hne).
    + fold L. lia.
    + rewrite powerRZ_2_neg, mult_IZR, <- (two_pow_IZR k).
      field. apply pow_nonzero. lra.
    + rewrite Habs. lra.
Qed.

(** Above 2^53 the doubles are the even integers: 2^53 + 1 lies half way
    between two of them and is rounded to 2^53. *)
Lemma binary64_2_53_plus_1 :
  binary64 (9007199254740992 + 1) = Fin 9007199254740992.
Proof.
  assert (H53 : 2 ^ 53 = 9007199254740992) by (simpl; lra).
  assert (H54 : 2 ^ 54 = 2 * 9007199254740992) by (simpl; lra).
  unfold binary64. rewrite Req_b_false by lra.
  rewrite (Rabs_right (9007199254740992 + 1)) by lra.
  rewrite (log2_between _ 53) by lra.
  change (Z.max (Z.of_nat 53 - 52) (-1074)) with 1%Z. cbv zeta.
  change (powerRZ 2 1) with (2 * 1). rewrite Rmult_1_r.
  assert (Hr : round_even ((9007199254740992 + 1) / 2)
               = 4503599627370496%Z).
  { unfold round_even.
    assert (Hi : Int_part ((9007199254740992 + 1) / 2)
                 = 4503599627370496%Z).
    { symmetry. apply Int_part_spec. lra. }
    rewrite Hi. rewrite Rlt_b_false by lra.
    rewrite Rlt_b_false by lra. reflexivity. }
  rewrite Hr.
  change 1024%Z with (Z.of_nat 1024). rewrite powerRZ_2_nat.
  rewrite Rle_b_false.
  - f_equal. lra.
  - pose proof two_pow_53_lt as Hbig.
    rewrite Rabs_right by lra. lra.
Qed.

(** ** Adding a component and looking it up *)

Lemma Rmax_IZR (a b : Z) : Rmax (IZR a) (IZR b) = IZR (Z.max a b).
Proof.
  unfold Rmax. destruct (Rle_dec (IZR a) (IZR b)) as [H | H].
  - apply le_IZR in H. now rewrite Z.max_r.
  - apply Rnot_le_lt, lt_IZR in H. rewrite Z.max_l; [reflexivity | lia].
Qed.

(** [i.id || 0] on a safe identifier. *)
Lemma or_default_safe_id (i : Component.t) :
  safe_id i ->
  exists z : Z,
    or_default (Component.id i) (Fin 0) = Fin (IZR z) /\
    (Z.abs z < 2 ^ 53)%Z /\
    (forall x : R, Component.id i = Val (Fin x) -> x = IZR z).
Proof.
  intros Hsafe. unfold safe_id in Hsafe.
  destruct (Component.id i) as [| |x].
  - exists 0%Z. split; [reflexivity | split; [lia | discriminate]].
  - exists 0%Z. split; [reflexivity | split; [lia | discriminate]].
  - destruct (Hsafe x eq_refl) as [-> | (z & -> & Hz)].
    + exists 0%Z. split; [reflexivity | split; [lia | discriminate]].
    + exists z. split; [apply or_default_Fin_zero |].
      split; [exact Hz |]. intros y [= <-]. reflexivity.
Qed.

(** [items.reduce((max, i) => Math.max(max, i.id || 0), start)] is a safe
    integer that bounds every identifier when all are safe. *)
Lemma max_id_safe (items : list Component.t) (start : Z) :
  (0 <= start < 2 ^ 53)%Z ->
  Forall safe_id items ->
  exists m : Z,
    fold_left
      (fun (max : number) (i : Component.t) =>
         Math_max max (or_default (Component.id i) (Fin 0)))
      items (Fin (IZR start)) = Fin (IZR m) /\
    (start <= m < 2 ^ 53)%Z /\
    (forall (i : Component.t) (x : R),
        In i items -> Component.id i = Val (Fin x) -> x <= IZR m) /\
    (m = start \/
     exists i : Component.t,
       In i items /\ Component.id i = Val (Fin (IZR m))).
Proof.
  intros Hstart H. revert start Hstart.
  induction H as [| i rest Hsafe _ IH]; intros start Hstart.
  - exists start.
    split; [reflexivity | split; [lia | split; [contradiction | now left]]].
  - cbn [fold_left].
    destruct (or_default_safe_id i Hsafe) as (z & Hz & Hzs & Hid).
    rewrite Hz, Math_max_Fin, Rmax_IZR.
    destruct (IH (Z.max start z)) as (m & Hm & Hle & Hall & Hmax); [lia |].
    exists m. split; [exact Hm |]. split; [lia |]. split.
    + intros j y [<- | Hin] Hy.
      * rewrite (Hid y Hy). apply IZR_le. lia.
      * now apply (Hall j).
    + destruct Hmax as [-> | (j & Hin & Hj)].
      * destruct (Z.max_spec start z) as [[Hlt ->] | [Hge ->]];
          [| now left].
        (* the maximum is [i.id || 0], above [start] >= 0: the id itself *)
        right. exists i. split; [now left |].
        unfold or_default, or_val in Hz.
        destruct (Component.id i) as [| |[| | |x]]; cbn in Hz;
          try (injection Hz as Hz; apply eq_IZR in Hz; lia);
          try discriminate Hz.
        destruct (Req_b x 0) eqn:E; cbn in Hz.
        -- injection Hz as Hz. apply eq_IZR in Hz. lia.
        -- now injection Hz as ->.
      * right. exists j. split; [now right | exact Hj].
Qed.

Lemma has_id_json (n : number) (i : Component.t) :
  has_id n (json_component i) = true -> has_id n i = true.
Proof.
  unfold has_id, json_component. cbn [Component.id].
  destruct (Component.id i) as [| |[| | |r]]; cbn; auto; discriminate.
Qed.

Lemma find_json_none (n : number) (items : list Component.t) :
  (forall i : Component.t, In i items -> has_id n i = false) ->
  find (has_id n) (map json_component items) = None.
Proof.
  induction items as [| i rest IH]; intros H; [reflexivity |].
  cbn [map find].
  destruct (has_id n (json_component i)) eqn:E.
  - apply has_id_json in E. rewrite (H i) in E; [discriminate | now left].
  - apply IH. intros j Hj. apply H. now right.
Qed.

Lemma find_app_none {A : Type} (p : A -> bool) (l1 l2 : list A) :
  find p l1 = None -> find p (l1 ++ l2) = find p l2.
Proof.
  induction l1 as [| x rest IH]; [reflexivity |].
  cbn. destruct (p x); [discriminate | exact IH].
Qed.

Lemma array_write_returns (a : array_ref) (contents : list Component.t)
  (st : Store) :
  exists st' : Store, array_write a contents st = (Returns tt, st').
Proof. unfold array_write. destruct a; eexists; reflexivity. Qed.

(** X21. When every id of the collection is a safe integer (an integer
    below 2^53 in magnitude; a missing, [null] or NaN id counts as 0),
    [addComponent] returns the integer that is one more than the largest id
    present (1 for an empty collection), hence greater than every id
    present; a subsequent [getById] with that id returns the added item with
    that id, as JSON keeps it (properties that were [undefined] dropped), and
    [getAll] returns the old components followed by it.  Beyond the safe
    integers the sum is rounded: for a stored collection whose one component
    has the id 2^53 = 9007199254740992, [addComponent] returns 2^53 again,
    and [getById] with it returns the old component. *)
Theorem addComponent_getById
  (c key : string) (item : Component.t) (st : Store) :
  lookup_str KEYS c = Some key ->
  (forall (st0 : Store) (a : array_ref) (items : list Component.t),
      loadData c st = (Returns (a, items), st0) ->
      Forall safe_id items ->
      exists (m : Z) (st1 : Store),
        addComponent c item st = (Returns (Fin (IZR (m + 1))), st1) /\
        (0 <= m < 2 ^ 53)%Z /\
        (forall (i : Component.t) (x : R),
            In i items -> Component.id i = Val (Fin x) -> x < IZR (m + 1)) /\
        (m = 0%Z \/
         exists i : Component.t,
           In i items /\ Component.id i = Val (Fin (IZR m))) /\
        getById c (Fin (IZR (m + 1))) st1
        = (Returns (Some (json_component (with_id (Fin (IZR (m + 1))) item))),
           st1) /\
        getAll c st1
        = (Returns
             (map json_component (items ++ [with_id (Fin (IZR (m + 1))) item])),
           st1)) /\
  (forall old : Component.t,
      lookup_str (localStorage st) key = Some (ItemsText [old]) ->
      Component.id old = Val (Fin 9007199254740992) ->
      exists st1 : Store,
        addComponent c item st = (Returns (Fin 9007199254740992), st1) /\
        getById c (Fin 9007199254740992) st1
        = (Returns (Some (json_component old)), st1)).
Proof.
  intros Hk. split.
  - intros st0 a items Hload Hsafe.
    destruct (max_id_safe items 0 ltac:(lia) Hsafe)
      as (m & Hm & Hm0 & Hbound & Hmax).
    assert (Hsum : add_double (Fin (IZR m)) (Fin 1) = Fin (IZR (m + 1))).
    { unfold add_double. rewrite add_Fin, <- (plus_IZR m 1).
      apply binary64_integer. lia. }
    set (n := Fin (IZR (m + 1))) in *.
    destruct (array_write_returns a (items ++ [with_id n item]) st0)
      as (st' & Hw).
    exists m, (saved st' key (items ++ [with_id n item])).
    split.
    { unfold addComponent, sto_bind.
      rewrite (array_of_returns _ _ _ _ Hload). cbn [fst snd].
      rewrite Hm, Hsum. fold (with_id n item). rewrite Hw.
      now rewrite (saveData_valid c key _ st' Hk). }
    split; [lia |]. split; [| split; [| split]].
    + intros i x Hin Hid. pose proof (Hbound i x Hin Hid) as Hx.
      rewrite plus_IZR. lra.
    + exact Hmax.
    + unfold getById, sto_bind.
      rewrite (array_of_returns _ _ _ _ (loadData_saved c key _ st' Hk)).
      cbn [snd]. rewrite map_app. rewrite find_app_none.
      * cbn [map find]. unfold has_id at 1. cbn.
        now rewrite Req_b_true by reflexivity.
      * apply find_json_none. intros i Hin. unfold has_id.
        destruct (Component.id i) as [| |[| | |x]] eqn:Hid; try reflexivity.
        cbn. apply Req_b_false. pose proof (Hbound i x Hin Hid) as Hx.
        rewrite plus_IZR. lra.
    + unfold getAll, sto_bind. now rewrite (loadData_saved c key _ st' Hk).
  - intros old Hs Hid.
    pose proof (loadData_stored c key st [old] Hk Hs) as Hload.
    assert (Hmax : Math_max (Fin 0) (or_default (Component.id old) (Fin 0))
                   = Fin 9007199254740992).
    { rewrite Hid, or_default_Fin_zero, Math_max_Fin.
      f_equal. apply Rmax_right. lra. }
    assert (Hsum : add_double (Fin 9007199254740992) (Fin 1)
                   = Fin 9007199254740992).
    { unfold add_double. rewrite add_Fin. apply binary64_2_53_plus_1. }
    set (n := Fin 9007199254740992) in *.
    exists (saved st key ([old] ++ [with_id n item])).
    split.
    { unfold addComponent, sto_bind.
      rewrite (array_of_returns _ _ _ _ Hload). cbn [fst snd fold_left].
      rewrite Hmax, Hsum. fold (with_id n item). unfold array_write.
      now rewrite (saveData_valid c key _ st Hk). }
    unfold getById, sto_bind.
    rewrite (array_of_returns _ _ _ _ (loadData_saved c key _ st Hk)).
    cbn [snd app map find]. unfold has_id at 1, json_component at 1.
    cbn [Component.id]. rewrite Hid. cbn [json_id isFinite].
    unfold n. cbn. now rewrite Req_b_true by reflexivity.
Qed.

Lemma addComponent_getById_witness :
  let one := {| Component.id := Val (Fin 1);
                Component.fields := [("kv", JNum (Fin 2300))]%string |} in
  let three := {| Component.id := Val (Fin 3);
                  Component.fields := [("kv", JNum (Fin 1700))]%string |} in
  let st := {| localStorage :=
                 [("dronecalc_motors", ItemsText [one; three])]%string;
               DEFAULTS := [] |} in
  let item := {| Component.id := Undefined;
                 Component.fields := [("kv", JNum (Fin 920));
                                      ("brand", JUndefined)]%string |} in
  exists st1 : Store,
    addComponent "motors" item st = (Returns (Fin (IZR (3 + 1))), st1) /\
    getById "motors" (Fin (IZR (3 + 1))) st1
    = (Returns (Some {| Component.id := Val (Fin (IZR (3 + 1)));
                        Component.fields := [("kv", JNum (Fin 920))]%string |}),
       st1).
Proof.
  intros one three st item.
  destruct (addComponent_getById "motors" "dronecalc_motors" item st eq_refl)
    as [H _].
  destruct (H st FreshArray [one; three])
    as (m & st1 & Hadd & Hm & Hbound & Hmax & Hget & _).
  - reflexivity.
  - apply Forall_cons; [| apply Forall_cons; [| apply Forall_nil]];
      intros x [= <-]; right; [exists 1%Z | exists 3%Z];
      (split; [reflexivity | lia]).
  - assert (H3 : 3 < IZR (m + 1)).
    { apply (Hbound three 3); [right; left; reflexivity | reflexivity]. }
    apply lt_IZR in H3.
    assert (Hm3 : m = 3%Z).
    { destruct Hmax as [-> | (i & [<- | [<- | []]] & Hi)]; [lia | |];
        injection Hi as Hi; apply eq_IZR in Hi; lia. }
    subst m. exists st1. split; [exact Hadd | exact Hget].
Defined.

(** ** Deleting and updating a component *)













(** ** The arrays of [DEFAULTS] are handed out *)

Lemma lookup_remove_same {A : Type} (obj : list (string * A)) (k : string) :
  lookup_str (remove_property obj k) k = None.
Proof.
  induction obj as [| [k0 v0] rest IH]; [reflexivity |].
  cbn. destruct (String.eqb k k0) eqn:E; [exact IH |].
  cbn. now rewrite E.
Qed.

(** X24. While a collection has no text in [localStorage], [loadData] hands
    out the array of [DEFAULTS] itself and [addComponent] pushes onto it: the
    added component is then part of the defaults, so that after
    [resetStorage] of the collection [getAll] returns the former defaults
    followed by the added component.  When the collection has a stored list,
    [addComponent] leaves [DEFAULTS] as it is. *)
Theorem addComponent_changes_defaults
  (c key : string) (item : Component.t) (st : Store) :
  lookup_str KEYS c = Some key -> c <> ""%string ->
  (forall d : list Component.t,
      lookup_str (localStorage st) key = None \/
      lookup_str (localStorage st) key = Some EmptyText ->
      lookup_str (DEFAULTS st) c = Some d ->
      exists (n : number) (st1 st2 st3 : Store),
        addComponent c item st = (Returns n, st1) /\
        lookup_str (DEFAULTS st1) c = Some (d ++ [with_id n item]) /\
        resetStorage (Val c) st1 = (Returns tt, st2) /\
        lookup_str (localStorage st2) key = None /\
        getAll c st2 = (Returns (d ++ [with_id n item]), st3)) /\
  (forall stored : list Component.t,
      lookup_str (localStorage st) key = Some (ItemsText stored) ->
      exists (n : number) (st1 : Store),
        addComponent c item st = (Returns n, st1) /\
        DEFAULTS st1 = DEFAULTS st).
Proof.
  intros Hk Hne. split.
  - intros d Hs Hd.
    pose proof (loadData_unseeded c key st Hk Hs) as Hload.
    rewrite Hd in Hload.
    unfold addComponent, sto_bind.
    rewrite (array_of_returns _ _ _ _ Hload). cbn [fst snd].
    set (n := add_double (fold_left _ d (Fin 0)) (Fin 1)).
    fold (with_id n item).
    unfold array_write.
    rewrite (saveData_valid c key _ _ Hk).
    set (st1 := saved _ key (d ++ [with_id n item])).
    assert (Hd1 : lookup_str (DEFAULTS st1) c = Some (d ++ [with_id n item])).
    { unfold st1, saved. cbn [DEFAULTS]. apply lookup_set_same. }
    assert (Hreset : resetStorage (Val c) st1
                     = (Returns tt,
                        {| localStorage := remove_property (localStorage st1) key;
                           DEFAULTS := DEFAULTS st1 |})).
    { unfold resetStorage. apply String.eqb_neq in Hne. rewrite Hne.
      unfold sto_bind. now rewrite (getKey_valid c key st1 Hk). }
    set (st2 := {| localStorage := remove_property (localStorage st1) key;
                   DEFAULTS := DEFAULTS st1 |}) in *.
    assert (Hgone : lookup_str (localStorage st2) key = None).
    { unfold st2. cbn [localStorage]. apply lookup_remove_same. }
    exists n, st1, st2. eexists.
    split; [reflexivity |]. split; [exact Hd1 |]. split; [exact Hreset |].
    split; [exact Hgone |].
    unfold getAll, sto_bind.
    rewrite (loadData_unseeded c key st2 Hk (or_introl Hgone)).
    change (DEFAULTS st2) with (DEFAULTS st1). rewrite Hd1. reflexivity.
  - intros stored Hs.
    unfold addComponent, sto_bind.
    rewrite (array_of_returns _ _ _ _ (loadData_stored c key st stored Hk Hs)).
    cbn [fst snd].
    unfold array_write. rewrite (saveData_valid c key _ _ Hk).
    do 2 eexists. split; reflexivity.
Qed.

Lemma addComponent_changes_defaults_witness :
  let seed := {| Component.id := Val (Fin 1);
                 Component.fields := [("name", JStr "20A")]%string |} in
  let item := {| Component.id := Undefined;
                 Component.fields := [("name", JStr "mine")]%string |} in
  let st := {| localStorage := [];
               DEFAULTS := [("escs", [seed])]%string |} in
  exists (n : number) (st1 st2 st3 : Store),
    addComponent "escs" item st = (Returns n, st1) /\
    resetStorage (Val "escs"%string) st1 = (Returns tt, st2) /\
    getAll "escs" st2 = (Returns [seed; with_id n item], st3).
Proof.
  intros seed item st.
  destruct (addComponent_changes_defaults "escs" "dronecalc_escs" item st
              eq_refl) as [H _]; [discriminate |].
  destruct (H [seed]) as (n & st1 & st2 & st3 & Hadd & _ & Hreset & _ & Hall).
  - left. reflexivity.
  - reflexivity.
  - exists n, st1, st2, st3. auto.
Defined.

(* ================================================================== *)
(** * Properties of the charts *)

(** ** Loops and rounding *)

(** A loop over finite numbers with a positive step runs its body at
    [first], [first + step], ... as long as the counter is at most [last]:
    [n] times when [first + n * step] is the first value beyond [last],
    whatever fuel above [n] it is given. *)
Lemma for_loop_count {A : Type} (body : number -> list A) (d b : R) :
  0 < d ->
  forall (n fuel : nat) (a : R),
    (n < fuel)%nat ->
    b < a + INR n * d ->
    (n = 0%nat \/ a + (INR n - 1) * d <= b) ->
    for_loop fuel (Fin a) (Fin b) (Fin d) body
    = flat_map body (map (fun i : nat => Fin (a + INR i * d)) (seq 0 n)).
Proof.
  intros Hd. induction n as [| n IH]; intros fuel a Hfuel Hlast Hprev.
  - destruct fuel as [| fuel]; [lia |]. cbn [for_loop seq map flat_map].
    rewrite le_Fin, Rle_b_false; [reflexivity |]. cbn in Hlast. lra.
  - destruct fuel as [| fuel]; [lia |]. cbn [for_loop].
    rewrite S_INR in Hlast.
    destruct Hprev as [Hprev | Hprev]; [discriminate |].
    rewrite S_INR in Hprev.
    pose proof (pos_INR n) as Hn.
    assert (Hab : a <= b) by nra.
    rewrite le_Fin, Rle_b_true by exact Hab.
    rewrite add_Fin. rewrite (IH fuel (a + d)); [| lia | lra |].
    + cbn [seq map flat_map]. f_equal.
      * f_equal. f_equal. cbn. lra.
      * rewrite <- seq_shift, map_map. f_equal. apply map_ext.
        intros i. f_equal. rewrite S_INR. lra.
    + destruct n as [| n']; [now left | right].
      rewrite S_INR in *. lra.
Qed.

Lemma flat_map_singleton {A B : Type} (f : A -> B) (l : list A) :
  flat_map (fun a => [f a]) l = map f l.
Proof. induction l as [| a l IH]; [reflexivity |]. cbn. now rewrite IH. Qed.

Lemma nth_error_map_seq {A : Type} (f : nat -> A) (n i : nat) :
  (i < n)%nat -> nth_error (map f (seq 0 n)) i = Some (f i).
Proof.
  intros Hi. rewrite nth_error_map, nth_error_seq.
  destruct (Nat.ltb_spec i n); [reflexivity | lia].
Qed.

(** A product is a finite number only when both factors are. *)
Lemma mul_Fin_factors (x y : number) (m : R) :
  (x * y)%js = Fin m -> exists a b, x = Fin a /\ y = Fin b /\ m = a * b.
Proof.
  destruct x as [| | |a], y as [| | |b]; simpl; try discriminate;
    try (unfold signed_inf; rdec; simpl; discriminate).
  intros H. injection H as <-. now exists a, b.
Qed.

Lemma div_Fin_numerator (x : number) (b q : R) :
  b <> 0 -> (x / Fin b)%js = Fin q -> x = Fin (q * b).
Proof.
  intros Hb H. destruct (div_Fin_inv _ _ _ H) as
    [(a & b' & -> & Hy & Hb' & ->) | (_ & [Hy | Hy] & _)];
    try discriminate.
  injection Hy as <-. f_equal. field. exact Hb.
Qed.

Lemma Math_pow_4_Fin_inv (x : number) (q : R) :
  Math_pow x (Fin 4) = Fin q -> exists d, x = Fin d.
Proof.
  destruct x as [| | |d]; [| | | now exists d];
    unfold Math_pow; rewrite Req_b_false by lra; try discriminate;
    rewrite Rlt_b_true by lra; [discriminate |].
  destruct (is_odd_integer 4); discriminate.
Qed.

Lemma calcThrust_Fin_inv (ct rho rps D : number) (m : R) :
  calcThrust ct rho rps D = Fin m ->
  exists c r q d : R,
    ct = Fin c /\ rho = Fin r /\ rps = Fin q /\ D = Fin d /\
    m = c * r * q * q * (d * d * d * d).
Proof.
  intros H. pose proof H as H0. unfold calcThrust in H.
  destruct (mul_Fin_factors _ _ _ H) as (a1 & p4 & H1 & Hp & _).
  destruct (mul_Fin_factors _ _ _ H1) as (a2 & q & H2 & -> & _).
  destruct (mul_Fin_factors _ _ _ H2) as (a3 & q' & H3 & _ & _).
  destruct (mul_Fin_factors _ _ _ H3) as (c & r & -> & -> & _).
  destruct (Math_pow_4_Fin_inv _ _ Hp) as (d & ->).
  exists c, r, q, d. repeat split; try reflexivity.
  rewrite calcThrust_Fin in H0. now injection H0.
Qed.

(** ** Thrust against throttle *)

Lemma results_inv
  (config : value loc) (h h' : Heap) (r : SimulationResult.t) :
  results config h = (Normal (Val r), h') ->
  exists l : loc,
    config = Val l /\ h' = h /\ sections_are_objects (h l) /\
    r = Body.result (resolve (h l)).
Proof.
  unfold results.
  destruct (runFullSimulation config h) as [[r' | e] h1] eqn:E;
    [| discriminate].
  intros H. injection H as <- <-. now apply runFullSimulation_inv.
Qed.

Lemma resolve_propeller (c : Config.t) (p : Propeller.t) :
  Config.propeller c = Val p -> the_propeller (resolve c) = p.
Proof. intros H. unfold resolve. cbn. now rewrite H. Qed.

Lemma Math_round_Fin (r : R) :
  Math_round (Fin r) = Fin (IZR (Int_part (r + / 2))).
Proof. reflexivity. Qed.

Lemma thrust_point_Fin (c r M d t : R) :
  thrust_point (Fin c) (Fin r) (Fin M) (Fin d) (Fin t)
  = {| ThrustPoint.throttle := Fin t;
       ThrustPoint.thrust :=
         Math_round
           (Fin ((t / 100) ^ 2
                 * (c * r * (M / 60) * (M / 60) * (d * d * d * d)
                    / 9.80665 * 1000))) |}.
Proof.
  unfold thrust_point, GRAVITY.
  rewrite (div_Fin t 100), mul_Fin, (div_Fin _ 60), calcThrust_Fin by lra.
  rewrite div_Fin, mul_Fin by lra.
  f_equal. f_equal. f_equal. field. lra.
Qed.

(** X25. When results exist, the propeller section is an object and the
    thrust of one motor at full throttle is a finite number g of grams, the
    thrust chart has 21 points, at the throttles 0, 5, ..., 100; the thrust
    plotted at throttle t is (t/100)^2 * g rounded to an integer, so 0 at
    throttle 0 and the rounded g at throttle 100, and for g >= 0 it never
    falls as the throttle rises. *)
Theorem ThrustVsThrottle_curve
  (l : loc) (h : Heap) (r : SimulationResult.t) (p : Propeller.t) (g : R) :
  results (Val l) h = (Normal (Val r), h) ->
  Config.propeller (h l) = Val p ->
  SimulationResult.maxThrustPerMotorG r = Fin g ->
  exists chart : ThrustChart.t,
    ThrustVsThrottle (Val l) (Val r) h = (Normal (Some chart), h) /\
    List.length (ThrustChart.data chart) = 21%nat /\
    (forall i : nat,
        (i < 21)%nat ->
        nth_error (ThrustChart.data chart) i
        = Some {| ThrustPoint.throttle := Fin (5 * INR i);
                  ThrustPoint.thrust :=
                    Math_round (Fin ((5 * INR i / 100) ^ 2 * g)) |}) /\
    nth_error (ThrustChart.data chart) 0
    = Some {| ThrustPoint.throttle := Fin 0; ThrustPoint.thrust := Fin 0 |} /\
    nth_error (ThrustChart.data chart) 20
    = Some {| ThrustPoint.throttle := Fin 100;
              ThrustPoint.thrust :=
                Math_round (SimulationResult.maxThrustPerMotorG r) |} /\
    (0 <= g ->
     forall (i j : nat) (a b : ThrustPoint.t),
       (i <= j)%nat ->
       nth_error (ThrustChart.data chart) i = Some a ->
       nth_error (ThrustChart.data chart) j = Some b ->
       (ThrustPoint.thrust a <= ThrustPoint.thrust b)%js = true).
Proof.
  intros Hres Hp Hg.
  destruct (results_inv _ _ _ _ Hres) as (l' & [= <-] & _ & Hobj & ->).
  set (s := resolve (h l)) in *.
  cbn [SimulationResult.maxThrustPerMotorG Body.result] in Hg.
  destruct (mul_Fin_factors _ _ _ Hg) as (a & k & Ha & [= <-] & ->).
  apply div_Fin_numerator in Ha; [| unfold GRAVITY; lra].
  pose proof Ha as Hmax. unfold Body.maxThrustPerMotor in Ha.
  destruct (calcThrust_Fin_inv _ _ _ _ _ Ha) as
    (c & rh & q & d & Hc & Hrho & Hq & Hd & Hm).
  unfold Body.maxRPS in Hq.
  apply div_Fin_numerator in Hq; [| lra].
  assert (HD : (or_default (Propeller.diameterIn p) (Fin 10) * Fin 0.0254)%js
               = Fin d).
  { rewrite <- Hd. unfold Body.propDiameterM, Body.propDiameterIn.
    unfold s. now rewrite (resolve_propeller _ _ Hp). }
  set (point := fun i : nat =>
         {| ThrustPoint.throttle := Fin (5 * INR i);
            ThrustPoint.thrust :=
              Math_round (Fin ((5 * INR i / 100) ^ 2 * (a * 1000))) |}).
  assert (Hdata :
    for_loop 22 (Fin 0) (Fin 100) (Fin 5)
      (fun t => [thrust_point (Fin c) (Fin rh) (Fin (q * 60)) (Fin d) t])
    = map point (seq 0 21)).
  { rewrite (for_loop_count _ 5 100 ltac:(lra) 21 22 0); cbn [INR]; try lra;
      [| lia].
    rewrite flat_map_singleton, map_map. apply map_ext. intros i.
    rewrite thrust_point_Fin. unfold point. f_equal.
    - f_equal. lra.
    - f_equal. f_equal.
      assert (Hgr : GRAVITY = Fin 9.80665) by reflexivity.
      unfold GRAVITY in Hm.
      replace (0 + INR i * 5) with (5 * INR i) by lra.
      f_equal.
      replace (c * rh * (q * 60 / 60) * (q * 60 / 60) * (d * d * d * d))
        with (a * 9.80665) by (rewrite Hm; field).
      field. lra. }
  eexists. split.
  { unfold ThrustVsThrottle, bind, object_of, ret, load. rewrite Hp.
    cbn [SimulationResult.airDensity SimulationResult.ct
         SimulationResult.maxRPM Body.result].
    rewrite HD, Hc, Hrho, Hq, Hdata. reflexivity. }
  cbn [ThrustChart.data].
  assert (Hnth : forall i : nat, (i < 21)%nat ->
                   nth_error (map point (seq 0 21)) i = Some (point i)).
  { intros i Hi. now apply nth_error_map_seq. }
  split; [now rewrite length_map, length_seq |].
  split; [exact Hnth |].
  split; [| split].
  - rewrite Hnth by lia. unfold point. cbn [INR]. f_equal. f_equal.
    + f_equal. lra.
    + rewrite Math_round_Fin. f_equal.
      replace ((5 * 0 / 100) ^ 2 * (a * 1000) + / 2) with (/ 2) by (simpl; lra).
      change 0 with (IZR 0). f_equal. symmetry. apply Int_part_spec.
      simpl. lra.
  - rewrite Hnth by lia. unfold point. f_equal. f_equal.
    + f_equal. simpl. lra.
    + cbn [SimulationResult.maxThrustPerMotorG Body.result].
      rewrite Hmax. unfold GRAVITY. rewrite div_Fin, mul_Fin by lra.
      f_equal. f_equal. simpl. field. lra.
  - intros Hg0 i j pa pb Hij Hi Hj.
    assert (Hj21 : (j < List.length (map point (seq 0 21)))%nat).
    { apply nth_error_Some. rewrite Hj. discriminate. }
    rewrite length_map, length_seq in Hj21.
    rewrite Hnth in Hi, Hj by lia.
    injection Hi as <-. injection Hj as <-.
    unfold point. cbn [ThrustPoint.thrust]. rewrite !Math_round_Fin, le_Fin.
    apply Rle_b_true. apply IZR_le. apply Int_part_le.
    assert (H0 : 0 <= INR i) by apply pos_INR.
    assert (H1 : INR i <= INR j) by now apply le_INR.
    assert (H2 : 0 <= a * 1000) by lra.
    assert (H3 : (5 * INR i / 100) ^ 2 <= (5 * INR j / 100) ^ 2).
    { apply pow_incr. lra. }
    nra.
Qed.

Lemma results_ok (l : loc) (h : Heap) :
  sections_are_objects (h l) ->
  results (Val l) h = (Normal (Val (Body.result (resolve (h l)))), h).
Proof. intros H. unfold results. now rewrite (runFullSimulation_ok l h H). Qed.

Lemma ThrustVsThrottle_curve_witness :
  let c :=
    {| Config.environment := Undefined;
       Config.frame := Val (the_frame (with_frame_weight 300));
       Config.battery := Undefined; Config.esc := Undefined;
       Config.motor := Undefined;
       Config.propeller := Val Propeller.empty |} in
  let h : Heap := fun _ => c in
  exists chart : ThrustChart.t,
    ThrustVsThrottle (Val 0%nat) (Val (Body.result (resolve c))) h
    = (Normal (Some chart), h) /\
    nth_error (ThrustChart.data chart) 0
    = Some {| ThrustPoint.throttle := Fin 0; ThrustPoint.thrust := Fin 0 |}.
Proof.
  intros c h.
  assert (Hobj : sections_are_objects (h 0%nat)).
  { unfold sections_are_objects, is_object_or_absent. cbn.
    repeat split; discriminate. }
  edestruct (ThrustVsThrottle_curve 0%nat h (Body.result (resolve c))
               Propeller.empty) as (chart & H1 & _ & _ & H2 & _).
  - exact (results_ok 0%nat h Hobj).
  - reflexivity.
  - cbn [SimulationResult.maxThrustPerMotorG Body.result].
    change (resolve c) with (with_frame_weight 300).
    rewrite maxThrustPerMotor_wfw. unfold GRAVITY.
    rewrite div_Fin, mul_Fin by lra. reflexivity.
  - exists chart. split; assumption.
Defined.

Lemma calcHoverThrottle_bounds (W n maxT c : number) :
  calcHoverThrottle W n maxT c = NaN \/
  exists t : R, calcHoverThrottle W n maxT c = Fin t /\ 0 <= t <= 100.
Proof.
  unfold calcHoverThrottle. destruct (maxT <= Fin 0)%js.
  - right. exists 100. split; [reflexivity | lra].
  - apply min_max_percent.
Qed.

Lemma thrust_data_points (c r M d : number) :
  for_loop 22 (Fin 0) (Fin 100) (Fin 5) (fun t => [thrust_point c r M d t])
  = map (fun i : nat => thrust_point c r M d (Fin (5 * INR i))) (seq 0 21).
Proof.
  rewrite (for_loop_count _ 5 100 ltac:(lra) 21 22 0); cbn [INR]; try lra;
    [| lia].
  rewrite flat_map_singleton, map_map. apply map_ext. intros i.
  f_equal. f_equal. lra.
Qed.

(** X26. When results exist and the propeller section is an object, the
    chart marks the hover point exactly when the hover throttle is a number
    t (it is then between 0 and 100): the dot sits on the data point whose
    throttle 5 * i is nearest to t, a tie going to the higher one, and shows
    the thrust plotted there.  For a hover throttle that is NaN no dot is
    drawn. *)
Theorem ThrustVsThrottle_hover_dot
  (l : loc) (h : Heap) (r : SimulationResult.t) (p : Propeller.t) :
  results (Val l) h = (Normal (Val r), h) ->
  Config.propeller (h l) = Val p ->
  exists chart : ThrustChart.t,
    ThrustVsThrottle (Val l) (Val r) h = (Normal (Some chart), h) /\
    ((SimulationResult.hoverThrottle r = NaN /\
      ThrustChart.hoverDot chart = None) \/
     exists (t : R) (i : nat) (pt : ThrustPoint.t),
       SimulationResult.hoverThrottle r = Fin t /\
       0 <= t <= 100 /\
       (i <= 20)%nat /\
       5 * INR i - 5 / 2 <= t < 5 * INR i + 5 / 2 /\
       nth_error (ThrustChart.data chart) i = Some pt /\
       ThrustPoint.throttle pt = Fin (5 * INR i) /\
       ThrustChart.hoverDot chart
       = Some {| ReferenceDot.x := Val (ThrustPoint.throttle pt);
                 ReferenceDot.y := Val (ThrustPoint.thrust pt) |}).
Proof.
  intros Hres Hp.
  destruct (results_inv _ _ _ _ Hres) as (l' & [= <-] & _ & Hobj & ->).
  set (s := resolve (h l)) in *.
  eexists. split.
  { unfold ThrustVsThrottle, bind, object_of, ret, load. rewrite Hp.
    rewrite thrust_data_points. reflexivity. }
  cbn [ThrustChart.hoverDot ThrustChart.data SimulationResult.hoverThrottle
       SimulationResult.ct SimulationResult.airDensity
       SimulationResult.maxRPM Body.result].
  rewrite length_map, length_seq.
  destruct (calcHoverThrottle_bounds (Body.totalWeightKg s) (Body.numMotors s)
              (Body.maxThrustPerMotor s) (Body.coaxFactor s))
    as [E | (t & E & Ht)]; fold (Body.hoverThrottle s) in E; rewrite E.
  - left. split; reflexivity.
  - right. rewrite div_Fin by lra. rewrite Math_round_Fin.
    set (z := Int_part (t / 5 + / 2)).
    assert (Hz : (0 <= z <= 20)%Z).
    { apply Int_part_bounds; simpl; lra. }
    destruct (base_Int_part (t / 5 + / 2)) as [Hz1 Hz2]. fold z in Hz1, Hz2.
    assert (Hi : INR (Z.to_nat z) = IZR z).
    { rewrite INR_IZR_INZ. f_equal. lia. }
    assert (Hz0 : 0 <= IZR z) by (apply IZR_le; lia).
    assert (Hz20 : IZR z <= 20) by (apply IZR_le; lia).
    set (pt := thrust_point (Body.ct s) (Body.rho s) (Body.maxRPM s)
                 (or_default (Propeller.diameterIn p) (Fin 10) * Fin 0.0254)%js
                 (Fin (5 * INR (Z.to_nat z)))).
    exists t, (Z.to_nat z), pt.
    assert (Hnth : nth_error
                     (map (fun i : nat =>
                             thrust_point (Body.ct s) (Body.rho s)
                               (Body.maxRPM s)
                               (or_default (Propeller.diameterIn p) (Fin 10)
                                * Fin 0.0254)%js
                               (Fin (5 * INR i))) (seq 0 21)) (Z.to_nat z)
                   = Some pt).
    { rewrite nth_error_map_seq by lia. reflexivity. }
    split; [reflexivity |]. split; [exact Ht |]. split; [lia |].
    split; [rewrite Hi; lra |].
    split; [exact Hnth |]. split; [reflexivity |].
    unfold ge. rewrite le_Fin, lt_Fin.
    rewrite Rle_b_true by exact Hz0.
    rewrite Rlt_b_true by (simpl; lra).
    cbn [andb]. unfold array_get.
    rewrite is_integer_IZR, Int_part_IZR, Rle_b_true by exact Hz0.
    cbn [andb]. rewrite Hnth. reflexivity.
Qed.

Lemma ThrustVsThrottle_hover_dot_witness :
  let c :=
    {| Config.environment := Undefined;
       Config.frame := Val (the_frame (with_frame_weight 300));
       Config.battery := Undefined; Config.esc := Undefined;
       Config.motor := Undefined;
       Config.propeller := Val Propeller.empty |} in
  let h : Heap := fun _ => c in
  exists chart : ThrustChart.t,
    ThrustVsThrottle (Val 0%nat) (Val (Body.result (resolve c))) h
    = (Normal (Some chart), h).
Proof.
  intros c h.
  assert (Hobj : sections_are_objects (h 0%nat)).
  { unfold sections_are_objects, is_object_or_absent. cbn.
    repeat split; discriminate. }
  destruct (ThrustVsThrottle_hover_dot 0%nat h (Body.result (resolve c))
              Propeller.empty (results_ok 0%nat h Hobj) eq_refl)
    as (chart & H & _).
  exists chart. exact H.
Defined.

(** ** The charts and the sections of the configuration *)

(** X27. The charts read [config.propeller], [config.frame] and
    [config.battery] without the defaults of the engine.  When a section is
    [null] the results are [null] and every chart renders nothing.  When no
    section is [null] the results exist, yet the thrust chart and the
    efficiency chart throw a TypeError exactly when the propeller section is
    absent, and the flight-time chart exactly when the frame or the battery
    section is absent; otherwise each chart returns its data.  No chart
    changes the configuration. *)
Theorem charts_need_sections (l : loc) (h : Heap) :
  (has_null_section (h l) ->
   results (Val l) h = (Normal Null, h) /\
   ThrustVsThrottle (Val l) Null h = (Normal None, h) /\
   FlightTimeVsPayload (Val l) Null h = (Normal None, h) /\
   EfficiencyCurve (Val l) Null h = (Normal None, h)) /\
  (sections_are_objects (h l) ->
   exists r : SimulationResult.t,
     results (Val l) h = (Normal (Val r), h) /\
     (Config.propeller (h l) = Undefined <->
      ThrustVsThrottle (Val l) (Val r) h = (Throw TypeError, h)) /\
     (Config.propeller (h l) = Undefined <->
      EfficiencyCurve (Val l) (Val r) h = (Throw TypeError, h)) /\
     (Config.frame (h l) = Undefined \/ Config.battery (h l) = Undefined <->
      FlightTimeVsPayload (Val l) (Val r) h = (Throw TypeError, h)) /\
     (Config.propeller (h l) <> Undefined ->
      exists (chart : ThrustChart.t) (data : list EfficiencyPoint.t),
        ThrustVsThrottle (Val l) (Val r) h = (Normal (Some chart), h) /\
        EfficiencyCurve (Val l) (Val r) h = (Normal (Some data), h)) /\
     (Config.frame (h l) <> Undefined ->
      Config.battery (h l) <> Undefined ->
      exists data : list PayloadPoint.t,
        FlightTimeVsPayload (Val l) (Val r) h = (Normal (Some data), h))).
Proof.
  split.
  - intros Hnull. unfold results.
    rewrite (runFullSimulation_null_section l h Hnull).
    repeat split.
  - intros Hobj. exists (Body.result (resolve (h l))).
    split; [exact (results_ok l h Hobj) |].
    destruct Hobj as (_ & Hf & Hb & _ & _ & Hp).
    unfold is_object_or_absent in Hf, Hb, Hp.
    split; [| split; [| split; [| split]]].
    + unfold ThrustVsThrottle, bind, object_of, ret, throw, load.
      destruct (Config.propeller (h l)) as [| |p]; [| contradiction |];
        split; intros H; try reflexivity; discriminate H.
    + unfold EfficiencyCurve, bind, object_of, ret, throw, load.
      destruct (Config.propeller (h l)) as [| |p]; [| contradiction |];
        split; intros H; try reflexivity; discriminate H.
    + unfold FlightTimeVsPayload, bind, object_of, ret, throw, load.
      destruct (Config.frame (h l)) as [| |f]; [| contradiction |];
        destruct (Config.battery (h l)) as [| |b]; try contradiction;
        split; intros H; try reflexivity; try discriminate H;
        try (now left); try (now right).
      destruct H as [H | H]; discriminate H.
    + intros H.
      unfold ThrustVsThrottle, EfficiencyCurve, bind, object_of, ret, throw,
        load.
      destruct (Config.propeller (h l)) as [| |p]; try contradiction.
      do 2 eexists. split; reflexivity.
    + intros H1 H2.
      unfold FlightTimeVsPayload, bind, object_of, ret, throw, load.
      destruct (Config.frame (h l)) as [| |f]; try contradiction.
      destruct (Config.battery (h l)) as [| |b]; try contradiction.
      eexists. reflexivity.
Qed.

Lemma charts_need_sections_witness :
  let h : Heap := fun _ => Config.empty in
  exists r : SimulationResult.t,
    results (Val 0%nat) h = (Normal (Val r), h) /\
    ThrustVsThrottle (Val 0%nat) (Val r) h = (Throw TypeError, h) /\
    FlightTimeVsPayload (Val 0%nat) (Val r) h = (Throw TypeError, h).
Proof.
  intros h.
  destruct (charts_need_sections 0%nat h) as [_ H].
  destruct H as (r & Hr & Ht & _ & Hf & _).
  - unfold sections_are_objects, is_object_or_absent. cbn.
    repeat split; discriminate.
  - exists r. split; [exact Hr |]. split.
    + apply Ht. reflexivity.
    + apply Hf. left. reflexivity.
Defined.

(** ** Flight time against payload *)

Lemma mul_one_r (x : number) : (x * Fin 1)%js = x.
Proof.
  destruct x as [| | |a]; cbn; try reflexivity;
    try (unfold signed_inf, Rsgn; rdec; reflexivity).
  f_equal. lra.
Qed.

Lemma add_zero_r (x : number) : (x + Fin 0)%js = x.
Proof. destruct x as [| | |a]; cbn; try reflexivity. f_equal. lra. Qed.

Lemma Rmin_scaled (X y : R) :
  0 < X -> 1 <= y -> Rmin 100 (X * y) = Rmin 100 (Rmin 100 X * y).
Proof.
  intros HX Hy. unfold Rmin.
  destruct (Rle_dec 100 X) as [H1 | H1].
  - destruct (Rle_dec 100 (X * y)) as [H2 | H2];
      destruct (Rle_dec 100 (100 * y)) as [H3 | H3]; try reflexivity; nra.
  - reflexivity.
Qed.

(** The throttle that the chart computes at payload 0, against the hover
    throttle of the results: the coaxial factor [k] enters twice. *)
Lemma zero_payload_throttle (W n m k : R) :
  0 < W -> 0 < n -> 0 < m -> 0 < k <= 1 ->
  let t := Rmin 100 (Rmax 0 (100 * sqrt (W * 9.80665 / (n * k) / m))) in
  let t' :=
    Rmin 100
      (Rmax 0 (100 * sqrt (W * 9.80665 / (n * k) / (m * k)))) in
  0 < t <= 100 /\ t' = Rmin 100 (t / sqrt k) /\ t <= t' /\
  (k < 1 -> t < 100 -> t < t').
Proof.
  intros HW Hn Hm Hk t t'.
  set (u := W * 9.80665 / (n * k)) in *.
  assert (Hu : 0 < u).
  { unfold u. apply Rdiv_lt_0_compat; nra. }
  assert (Hum : 0 < u / m) by now apply Rdiv_lt_0_compat.
  assert (HX : 0 < 100 * sqrt (u / m)).
  { apply Rmult_lt_0_compat; [lra | now apply sqrt_lt_R0]. }
  assert (Hsk : 0 < sqrt k) by (apply sqrt_lt_R0; lra).
  assert (Hsk1 : sqrt k <= 1).
  { rewrite <- sqrt_1. apply sqrt_le_1_alt. lra. }
  assert (Hy : 1 <= / sqrt k).
  { rewrite <- Rinv_1. apply Rinv_le_contravar; lra. }
  assert (HX' : 100 * sqrt (u / (m * k)) = 100 * sqrt (u / m) * / sqrt k).
  { replace (u / (m * k)) with (u / m / k) by (field; lra).
    rewrite (sqrt_div_alt (u / m) k) by lra. unfold Rdiv. ring. }
  assert (Ht : t = Rmin 100 (100 * sqrt (u / m))).
  { unfold t. now rewrite Rmax_right by lra. }
  assert (Ht' : t' = Rmin 100 (t / sqrt k)).
  { unfold t'. rewrite Rmax_right.
    - rewrite HX', Ht. unfold Rdiv. now apply Rmin_scaled.
    - rewrite HX'. left. apply Rmult_lt_0_compat; [exact HX |].
      now apply Rinv_0_lt_compat. }
  assert (Ht0 : 0 < t <= 100).
  { rewrite Ht. split; [apply Rmin_glb_lt; lra | apply Rmin_l]. }
  assert (Hdiv : t <= t / sqrt k).
  { unfold Rdiv. nra. }
  split; [exact Ht0 |]. split; [exact Ht' |]. split.
  - rewrite Ht'. apply Rmin_glb; lra.
  - intros Hk1 Ht100. rewrite Ht'.
    assert (Hsk2 : sqrt k < 1).
    { rewrite <- sqrt_1. apply sqrt_lt_1_alt. lra. }
    assert (Hy2 : 1 < / sqrt k).
    { rewrite <- Rinv_1. apply Rinv_lt_contravar; lra. }
    apply Rmin_glb_lt; [lra |]. unfold Rdiv. nra.
Qed.

Lemma resolve_frame (c : Config.t) (f : Frame.t) :
  Config.frame c = Val f -> the_frame (resolve c) = f.
Proof. intros H. unfold resolve. cbn. now rewrite H. Qed.

Lemma resolve_battery (c : Config.t) (b : Battery.t) :
  Config.battery c = Val b -> the_battery (resolve c) = b.
Proof. intros H. unfold resolve. cbn. now rewrite H. Qed.

Lemma payload_data_points (body : number -> list PayloadPoint.t) :
  for_loop 22 (Fin 0) (Fin 2000) (Fin 100) body
  = (body (Fin 0)
     ++ flat_map body (map (fun i : nat => Fin (100 * INR i)) (seq 1 20)))%list.
Proof.
  rewrite (for_loop_count _ 100 2000 ltac:(lra) 21 22 0); cbn [INR]; try lra;
    [| lia].
  change (seq 0 21) with (0%nat :: seq 1 20). cbn [map flat_map].
  f_equal.
  - f_equal. f_equal. cbn. lra.
  - f_equal. apply map_ext. intros i. f_equal. lra.
Qed.

Lemma calcFlightTime_pos (cap dod : number) (i : R) :
  0 < i ->
  calcFlightTime cap dod (Fin i) = (cap * dod / Fin (i * 1000) * Fin 60)%js.
Proof.
  intros Hi. unfold calcFlightTime.
  rewrite le_Fin, Rle_b_false by lra. now rewrite mul_Fin.
Qed.

(** X28. The flight-time chart recomputes the hover throttle from the
    published maximal total thrust, which already contains the coaxial
    factor, and applies the factor again.  For a flat layout its time at
    payload 0 is the flight time of the results; for a coaxial layout it is
    the time at a current (t'/t)^1.5 times the hover current of the results,
    where t is their hover throttle and t' = min(100, t / sqrt(0.85)): a
    factor above 1 whenever t < 100, so the chart then starts below the
    flight time shown on the dashboard.  The first point is plotted only for
    a time strictly between 0 and 120 minutes; the other points belong to
    payloads of 100 g and more. *)
Theorem FlightTimeVsPayload_zero_payload
  (l : loc) (h : Heap) (r : SimulationResult.t) (f : Frame.t) (b : Battery.t)
  (m n W : R) :
  results (Val l) h = (Normal (Val r), h) ->
  Config.frame (h l) = Val f ->
  Config.battery (h l) = Val b ->
  let s := resolve (h l) in
  Body.maxThrustPerMotor s = Fin m -> 0 < m ->
  Body.numMotors s = Fin n -> 0 < n ->
  Body.totalWeightKg s = Fin W -> 0 < W ->
  exists (ft : number) (rest : list PayloadPoint.t) (t cf : R),
    FlightTimeVsPayload (Val l) (Val r) h
    = (Normal
         (Some
            ((if (ft > Fin 0)%js && (ft < Fin 120)%js
              then [{| PayloadPoint.payload := Fin 0;
                       PayloadPoint.time :=
                         (Math_round (ft * Fin 10) / Fin 10)%js |}]
              else []) ++ rest)), h) /\
    Forall (fun pt : PayloadPoint.t =>
              exists p : R, PayloadPoint.payload pt = Fin p /\ 100 <= p) rest /\
    SimulationResult.hoverThrottle r = Fin t /\ 0 < t <= 100 /\
    ft = calcFlightTime (SimulationResult.totalCapacityMah r)
           (Body.dischargeDepth s)
           (SimulationResult.hoverTotalCurrent r * Fin cf)%js /\
    (Body.isCoaxial s = false ->
     cf = 1 /\ ft = SimulationResult.flightTimeMin r) /\
    (Body.isCoaxial s = true ->
     cf = Rpower (Rmin 100 (t / sqrt 0.85) / t) 1.5 /\
     1 <= cf /\ (t < 100 -> 1 < cf)) /\
    (forall I T : R,
        SimulationResult.hoverTotalCurrent r = Fin I -> 0 < I ->
        SimulationResult.flightTimeMin r = Fin T ->
        ft = Fin (T / cf)).
Proof.
  intros Hres Hf Hb s Hm Hm0 Hn Hn0 HW HW0.
  destruct (results_inv _ _ _ _ Hres) as (l' & [= <-] & _ & Hobj & ->).
  fold s.
  assert (Hframe : the_frame s = f) by now apply resolve_frame.
  assert (Hbattery : the_battery s = b) by now apply resolve_battery.
  assert (Hk : exists k : R,
             Body.coaxFactor s = Fin k /\ 0 < k <= 1 /\
             (Body.isCoaxial s = false -> k = 1) /\
             (Body.isCoaxial s = true -> k = 0.85)).
  { unfold Body.coaxFactor, calcCoaxialFactor.
    destruct (Body.isCoaxial s); eexists; (split; [reflexivity |]);
      (split; [lra |]); split; intros H; try discriminate H; lra. }
  destruct Hk as (k & Hk & Hk01 & Hflat & Hcoax).
  assert (HN : or_default (Frame.motorCount f) (Fin 4) = Fin n).
  { rewrite <- Hn. unfold Body.numMotors. now rewrite Hframe. }
  assert (HK : (if strict_eq_str (Frame.layout f) "coaxial"
                then Fin 0.85 else Fin 1.0) = Fin k).
  { rewrite <- Hk. unfold Body.coaxFactor, calcCoaxialFactor, Body.isCoaxial.
    now rewrite Hframe. }
  assert (HDD : (or_default (Battery.dischargeDepth b) (Fin 80) / Fin 100)%js
                = Body.dischargeDepth s).
  { unfold Body.dischargeDepth. now rewrite Hbattery. }
  assert (HMT : (SimulationResult.maxTotalThrustG (Body.result s) / Fin 1000
                 * GRAVITY / Fin n)%js = Fin (m * k)).
  { cbn [SimulationResult.maxTotalThrustG Body.result].
    unfold Body.maxTotalThrustG, Body.maxTotalThrust, GRAVITY.
    rewrite Hm, Hn, Hk.
    rewrite !mul_Fin, div_Fin, mul_Fin, div_Fin, mul_Fin, div_Fin by lra.
    f_equal. field. lra. }
  destruct (zero_payload_throttle W n m k HW0 Hn0 Hm0 Hk01)
    as (Ht0 & Ht' & Htt' & Hlt).
  set (t := Rmin 100 (Rmax 0 (100 * sqrt (W * 9.80665 / (n * k) / m)))) in *.
  set (t' := Rmin 100 (Rmax 0 (100 * sqrt (W * 9.80665 / (n * k) / (m * k)))))
    in *.
  assert (Hnk : n * k <> 0) by nra.
  assert (Hreq : 0 <= W * 9.80665 / (n * k)).
  { left. apply Rdiv_lt_0_compat; nra. }
  assert (Hhover : Body.hoverThrottle s = Fin t).
  { unfold Body.hoverThrottle. rewrite HW, Hn, Hm, Hk.
    now rewrite calcHoverThrottle_Fin. }
  set (cf := Rpower (t' / t) 1.5).
  assert (Hft : payload_flight_time (Body.result s) (Fin n) (Fin (m * k))
                  (Fin k) (Body.dischargeDepth s) (Fin 0)
                = calcFlightTime (Body.capacityMah s) (Body.dischargeDepth s)
                    (Body.hoverTotalCurrent s * Fin cf)%js).
  { unfold payload_flight_time.
    cbn [SimulationResult.totalWeightKg SimulationResult.totalCapacityMah
         SimulationResult.hoverThrottle SimulationResult.hoverTotalCurrent
         Body.result].
    rewrite HW, Hhover, (div_Fin 0 1000), add_Fin by lra.
    replace (W + 0 / 1000) with W by lra.
    rewrite calcHoverThrottle_Fin; [| nra | exact Hnk | exact Hreq].
    fold t'. rewrite !div_Fin by lra.
    rewrite Math_pow_Fin_pos; [| | lra].
    - unfold cf. do 4 f_equal. field. lra.
    - apply Rdiv_lt_0_compat; lra. }
  exists (calcFlightTime (Body.capacityMah s) (Body.dischargeDepth s)
            (Body.hoverTotalCurrent s * Fin cf)%js).
  eexists. exists t, cf.
  split.
  { unfold FlightTimeVsPayload, bind, object_of, ret, load.
    rewrite Hf, Hb, HN, HK, HDD, HMT, payload_data_points.
    unfold payload_points at 1. rewrite Hft. reflexivity. }
  split.
  { apply Forall_forall. intros pt Hin.
    apply in_flat_map in Hin. destruct Hin as (x & Hx & Hin).
    apply in_map_iff in Hx. destruct Hx as (i & <- & Hi).
    apply in_seq in Hi.
    unfold payload_points in Hin.
    destruct (_ && _) in Hin; [| contradiction].
    destruct Hin as [<- | []]. cbn [PayloadPoint.payload].
    eexists. split; [reflexivity |].
    assert (H1 : INR 1 <= INR i) by (apply le_INR; lia).
    simpl in H1. lra. }
  split; [exact Hhover |]. split; [exact Ht0 |]. split; [reflexivity |].
  assert (Hratio : 1 <= t' / t).
  { apply Rmult_le_reg_r with t; [lra |].
    unfold Rdiv. rewrite Rmult_assoc, Rinv_l by lra. lra. }
  split; [| split].
  - intros Hflat'. specialize (Hflat Hflat'). subst k.
    assert (Hcf : cf = 1).
    { unfold cf. rewrite Ht', sqrt_1.
      replace (t / 1) with t by field. rewrite Rmin_right by lra.
      replace (t / t) with 1 by (field; lra). apply Rpower_one. }
    split; [exact Hcf |].
    rewrite Hcf, mul_one_r. reflexivity.
  - intros Hcoax'. specialize (Hcoax Hcoax'). subst k.
    split; [unfold cf; now rewrite Ht' |]. split.
    + unfold cf. rewrite <- (Rpower_one 1.5).
      apply Rle_Rpower_l; lra.
    + intros Ht100. unfold cf. rewrite <- (Rpower_one 1.5).
      apply Rlt_Rpower_l; [lra |]. split; [lra |].
      assert (Hlt' : t < t') by (apply Hlt; lra).
      apply Rmult_lt_reg_r with t; [lra |].
      unfold Rdiv. rewrite Rmult_assoc, Rinv_l by lra. lra.
  - intros I T HI HI0 HT.
    cbn [SimulationResult.hoverTotalCurrent SimulationResult.flightTimeMin
         Body.result] in HI, HT.
    assert (Hcf0 : 0 < cf) by (unfold cf, Rpower; apply exp_pos).
    unfold Body.flightTime in HT. rewrite HI in HT |- *.
    rewrite calcFlightTime_pos in HT by exact HI0.
    rewrite mul_Fin, calcFlightTime_pos by nra.
    destruct (mul_Fin_factors _ _ _ HT) as (a & c60 & Ha & [= <-] & ->).
    apply div_Fin_numerator in Ha; [| lra].
    rewrite Ha, div_Fin, mul_Fin by nra.
    f_equal. field. lra.
Qed.

Lemma FlightTimeVsPayload_zero_payload_witness :
  let frame :=
    {| Frame.motorCount := Undefined; Frame.layout := Val "coaxial"%string;
       Frame.frameWeight := Val (Fin 300); Frame.payloadWeight := Undefined;
       Frame.payloadCurrent := Undefined; Frame.wheelbaseMm := Undefined |} in
  let c :=
    {| Config.environment := Undefined; Config.frame := Val frame;
       Config.battery := Val Battery.empty; Config.esc := Undefined;
       Config.motor := Undefined; Config.propeller := Undefined |} in
  let h : Heap := fun _ => c in
  let r := Body.result (resolve c) in
  exists (ft : number) (data : list PayloadPoint.t) (cf : R),
    FlightTimeVsPayload (Val 0%nat) (Val r) h = (Normal (Some data), h) /\
    ft = calcFlightTime (SimulationResult.totalCapacityMah r)
           (Body.dischargeDepth (resolve c))
           (SimulationResult.hoverTotalCurrent r * Fin cf)%js /\
    1 <= cf.
Proof.
  intros frame c h r.
  assert (Hobj : sections_are_objects (h 0%nat)).
  { unfold sections_are_objects, is_object_or_absent. cbn.
    repeat split; discriminate. }
  edestruct (FlightTimeVsPayload_zero_payload 0%nat h r frame Battery.empty)
    as (ft & rest & t & cf & H1 & _ & _ & _ & H2 & _ & H3 & _).
  - exact (results_ok 0%nat h Hobj).
  - reflexivity.
  - reflexivity.
  - change (Body.maxThrustPerMotor (resolve (h 0%nat)))
      with (Body.maxThrustPerMotor (with_frame_weight 300)).
    apply maxThrustPerMotor_wfw.
  - lra.
  - change (Body.numMotors (resolve (h 0%nat))) with (Fin 4). reflexivity.
  - lra.
  - change (Body.totalWeightKg (resolve (h 0%nat)))
      with (Body.totalWeightKg (with_frame_weight 300)).
    apply totalWeightKg_wfw.
  - lra.
  - exists ft. eexists. exists cf. split; [exact H1 |]. split; [exact H2 |].
    now apply H3.
Defined.

(** ** Efficiency against throttle *)

Lemma efficiency_data_points (ct cp rho M d : number) :
  for_loop 20 (Fin 10) (Fin 100) (Fin 5)
    (fun t => [efficiency_point ct cp rho M d t])
  = map (fun i : nat => efficiency_point ct cp rho M d (Fin (10 + 5 * INR i)))
        (seq 0 19).
Proof.
  rewrite (for_loop_count _ 5 100 ltac:(lra) 19 20 10); cbn [INR]; try lra;
    [| lia].
  rewrite flat_map_singleton, map_map. apply map_ext. intros i.
  f_equal. f_equal. lra.
Qed.

Lemma efficiency_point_Fin (c q rho M d t : R) :
  0 < q -> 0 < rho -> 0 < M -> 0 < d -> 0 < t ->
  efficiency_point (Fin c) (Fin q) (Fin rho) (Fin M) (Fin d) (Fin t)
  = {| EfficiencyPoint.throttle := Fin t;
       EfficiencyPoint.efficiency :=
         Fin (IZR (Int_part
                     (1000 * c / (9.80665 * q * (M / 6000) * d) / t * 100
                      + / 2)) / 100) |}.
Proof.
  intros Hq Hrho HM Hd Ht. unfold efficiency_point, GRAVITY.
  rewrite (div_Fin t 100), mul_Fin, (div_Fin _ 60) by lra.
  rewrite calcThrust_Fin, calcPropPower_Fin.
  set (rps := M * (t / 100) / 60).
  assert (Hrps : 0 < rps).
  { unfold rps. apply Rdiv_lt_0_compat; [| lra].
    apply Rmult_lt_0_compat; lra. }
  assert (Hpower : 0 < q * rho * (rps * rps * rps) * (d * d * d * d * d)).
  { repeat apply Rmult_lt_0_compat; try assumption; lra. }
  unfold gt. rewrite lt_Fin, Rlt_b_true by exact Hpower.
  rewrite (div_Fin _ 9.80665), mul_Fin, div_Fin, mul_Fin by lra.
  rewrite Math_round_Fin, div_Fin by lra.
  assert (E : c * rho * rps * rps * (d * d * d * d) / 9.80665 * 1000
              / (q * rho * (rps * rps * rps) * (d * d * d * d * d)) * 100
              = 1000 * c / (9.80665 * q * (M / 6000) * d) / t * 100).
  { unfold rps. field. lra. }
  now rewrite E.
Qed.

(** X29. For positive finite cp, air density, maximal RPM and propeller
    diameter the efficiency chart has 19 points, at the throttles
    10, 15, ..., 100.  The efficiency plotted at throttle t is K / t rounded
    to two decimals, with K = 100 * 1000 * ct / (g * cp * (maxRPM / 60) * D)
    and D the diameter in metres: it is inversely proportional to the
    throttle, does not depend on the air density, and for ct >= 0 never
    rises with the throttle. *)
Theorem EfficiencyCurve_hyperbola
  (l : loc) (h : Heap) (r : SimulationResult.t) (p : Propeller.t)
  (c q rho M d : R) :
  Config.propeller (h l) = Val p ->
  SimulationResult.ct r = Fin c ->
  SimulationResult.cp r = Fin q -> 0 < q ->
  SimulationResult.airDensity r = Fin rho -> 0 < rho ->
  SimulationResult.maxRPM r = Fin M -> 0 < M ->
  or_default (Propeller.diameterIn p) (Fin 10) = Fin d -> 0 < d ->
  let K := 100 * 1000 * c / (9.80665 * q * (M / 60) * (d * 0.0254)) in
  exists data : list EfficiencyPoint.t,
    EfficiencyCurve (Val l) (Val r) h = (Normal (Some data), h) /\
    List.length data = 19%nat /\
    (forall i : nat,
        (i < 19)%nat ->
        nth_error data i
        = Some {| EfficiencyPoint.throttle := Fin (10 + 5 * INR i);
                  EfficiencyPoint.efficiency :=
                    (Math_round (Fin (K / (10 + 5 * INR i) * 100))
                     / Fin 100)%js |}) /\
    (0 <= c ->
     forall (i j : nat) (a b : EfficiencyPoint.t),
       (i <= j)%nat ->
       nth_error data i = Some a -> nth_error data j = Some b ->
       (EfficiencyPoint.efficiency b <= EfficiencyPoint.efficiency a)%js
       = true).
Proof.
  intros Hp Hc Hq Hq0 Hrho Hrho0 HM HM0 Hd Hd0 K.
  set (point := fun i : nat =>
         {| EfficiencyPoint.throttle := Fin (10 + 5 * INR i);
            EfficiencyPoint.efficiency :=
              (Math_round (Fin (K / (10 + 5 * INR i) * 100)) / Fin 100)%js |}).
  assert (Hdata :
    for_loop 20 (Fin 10) (Fin 100) (Fin 5)
      (fun t => [efficiency_point (Fin c) (Fin q) (Fin rho) (Fin M)
                   (Fin (d * 0.0254)) t])
    = map point (seq 0 19)).
  { rewrite efficiency_data_points. apply map_ext. intros i.
    pose proof (pos_INR i) as Hi.
    rewrite efficiency_point_Fin by lra.
    unfold point. rewrite Math_round_Fin, div_Fin by lra.
    assert (E : 1000 * c / (9.80665 * q * (M / 6000) * (d * 0.0254))
                / (10 + 5 * INR i) * 100
                = K / (10 + 5 * INR i) * 100).
    { unfold K. field. lra. }
    now rewrite E. }
  exists (map point (seq 0 19)). split.
  { unfold EfficiencyCurve, bind, object_of, ret, load.
    rewrite Hp, Hc, Hq, Hrho, HM, Hd, mul_Fin, Hdata. reflexivity. }
  assert (Hnth : forall i : nat, (i < 19)%nat ->
                   nth_error (map point (seq 0 19)) i = Some (point i)).
  { intros i Hi. now apply nth_error_map_seq. }
  split; [now rewrite length_map, length_seq |].
  split; [exact Hnth |].
  intros Hc0 i j pa pb Hij Hi Hj.
  assert (Hj19 : (j < List.length (map point (seq 0 19)))%nat).
  { apply nth_error_Some. rewrite Hj. discriminate. }
  rewrite length_map, length_seq in Hj19.
  rewrite Hnth in Hi, Hj by lia.
  injection Hi as <-. injection Hj as <-.
  unfold point. cbn [EfficiencyPoint.efficiency].
  rewrite !Math_round_Fin, !div_Fin, le_Fin by lra.
  apply Rle_b_true.
  assert (H0 : 0 <= INR i) by apply pos_INR.
  assert (H1 : INR i <= INR j) by now apply le_INR.
  assert (HK : 0 <= K).
  { assert (A1 : 0 < 9.80665 * q) by lra.
    assert (A2 : 0 < M / 60) by lra.
    assert (A3 : 0 < d * 0.0254) by lra.
    unfold K. apply Rmult_le_pos; [lra |]. left. apply Rinv_0_lt_compat.
    apply Rmult_lt_0_compat; [apply Rmult_lt_0_compat |]; assumption. }
  assert (Hinv : / (10 + 5 * INR j) <= / (10 + 5 * INR i)).
  { apply Rinv_le_contravar; lra. }
  assert (Hle : IZR (Int_part (K / (10 + 5 * INR j) * 100 + / 2))
                <= IZR (Int_part (K / (10 + 5 * INR i) * 100 + / 2))).
  { apply IZR_le, Int_part_le. unfold Rdiv. nra. }
  lra.
Qed.

Lemma cp_wfw g : Body.cp (with_frame_weight g) = Fin 0.04075.
Proof.
  change (Body.cp (with_frame_weight g))
    with (coeff_cp (estimatePropCoefficients (Fin 10) (Fin 4.5) (Fin 2))).
  rewrite (estimatePropCoefficients_Fin 10 4.5 false) by lra.
  cbn [coeff_cp]. rewrite Rmin_right by lra. rewrite Rmax_right by lra.
  f_equal. lra.
Qed.

Lemma maxRPM_wfw g : Body.maxRPM (with_frame_weight g) = Fin (920 * 16.75).
Proof.
  unfold Body.maxRPM.
  change (Body.kv (with_frame_weight g)) with (Fin 920).
  change (Body.maxVoltage (with_frame_weight g)) with (Fin 4.2 * Fin 4)%js.
  change (Body.noLoadCurrent (with_frame_weight g)) with (Fin 0.5).
  change (Body.motorResistance (with_frame_weight g)) with (Fin 0.1).
  unfold calcMotorRPM.
  rewrite !mul_Fin, sub_Fin, Math_max_Fin, mul_Fin.
  rewrite Rmax_right by lra. f_equal. lra.
Qed.

Lemma EfficiencyCurve_hyperbola_witness :
  let c :=
    {| Config.environment := Undefined;
       Config.frame := Val (the_frame (with_frame_weight 300));
       Config.battery := Undefined; Config.esc := Undefined;
       Config.motor := Undefined;
       Config.propeller := Val Propeller.empty |} in
  let h : Heap := fun _ => c in
  exists data : list EfficiencyPoint.t,
    EfficiencyCurve (Val 0%nat) (Val (Body.result (resolve c))) h
    = (Normal (Some data), h) /\
    List.length data = 19%nat.
Proof.
  intros c h.
  edestruct (EfficiencyCurve_hyperbola 0%nat h (Body.result (resolve c))
               Propeller.empty) as (data & H1 & H2 & _).
  - reflexivity.
  - cbn [SimulationResult.ct Body.result].
    change (resolve c) with (with_frame_weight 300). apply ct_wfw.
  - cbn [SimulationResult.cp Body.result].
    change (resolve c) with (with_frame_weight 300). apply cp_wfw.
  - lra.
  - cbn [SimulationResult.airDensity Body.result].
    change (resolve c) with (with_frame_weight 300). apply rho_wfw.
  - lra.
  - cbn [SimulationResult.maxRPM Body.result].
    change (resolve c) with (with_frame_weight 300). apply maxRPM_wfw.
  - lra.
  - reflexivity.
  - lra.
  - exists data. split; assumption.
Defined.

(* ================================================================== *)
(** * Properties of the dashboard *)

(** X30. The status indicators of the dashboard against the validations of
    the same results.  The thrust card shows "danger" exactly when the
    check twrOk fails, unless the ratio is NaN: the check then fails under
    a "safe" indicator.  A passed motorTempOk gives a "safe" thermal card,
    and a "safe" thermal card a passed check except at exactly 80 degrees
    and at NaN.  A hover card in "danger" (above 70 %) means a failed
    hoverThrottleOk, but the check (below 60 %) also fails under "caution"
    for a throttle from 60 to 70, and under "safe" for NaN.  With a
    positive continuous rating, a failed batteryDischargeOk on a current
    that is a number puts the electrical card in "danger". *)
Theorem dashboard_status_validations (s : Sections) :
  let r := Body.result s in
  let v := SimulationResult.validations r in
  (SimulationResult.twr r <> NaN ->
   (twrStatus r = "danger"%string <-> Validations.twrOk v = false)) /\
  (SimulationResult.twr r = NaN ->
   twrStatus r = "safe"%string /\ Validations.twrOk v = false) /\
  (Validations.motorTempOk v = true -> tempStatus r = "safe"%string) /\
  (tempStatus r = "safe"%string ->
   Validations.motorTempOk v = true \/
   SimulationResult.motorTemp5min r = Fin 80 \/
   SimulationResult.motorTemp5min r = NaN) /\
  (timeStatus r = "danger"%string -> Validations.hoverThrottleOk v = false) /\
  (forall t : R,
      SimulationResult.hoverThrottle r = Fin t ->
      (Validations.hoverThrottleOk v = false /\
       timeStatus r = "caution"%string <-> 60 <= t <= 70) /\
      (timeStatus r = "safe"%string -> Validations.hoverThrottleOk v = true)) /\
  (SimulationResult.hoverThrottle r = NaN ->
   timeStatus r = "safe"%string /\ Validations.hoverThrottleOk v = false) /\
  (forall c i : R,
      SimulationResult.maxContinuousCurrent r = Fin c -> 0 < c ->
      SimulationResult.hoverTotalCurrent r = Fin i ->
      Validations.batteryDischargeOk v = false ->
      currentStatus r = "danger"%string).
Proof.
  cbv zeta.
  unfold twrStatus, tempStatus, timeStatus, currentStatus, getStatus, gt.
  cbn [SimulationResult.validations SimulationResult.twr
       SimulationResult.motorTemp5min SimulationResult.hoverThrottle
       SimulationResult.maxContinuousCurrent SimulationResult.hoverTotalCurrent
       Body.result].
  unfold Body.validations.
  cbn [Validations.twrOk Validations.motorTempOk Validations.hoverThrottleOk
       Validations.batteryDischargeOk].
  split; [| split; [| split; [| split; [| split; [| split; [| split]]]]]].
  - intros Hnan. unfold ge.
    destruct (Body.twr s) as [| | |x]; [contradiction | | |]; cbn.
    + split; [discriminate | discriminate].
    + split; reflexivity.
    + rdec; split; intros H; try reflexivity; try discriminate H; lra.
  - intros ->. split; reflexivity.
  - destruct (Body.motorTemp5min s) as [| | |x]; cbn; try discriminate;
      try reflexivity.
    rdec; intros H; try reflexivity; try discriminate H; lra.
  - destruct (Body.motorTemp5min s) as [| | |x]; cbn; try discriminate; auto.
    rdec; intros H; try discriminate H; auto.
    right. left. f_equal. lra.
  - destruct (Body.hoverThrottle s) as [| | |x]; cbn; try discriminate;
      try reflexivity.
    rdec; intros H; try reflexivity; try discriminate H; lra.
  - intros t ->. cbn. split; [split |].
    + rdec; intros [H1 H2]; try discriminate H1; try discriminate H2; lra.
    + intros Ht. rdec; try lra; split; reflexivity.
    + rdec; intros H; try reflexivity; try discriminate H; lra.
  - intros ->. split; reflexivity.
  - intros c i -> Hc -> . cbn. rdec; intros H; try reflexivity;
      try discriminate H; lra.
Qed.
